(** * Compressor-and-splitter: a model of [compress.py]

    The development embeds the size-bounded splitter [split_pdf], the three
    compression strategies and the per-file pipeline of
    [NagarkotCompressorApp.run_process], and proves the properties the
    specification states about them.

    Layout:
    - [OsPath]: the [os.path] functions the program calls (POSIX flavour);
    - the world (file system, status table, trace) and the exception monad;
    - the external layer (PyMuPDF, Pillow, Ghostscript and the operating
      system are not part of the repository), taken as a record of
      parameters;
    - the program, function by function;
    - the theorems. *)

From Stdlib Require Import ZArith Floats Ascii String List Bool Lia.
From stdpp Require Import gmap strings list pretty.

Set Warnings "-inexact-float".
Local Open Scope Z_scope.

(* ------------------------------------------------------------------ *)
(** * [os.path] *)
(* ------------------------------------------------------------------ *)

Module OsPath.

(** Python slices [s[n:]] and [s[:n]] for [0 <= n]. *)
Fixpoint str_drop (n : nat) (s : string) : string :=
  match n, s with
  | O, _ => s
  | S n', String _ r => str_drop n' r
  | S _, EmptyString => EmptyString
  end.

Fixpoint str_take (n : nat) (s : string) : string :=
  match n, s with
  | O, _ => EmptyString
  | S n', String a r => String a (str_take n' r)
  | S _, EmptyString => EmptyString
  end.

(** [s.rfind(c)]: the highest index of [c] in [s], [-1] when absent. *)
Fixpoint rfind (c : ascii) (s : string) : Z :=
  match s with
  | EmptyString => -1
  | String a r =>
      let i := rfind c r in
      if 0 <=? i then i + 1
      else if Ascii.eqb a c then 0 else -1
  end.

Fixpoint has_char (c : ascii) (s : string) : bool :=
  match s with
  | EmptyString => false
  | String a r => Ascii.eqb a c || has_char c r
  end.

Definition sep : ascii := "/"%char.
Definition extsep : ascii := "."%char.

(** [s.endswith(sep)] and [s.startswith(sep)]. *)
Fixpoint endswith_sep (s : string) : bool :=
  match s with
  | EmptyString => false
  | String a EmptyString => Ascii.eqb a sep
  | String _ r => endswith_sep r
  end.

Definition startswith_sep (s : string) : bool :=
  match s with
  | String a _ => Ascii.eqb a sep
  | EmptyString => false
  end.

(** [posixpath.basename]: [i = p.rfind(sep) + 1; return p[i:]]. *)
Definition basename (p : string) : string :=
  str_drop (Z.to_nat (rfind sep p + 1)) p.

(** [posixpath.join(a, b)] with one component [b]. *)
Definition join (a b : string) : string :=
  if startswith_sep b then b
  else if (String.eqb a "" || endswith_sep a)%bool then a +:+ b
  else a +:+ String sep b.

(** [genericpath._splitext(p, sep, None, extsep)]: the extension starts at
    the last dot of the last component, unless that component consists of
    leading dots only up to there. *)
Fixpoint all_dots (s : string) : bool :=
  match s with
  | EmptyString => true
  | String a r => Ascii.eqb a extsep && all_dots r
  end.

Definition splitext (p : string) : string * string :=
  let sepIndex := rfind sep p in
  let dotIndex := rfind extsep p in
  if (sepIndex <? dotIndex)
     && negb (all_dots (str_drop (Z.to_nat (sepIndex + 1))
                                 (str_take (Z.to_nat dotIndex) p)))
  then (str_take (Z.to_nat dotIndex) p, str_drop (Z.to_nat dotIndex) p)
  else (p, EmptyString).

(** [needle in hay]. *)
Fixpoint str_contains (needle hay : string) : bool :=
  String.prefix needle hay
  || match hay with
     | EmptyString => false
     | String _ r => str_contains needle r
     end.

(** The file name of [pdf_path] without its extension ([base] in
    [run_process]). *)
Definition stem (pdf_path : string) : string :=
  (splitext (basename pdf_path)).1.

End OsPath.

(* ------------------------------------------------------------------ *)
(** * The world the program runs in *)
(* ------------------------------------------------------------------ *)

Abbreviation bytes := (list Byte.byte).

(** A row of the status table ([self.tree]): file name, size, status. *)
Record Row := mkRow { row_file : string; row_size : string; row_status : string }.

Inductive Strategy := ExternalGS | ContainerOptimize | Binarize.

(** What an observer of a run sees besides the files: each call of
    [update_status], each call of a compression function and each message
    box. *)
Inductive Event :=
| Status (file msg : string)
| Invoke (s : Strategy) (pdf_path output_path : string)
| Dialog (kind title msg : string).

Record World := mkWorld {
  fs : gmap string bytes;      (* path -> contents of the file *)
  tree : list Row;
  trace : list Event
}.

Definition with_fs (f : gmap string bytes → gmap string bytes) (w : World) : World :=
  mkWorld (f (fs w)) (tree w) (trace w).

Inductive exn :=
| FileNotFoundError | FileDataError | OSError | SameFileError
| ValueError | OverflowError | IndexError.

(** A computation ends with a value, with a raised exception, or is cut
    off because a loop used up its fuel. *)
Inductive outcome (A : Type) :=
| Ok (a : A)
| Raise (e : exn)
| OutOfFuel.
Arguments Ok {A} a.
Arguments Raise {A} e.
Arguments OutOfFuel {A}.

Definition M (A : Type) : Type := World → outcome A * World.

Definition ret {A} (a : A) : M A := λ w, (Ok a, w).
Definition raise {A} (e : exn) : M A := λ w, (Raise e, w).
Definition out_of_fuel {A} : M A := λ w, (OutOfFuel, w).

Definition bind {A B} (m : M A) (k : A → M B) : M B := λ w,
  match m w with
  | (Ok a, w') => k a w'
  | (Raise e, w') => (Raise e, w')
  | (OutOfFuel, w') => (OutOfFuel, w')
  end.

(** [try: m except Exception: h]. *)
Definition try_except {A} (m : M A) (h : exn → M A) : M A := λ w,
  match m w with
  | (Raise e, w') => h e w'
  | r => r
  end.

Declare Scope py_scope.
Delimit Scope py_scope with py.
Notation "x <- m ;; k" := (bind m (λ x, k))
  (at level 100, m at next level, right associativity) : py_scope.
Notation "m ;; k" := (bind m (λ _, k))
  (at level 100, right associativity) : py_scope.
Local Open Scope py_scope.

(** ** Files *)

Definition path_exists (path : string) : M bool := λ w,
  (Ok (bool_decide (is_Some (fs w !! path))), w).

Definition file_size (w : World) (path : string) : Z :=
  match fs w !! path with
  | Some b => Z.of_nat (length b)
  | None => 0
  end.

(** [get_file_size]: the size, or 0 on [FileNotFoundError]. *)
Definition get_file_size (path : string) : M Z := λ w, (Ok (file_size w path), w).

(** ** The status table *)

Fixpoint set_status (rows : list Row) (filename_base msg : string) : list Row :=
  match rows with
  | [] => []
  | r :: rest =>
      if decide (row_file r = filename_base)
      then mkRow (row_file r) (row_size r) msg :: rest
      else r :: set_status rest filename_base msg
  end.

(** [update_status]: the first row of that file gets the message. *)
Definition update_status (filename_base msg : string) : M unit := λ w,
  (Ok tt, mkWorld (fs w) (set_status (tree w) filename_base msg)
                  (trace w ++ [Status filename_base msg])).

Definition log (e : Event) : M unit := λ w,
  (Ok tt, mkWorld (fs w) (tree w) (trace w ++ [e])).

(* ------------------------------------------------------------------ *)
(** * Documents and the external layer *)
(* ------------------------------------------------------------------ *)

(** What a page holds: content of the source file, or an image placed by
    [insert_image] on a rectangle of the given width and height. *)
Inductive Item :=
| Native (stream : bytes)
| ImagePlaced (w h : float) (stream : bytes).

Record Page := mkPage {
  page_width : float;
  page_height : float;
  page_items : list Item
}.

(** [fitz.Pixmap]: width, height and the sample bytes. *)
Record Pixmap := mkPixmap { pix_width : Z; pix_height : Z; pix_samples : bytes }.

(** A mode "L" image as NumPy sees it: the uint8 pixels, row by row. *)
Record GrayImage := mkGray { img_width : Z; img_height : Z; img_pixels : bytes }.

(** PyMuPDF, Pillow, Ghostscript and the operating system are not part of
    the repository; the program is modelled over any behaviour of theirs.
    [None] stands for a raised exception. *)
Record Env := mkEnv {
  (* fitz.open(path) on the contents of the file *)
  pdf_parse : bytes → option (list Page);
  (* Document.save(path, deflate=True, garbage=4): the bytes written *)
  pdf_write : list Page → option bytes;
  (* the same call on the trial document of [split_pdf], a document of its
     own that is assembled from a copy of the part and the next page: the
     bytes it writes need not be those a save of the part gives for the
     same pages *)
  trial_write : list Page → option bytes;
  (* whether a file can be created or replaced at the path *)
  writable : string → bool;
  (* tempfile.gettempdir() *)
  tempdir : string;
  (* page.get_pixmap(dpi=...) *)
  get_pixmap : Page → Z → option Pixmap;
  (* Image.frombytes("RGB", [w, h], samples).convert("L"), as an array *)
  convert_L : Pixmap → option GrayImage;
  (* Image.fromarray(..., 'L').save(format="PNG", optimize=True, compress_level=9) *)
  png_save : GrayImage → option bytes;
  (* subprocess.call of a Ghostscript executable on the input contents:
     the exit code and what it left at the output path, if anything *)
  ghostscript : string → option bytes → option (Z * option bytes);
  (* float(text) *)
  py_float : string → option float
}.

(** The choices of the user that [run_process] reads from the widgets. *)
Record App := mkApp {
  pdf_list : list string;
  output_dir_var : string;
  action_var : string;
  comp_level_var : string;
  size_var : string
}.

(** ** Arithmetic of NumPy and of [int()] *)

Definition float_of_Z (z : Z) : float := PrimFloat.of_uint63 (Uint63.of_Z z).

(** The value of a uint8. *)
Definition uint8 (b : Byte.byte) : Z := Z.of_N (Byte.to_N b).

(** [np.mean(arr)] of a uint8 array: the float64 sum (exact, the terms
    being integers and the sum below 2^53 in any image that fits in
    memory) divided by the number of elements. *)
Definition np_mean (arr : bytes) : float :=
  let total := foldr (λ v acc, uint8 v + acc) 0 arr in
  let count := Z.of_nat (length arr) in
  (float_of_Z total / float_of_Z count)%float.

Definition threshold (arr : bytes) : float := (np_mean arr * 0.92)%float.

(** [((arr > thresh) * 255).astype(np.uint8)]: 255 where the pixel is above
    the threshold, 0 elsewhere. *)
Definition binarize (arr : bytes) : bytes :=
  let thresh := threshold arr in
  (λ v, if PrimFloat.ltb thresh (float_of_Z (uint8 v)) then Byte.xff else Byte.x00)
    <$> arr.

(** [int(x)] of a float: truncation toward zero; infinities and NaN raise. *)
Definition py_int (x : float) : exn + Z :=
  match Prim2SF x with
  | S754_zero _ => inr 0
  | S754_finite s m e =>
      let mag := if 0 <=? e then Z.pos m * 2 ^ e else Z.pos m / 2 ^ (- e) in
      inr (if s then - mag else mag)
  | S754_infinity _ => inl OverflowError
  | S754_nan => inl ValueError
  end.

(** A page of a part, with the index it had in the source document. *)
Abbreviation TaggedPage := (nat * Page)%type.

Section Program.

Context (E : Env).

Definition fitz_open (path : string) : M (list Page) := λ w,
  match fs w !! path with
  | None => (Raise FileNotFoundError, w)
  | Some b =>
      match pdf_parse E b with
      | Some doc => (Ok doc, w)
      | None => (Raise FileDataError, w)
      end
  end.

Definition doc_save (doc : list Page) (path : string) : M unit := λ w,
  if writable E path then
    match pdf_write E doc with
    | Some b => (Ok tt, with_fs (insert path b) w)
    | None => (Raise ValueError, w)
    end
  else (Raise OSError, w).

(** [trial_doc.save(trial_path, deflate=True, garbage=4)]. *)
Definition trial_save (trial_doc : list Page) (path : string) : M unit := λ w,
  if writable E path then
    match trial_write E trial_doc with
    | Some b => (Ok tt, with_fs (insert path b) w)
    | None => (Raise ValueError, w)
    end
  else (Raise OSError, w).

(* ------------------------------------------------------------------ *)
(** * [split_pdf] *)
(* ------------------------------------------------------------------ *)

Record SplitPart := mkPart {
  part_index : nat;
  part_pages : list TaggedPage;
  part_path : string
}.

Section Loops.

Variables (doc : list Page) (output_folder base_name : string)
          (max_size_bytes : Z).

(** [temp.insert_pdf(doc, from_page=p, to_page=p)] *)
Definition copy_page (p : nat) : M (list TaggedPage) :=
  match doc !! p with
  | Some pg => ret [(p, pg)]
  | None => raise IndexError
  end.

Definition trial_path : string :=
  OsPath.join (tempdir E) ("__trial_" +:+ base_name +:+ ".pdf").

Definition out_path (part_index : nat) : string :=
  OsPath.join output_folder (base_name +:+ "_part" +:+ pretty part_index +:+ ".pdf").

(** The inner [while p < total_pages] loop; it returns [part_doc] and [p]. *)
Fixpoint inner_loop (fuel : nat) (part_doc : list TaggedPage) (p : nat)
  : M (list TaggedPage * nat) :=
  if (p <? length doc)%nat then
    match fuel with
    | O => out_of_fuel
    | S fuel' =>
        temp <- copy_page p ;;
        (* Always add first page of a chunk *)
        if (length part_doc =? 0)%nat then
          inner_loop fuel' (part_doc ++ temp) (p + 1)
        else
          (* Trial save for size check *)
          let trial_doc := part_doc ++ temp in
          trial_save (trial_doc.*2) trial_path ;;
          trial_size <- get_file_size trial_path ;;
          if trial_size >? max_size_bytes then ret (part_doc, p)
          else inner_loop fuel' (part_doc ++ temp) (p + 1)
    end
  else ret (part_doc, p).

(** One pass of the outer loop: build a part from [start], save it. *)
Definition build_part (fuel : nat) (start part_index : nat) : M (SplitPart * nat) :=
  r <- inner_loop fuel [] start ;;
  let '(part_doc, p) := r in
  doc_save (part_doc.*2) (out_path part_index) ;;
  ret (mkPart part_index part_doc (out_path part_index), p).

(** The outer [while start < total_pages] loop. *)
Fixpoint outer_loop (fuel fuel_in : nat) (start part_index : nat)
    (outputs : list SplitPart) : M (list SplitPart) :=
  if (start <? length doc)%nat then
    match fuel with
    | O => out_of_fuel
    | S fuel' =>
        r <- build_part fuel_in start part_index ;;
        let '(part, p) := r in
        outer_loop fuel' fuel_in p (part_index + 1) (outputs ++ [part])
    end
  else ret outputs.

End Loops.

(** [split_pdf], with the parts it built.  The loops get as many passes as
    the document has pages, which is enough ([outer_loop_fuel] below). *)
Definition split_parts (pdf_path output_folder base_name : string)
    (max_size_bytes : Z) : M (list SplitPart) :=
  doc <- fitz_open pdf_path ;;
  outer_loop doc output_folder base_name max_size_bytes
             (length doc) (length doc) 0 1 [].

Definition split_pdf (pdf_path output_folder base_name : string)
    (max_size_bytes : Z) : M (list string) :=
  parts <- split_parts pdf_path output_folder base_name max_size_bytes ;;
  ret (part_path <$> parts).

(* ------------------------------------------------------------------ *)
(** * Compression methods *)
(* ------------------------------------------------------------------ *)

Definition gs_commands : list string := ["gswin64c"; "gswin32c"; "gs"].

(** [subprocess.call(command)]: Ghostscript reads [pdf_path] and writes
    [output_path]. *)
Definition subprocess_call (gs_exe pdf_path output_path : string) : M Z := λ w,
  match ghostscript E gs_exe (fs w !! pdf_path) with
  | None => (Raise OSError, w)
  | Some (code, Some b) => (Ok code, with_fs (insert output_path b) w)
  | Some (code, None) => (Ok code, w)
  end.

(** The [for gs_exe in gs_commands] loop with its [break] and [continue]. *)
Fixpoint gs_loop (cmds : list string) (pdf_path output_path : string) : M bool :=
  match cmds with
  | [] => ret false
  | gs_exe :: rest =>
      success <- try_except
        (code <- subprocess_call gs_exe pdf_path output_path ;;
         present <- path_exists output_path ;;
         size <- get_file_size output_path ;;
         ret ((code =? 0) && present && (size >? 0)))
        (λ _, ret false) ;;
      if success then ret true else gs_loop rest pdf_path output_path
  end.

Definition compress_standard_gs (pdf_path output_path : string) : M bool :=
  log (Invoke ExternalGS pdf_path output_path) ;;
  gs_loop gs_commands pdf_path output_path.

Definition compress_pymupdf_optimize (pdf_path output_path : string) : M bool :=
  log (Invoke ContainerOptimize pdf_path output_path) ;;
  try_except
    (doc <- fitz_open pdf_path ;;
     doc_save doc output_path ;;
     ret true)
    (λ _, ret false).

Definition of_option {A} (e : exn) (o : option A) : M A :=
  match o with
  | Some a => ret a
  | None => raise e
  end.

(** The body of [for page in doc] in [compress_binary_bw]. *)
Definition bw_page (page : Page) : M Page :=
  pix <- of_option ValueError (get_pixmap E page 200) ;;
  img <- of_option ValueError (convert_L E pix) ;;
  let binary := binarize (img_pixels img) in
  img_bytes <- of_option OSError
                 (png_save E (mkGray (img_width img) (img_height img) binary)) ;;
  let pdf_page := mkPage (page_width page) (page_height page) [] in
  ret (mkPage (page_width pdf_page) (page_height pdf_page)
              (page_items pdf_page
               ++ [ImagePlaced (page_width page) (page_height page) img_bytes])).

Fixpoint bw_pages (pages new_pdf : list Page) : M (list Page) :=
  match pages with
  | [] => ret new_pdf
  | page :: rest =>
      pdf_page <- bw_page page ;;
      bw_pages rest (new_pdf ++ [pdf_page])
  end.

Definition compress_binary_bw (pdf_path output_path : string) : M bool :=
  log (Invoke Binarize pdf_path output_path) ;;
  try_except
    (doc <- fitz_open pdf_path ;;
     new_pdf <- bw_pages doc [] ;;
     doc_save new_pdf output_path ;;
     ret true)
    (λ _, ret false).

(* ------------------------------------------------------------------ *)
(** * [NagarkotCompressorApp.run_process] *)
(* ------------------------------------------------------------------ *)

Definition shutil_move (src dst : string) : M unit := λ w,
  match fs w !! src with
  | None => (Raise FileNotFoundError, w)
  | Some b =>
      if writable E dst
      then (Ok tt, with_fs (λ m, <[dst := b]> (delete src m)) w)
      else (Raise OSError, w)
  end.

Definition shutil_copy (src dst : string) : M unit := λ w,
  match fs w !! src with
  | None => (Raise FileNotFoundError, w)
  | Some b =>
      if decide (src = dst) then (Raise SameFileError, w)
      else if writable E dst
      then (Ok tt, with_fs (insert dst b) w)
      else (Raise OSError, w)
  end.

Section PerFile.

Variables (output_folder : string) (split_mb : float) (act clevel : string).

Definition should_compress : bool :=
  bool_decide (act = "Compress Only") || bool_decide (act = "Compress + Split").

(** The [if clevel == ... elif ...] choice of the strategy. *)
Definition run_strategy (pdf_path temp_comp : string) : M bool :=
  if decide (clevel = "Extreme (B&W)") then
    compress_binary_bw pdf_path temp_comp
  else if decide (clevel = "Standard (GS)") then
    success <- compress_standard_gs pdf_path temp_comp ;;
    if negb success then compress_pymupdf_optimize pdf_path temp_comp
    else ret success
  else ret false.

(** The [if should_compress:] block; it returns [current_source]. *)
Definition compress_stage (pdf_path base_name temp_comp : string) : M string :=
  if should_compress then
    update_status base_name ("Compressing (" +:+ clevel +:+ ")...") ;;
    success <- run_strategy pdf_path temp_comp ;;
    present <- path_exists temp_comp ;;
    size <- get_file_size temp_comp ;;
    if success && present && (size >? 0) then ret temp_comp
    else ret pdf_path
  else ret pdf_path.

Definition temp_comp_of (pdf_path : string) : string :=
  OsPath.join (tempdir E) (OsPath.stem pdf_path +:+ "_comp_temp.pdf").

Definition final_output_of (pdf_path : string) : string :=
  OsPath.join output_folder (OsPath.stem pdf_path +:+ "_processed.pdf").

(** The [if "Split" in act: ... else: ...] block. *)
Definition output_stage (pdf_path base_name base current_source final_output : string)
  : M unit :=
  if OsPath.str_contains "Split" act then
    update_status base_name "Splitting..." ;;
    target_bytes <- match py_int (split_mb * 1024 * 1024)%float with
                    | inr z => ret z
                    | inl e => raise e
                    end ;;
    split_pdf current_source output_folder base target_bytes ;;
    update_status base_name "Done (Split)"
  else
    (if decide (current_source ≠ pdf_path)
     then shutil_move current_source final_output
     else shutil_copy pdf_path final_output) ;;
    update_status base_name "Done (Saved)".

(** The body of the [try]. *)
Definition process_body (pdf_path base_name : string) : M unit :=
  let base := (OsPath.splitext base_name).1 in
  let temp_comp := OsPath.join (tempdir E) (base +:+ "_comp_temp.pdf") in
  let final_output := OsPath.join output_folder (base +:+ "_processed.pdf") in
  current_source <- compress_stage pdf_path base_name temp_comp ;;
  output_stage pdf_path base_name base current_source final_output.

(** One pass of [for pdf_path in self.pdf_list]. *)
Definition process_file (pdf_path : string) : M unit :=
  let base_name := OsPath.basename pdf_path in
  update_status base_name "Processing..." ;;
  try_except (process_body pdf_path base_name)
             (λ _, update_status base_name "Error").

Fixpoint run_files (files : list string) : M unit :=
  match files with
  | [] => ret tt
  | pdf_path :: rest => process_file pdf_path ;; run_files rest
  end.

End PerFile.

Definition run_process (app : App) : M unit :=
  if decide (pdf_list app = []) then
    log (Dialog "showerror" "Error" "No files selected.")
  else
    let output_folder := output_dir_var app in
    if decide (output_folder = "") then
      log (Dialog "showerror" "Error" "Please select an output folder.")
    else
      split_mb <- of_option ValueError (py_float E (size_var app)) ;;
      run_files output_folder split_mb (action_var app) (comp_level_var app)
                (pdf_list app) ;;
      log (Dialog "showinfo" "Success" "All tasks completed.").

End Program.

(* ------------------------------------------------------------------ *)
(** * The file list: [select_pdfs], [clear_selection] *)
(* ------------------------------------------------------------------ *)

(** [self.tree.insert("", "end", values=...)]: a new last row. *)
Definition tree_insert (r : Row) : M unit := λ w,
  (Ok tt, mkWorld (fs w) (tree w ++ [r]) (trace w)).

Section Selection.

(** [f"{sz:.1f}"] for [sz = size / 1024], as a function of the size. *)
Variable format_kb : Z → string.

(** The loop [for f in files] of [select_pdfs] over the files the dialog
    returned; [pdf_list] is [self.pdf_list], returned as the loop leaves
    it.  The label that counts the files is not part of the model. *)
Fixpoint select_pdfs (files : list string) (pdf_list : list string)
  : M (list string) :=
  match files with
  | [] => ret pdf_list
  | f :: rest =>
      if decide (f ∉ pdf_list) then
        let pdf_list := pdf_list ++ [f] in
        sz <- get_file_size f ;;
        tree_insert (mkRow (OsPath.basename f) (format_kb sz) "Pending") ;;
        select_pdfs rest pdf_list
      else select_pdfs rest pdf_list
  end.

End Selection.

(** [clear_selection]: the new [self.pdf_list], every row deleted. *)
Definition clear_selection : M (list string) := λ w,
  (Ok [], mkWorld (fs w) [] (trace w)).

(* ------------------------------------------------------------------ *)
(** * [is_scanned_pdf] *)
(* ------------------------------------------------------------------ *)

Section Scanned.

Context (E : Env).

(** [bool(p.get_images())]; [None] stands for a raised exception. *)
Variable has_images : Page → option bool.

(** The loop [for p in doc] that counts the pages with images. *)
Fixpoint count_img_pages (pages : list Page) (img_pages : Z) : M Z :=
  match pages with
  | [] => ret img_pages
  | p :: rest =>
      found <- of_option ValueError (has_images p) ;;
      count_img_pages rest (if found then img_pages + 1 else img_pages)
  end.

(** [img_pages >= len(doc) * 0.4]: the product is a float, and both
    counts are far below 2^53. *)
Definition is_scanned_pdf (pdf : string) : M bool :=
  try_except
    (doc <- fitz_open E pdf ;;
     img_pages <- count_img_pages doc 0 ;;
     ret (PrimFloat.leb (float_of_Z (Z.of_nat (length doc)) * 0.4)%float
                        (float_of_Z img_pages)))
    (λ _, ret true).

End Scanned.

(* ------------------------------------------------------------------ *)
(** * Vocabulary of the properties *)
(* ------------------------------------------------------------------ *)

(** No file is removed between [w] and [w']: what exists stays. *)
Definition keeps_files (w w' : World) : Prop :=
  ∀ path, is_Some (fs w !! path) → is_Some (fs w' !! path).

(** Only the file at [path] may differ between [w] and [w']. *)
Definition frame (path : string) (w w' : World) : Prop :=
  ∀ q, q ≠ path → fs w' !! q = fs w !! q.

Definition is_binarize (e : Event) : Prop :=
  match e with
  | Invoke Binarize _ _ => True
  | _ => False
  end.

(** The trace grows from [w] to [w'] and [compress_binary_bw] is not
    called in between. *)
Definition no_binarize (w w' : World) : Prop :=
  ∃ new, trace w' = trace w ++ new ∧ Forall (λ e, ¬ is_binarize e) new.

(** The status of a file in the table: that of its first row. *)
Fixpoint status_of (rows : list Row) (filename_base : string) : option string :=
  match rows with
  | [] => None
  | r :: rest =>
      if decide (row_file r = filename_base) then Some (row_status r)
      else status_of rest filename_base
  end.

(** The status table has the same files, row by row. *)
Definition same_rows (w w' : World) : Prop :=
  row_file <$> tree w' = row_file <$> tree w.

(** The status of one file is the same in [w] and [w']. *)
Definition keeps_status (filename_base : string) (w w' : World) : Prop :=
  status_of (tree w') filename_base = status_of (tree w) filename_base.

(** What [compress_binary_bw] makes of a page: the page is rendered at 200
    DPI and converted to grayscale, the pixels are binarized, the image is
    encoded, and the new page has the size of the old one and holds that
    image alone. *)
Definition bw_page_of (E : Env) (page pdf_page : Page) : Prop :=
  ∃ pix img img_bytes,
    get_pixmap E page 200 = Some pix
    ∧ convert_L E pix = Some img
    ∧ png_save E (mkGray (img_width img) (img_height img)
                         (binarize (img_pixels img))) = Some img_bytes
    ∧ pdf_page = mkPage (page_width page) (page_height page)
                        [ImagePlaced (page_width page) (page_height page) img_bytes].

(** The temporary files of an input file: the trial file of the splitter
    and the compressed working copy. *)
Definition temp_files_gone (E : Env) (pdf_path : string) (w : World) : Prop :=
  fs w !! trial_path E (OsPath.stem pdf_path) = None
  ∧ fs w !! temp_comp_of E pdf_path = None.

(** A computation keeps a relation between the world it starts in and the
    world it ends in, however it ends. *)
Definition preserves (R : World → World → Prop) {A} (m : M A) : Prop :=
  ∀ w r w', m w = (r, w') → R w w'.

(** A computation always ends with a value. *)
Definition total {A} (m : M A) : Prop := ∀ w, ∃ a w', m w = (Ok a, w').

(** The world a computation leaves. *)
Definition after {A} (m : M A) (w : World) : World := (m w).2.

(** A computation is never cut off for lack of fuel. *)
Definition fuel_free {A} (m : M A) : Prop := ∀ w w', m w ≠ (OutOfFuel, w').

(** The pages of a document with their indices, and the run of pages
    [a .. b-1]. *)
Definition tagged (doc : list Page) : list TaggedPage :=
  zip (seq 0 (length doc)) doc.

Definition segment (doc : list Page) (a b : nat) : list TaggedPage :=
  take (b - a) (drop a (tagged doc)).


(** The size the splitter measures for these pages: that of the file
    [trial_save] writes for a trial document that holds them. *)
Definition trial_file_size (E : Env) (pages : list TaggedPage) : option Z :=
  (λ b, Z.of_nat (length b)) <$> trial_write E (pages.*2).

(** The pages pass the size check: their trial file is no larger than
    [max_size_bytes]. *)
Definition passes_trial (E : Env) (max_size_bytes : Z)
    (pages : list TaggedPage) : Prop :=
  ∃ b, trial_write E (pages.*2) = Some b ∧ Z.of_nat (length b) <= max_size_bytes.


(** Every save succeeds: any path can be written and any document with a
    page can be serialized, as a document and as a trial document. *)
Definition reliable_io (E : Env) : Prop :=
  (∀ path, writable E path = true)
  ∧ (∀ pages, pages ≠ [] → is_Some (pdf_write E pages))
  ∧ (∀ pages, pages ≠ [] → is_Some (trial_write E pages)).

(** ** Vocabulary of the further properties *)

(** The function of a strategy. *)
Definition strategy_fn (E : Env) (s : Strategy) : string → string → M bool :=
  match s with
  | ExternalGS => compress_standard_gs E
  | ContainerOptimize => compress_pymupdf_optimize E
  | Binarize => compress_binary_bw E
  end.

(** The trace grows from [w] to [w'] by events that satisfy [P]. *)
Definition only_events (P : Event → Prop) (w w' : World) : Prop :=
  ∃ new, trace w' = trace w ++ new ∧ Forall P new.

(** The calls of strategies that the settings allow: none unless the action
    compresses, the binarization at the extreme level only, the two others
    at the standard level only. *)
Definition allowed_event (act clevel : string) (e : Event) : Prop :=
  match e with
  | Invoke s _ _ =>
      should_compress act = true
      ∧ match s with
        | Binarize => clevel = "Extreme (B&W)"
        | _ => clevel = "Standard (GS)"
        end
  | _ => True
  end.

(** The number of occurrences of a character in a string. *)
Fixpoint count_char (c : ascii) (s : string) : nat :=
  match s with
  | EmptyString => 0
  | String a r => (if Ascii.eqb a c then 1 else 0) + count_char c r
  end.

(** Only files at paths of [P] may differ between [w] and [w']. *)
Definition only_paths (P : string → Prop) (w w' : World) : Prop :=
  ∀ q, ¬ P q → fs w' !! q = fs w !! q.

(** The paths [split_pdf] writes to: the trial file and the part files
    numbered from [lo]. *)
Definition split_file (E : Env) (output_folder base_name : string) (lo : nat)
    (q : string) : Prop :=
  q = trial_path E base_name
  ∨ ∃ i, (lo ≤ i)%nat ∧ q = out_path output_folder base_name i.

(** The paths a pass of [run_process] over [pdf_path] writes to or moves
    from. *)
Definition derived_file (E : Env) (output_folder pdf_path : string)
    (q : string) : Prop :=
  q = temp_comp_of E pdf_path
  ∨ q = final_output_of output_folder pdf_path
  ∨ split_file E output_folder (OsPath.stem pdf_path) 1 q.

(** The trial file of the pages with one more page is over the budget. *)
Definition overfull (E : Env) (max_size_bytes : Z) (pages : list TaggedPage)
    (next : TaggedPage) : Prop :=
  ∃ b, trial_write E ((pages ++ [next]).*2) = Some b
       ∧ max_size_bytes < Z.of_nat (length b).

(** The table has one row per listed file, in the order of the list. *)
Definition in_sync (pdf_list : list string) (w : World) : Prop :=
  row_file <$> tree w = OsPath.basename <$> pdf_list.

(** The row at index [i] has the file name of a row above it. *)
Definition shadowed (rows : list Row) (i : nat) : Prop :=
  ∃ j r r', (j < i)%nat ∧ rows !! j = Some r ∧ rows !! i = Some r'
            ∧ row_file r = row_file r'.

(** The table keeps its file names, and its shadowed rows as they are. *)
Definition keeps_shadowed (w w' : World) : Prop :=
  same_rows w w' ∧ ∀ i, shadowed (tree w) i → tree w' !! i = tree w !! i.

(** The statuses a pass can end with, for the action [act]. *)
Definition terminal (act msg : string) : Prop :=
  msg = "Error"
  ∨ msg = (if OsPath.str_contains "Split" act then "Done (Split)"
           else "Done (Saved)").

(** ** A small environment to run the program in

    Each byte of a file is a page holding that byte; a file that starts
    with [!] does not parse. *)
Module Demo.

Definition item_bytes (i : Item) : bytes :=
  match i with
  | Native s => s
  | ImagePlaced _ _ s => s
  end.

Definition parse (b : bytes) : option (list Page) :=
  match b with
  | Byte.x21 :: _ => None
  | _ => Some ((λ x, mkPage 612 792 [Native [x]]) <$> b)
  end.

(** A page that holds [X] weighs five bytes, any other page one. *)
Definition expand (x : Byte.byte) : bytes :=
  match x with
  | Byte.x58 => replicate 5 x
  | _ => [x]
  end.

Definition write (d : list Page) : option bytes :=
  Some (concat ((λ p, concat ((λ i, concat (expand <$> item_bytes i))
                              <$> page_items p)) <$> d)).

Definition render (p : Page) (dpi : Z) : option Pixmap :=
  Some (mkPixmap 2 2 (concat (item_bytes <$> page_items p)
                      ++ [Byte.x10; Byte.xf0; Byte.x80])).

Definition gray (pix : Pixmap) : option GrayImage :=
  Some (mkGray (pix_width pix) (pix_height pix) (pix_samples pix)).

Definition png (img : GrayImage) : option bytes := Some (img_pixels img).

Definition parse_float (s : string) : option float :=
  if decide (s = "1.9") then Some 1.9%float
  else if decide (s = "0.000002") then Some 0.000002%float
  else None.

Definition env (can_write : string → bool)
    (gs : string → option bytes → option (Z * option bytes)) : Env :=
  mkEnv parse write write can_write "/tmp" render gray png gs parse_float.

(** No Ghostscript installed. *)
Definition no_gs : string → option bytes → option (Z * option bytes) :=
  λ _ _, None.

(** A Ghostscript that succeeds and writes the input twice over. *)
Definition doubling_gs : string → option bytes → option (Z * option bytes) :=
  λ exe input,
    if decide (exe = "gs") then Some (0, (λ b, b ++ b) <$> input) else None.

Definition anywhere : string → bool := λ _, true.

Definition file (s : string) : bytes := String.list_byte_of_string s.

(** A world with the given files, and a row in the table for each name
    of [names]. *)
Definition world (files : list (string * bytes)) (names : list string) : World :=
  mkWorld (list_to_map files)
          ((λ f, mkRow (OsPath.basename f) "0.0" "Pending") <$> names) [].

(** No Ghostscript, and one that writes more than it reads. *)
Definition E : Env := env anywhere no_gs.
Definition E_gs : Env := env anywhere doubling_gs.

(** A document of five pages, the third one heavy; an empty document; a
    file that is not a PDF; and a file that is listed but does not exist. *)
Definition w0 : World :=
  world [("/in/a.pdf", file "abXcd"); ("/in/empty.pdf", []);
         ("/in/bad.pdf", file "!xy")]
        ["/in/missing.pdf"; "/in/a.pdf"; "/in/empty.pdf"; "/in/bad.pdf"].

Definition doc : list Page := default [] (parse (file "abXcd")).

(** The parts of [doc] for a budget of two bytes: the heavy page stands
    alone. *)
Definition first_part : SplitPart :=
  mkPart 1 [(0%nat, mkPage 612 792 [Native [Byte.x61]]);
            (1%nat, mkPage 612 792 [Native [Byte.x62]])] "/out/a_part1.pdf".

Definition heavy_part : SplitPart :=
  mkPart 2 [(2%nat, mkPage 612 792 [Native [Byte.x58]])] "/out/a_part2.pdf".

Definition last_part : SplitPart :=
  mkPart 3 [(3%nat, mkPage 612 792 [Native [Byte.x63]]);
            (4%nat, mkPage 612 792 [Native [Byte.x64]])] "/out/a_part3.pdf".

End Demo.

(** ** A save that is a byte longer than the trial

    The environment of [Demo], except that a save of a document writes one
    byte before the pages, which the save of a trial document does not. *)
Module Drift.

Definition headed_write (d : list Page) : option bytes :=
  cons Byte.x25 <$> Demo.write d.

Definition E : Env :=
  mkEnv Demo.parse headed_write Demo.write Demo.anywhere "/tmp"
        Demo.render Demo.gray Demo.png Demo.no_gs Demo.parse_float.

End Drift.

(** ** More of the small environment *)
Module Scenes.

(** A Ghostscript that exits with code 0 and writes nothing. *)
Definition silent_gs : string → option bytes → option (Z * option bytes) :=
  λ _ _, Some (0, None).

Definition E_silent : Env := Demo.env Demo.anywhere silent_gs.

(** The world of [Demo.w0] with a file left at the temporary path of
    [a.pdf] by an earlier run. *)
Definition w_stale : World :=
  with_fs (insert "/tmp/a_comp_temp.pdf" (Demo.file "old")) Demo.w0.

End Scenes.

(** ** A world with a document of four light pages *)
Module Plain.

Definition page (x : Byte.byte) : Page := mkPage 612 792 [Native [x]].

Definition w0 : World :=
  Demo.world [("/in/b.pdf", Demo.file "abcd")] ["/in/b.pdf"].

Definition doc : list Page := page <$> Demo.file "abcd".

(** A byte that is a page of one byte and does not spoil the parse. *)
Definition light (x : Byte.byte) : Prop := x ≠ Byte.x58 ∧ x ≠ Byte.x21.

End Plain.

(** ** A table with two rows of one file name *)
Module Twins.

(** Sizes shown in whole kilobytes. *)
Definition whole_kb (size : Z) : string := pretty (size / 1024).

Definition files : list string := ["/in/a.pdf"; "/old/a.pdf"].

(** The two files chosen in an empty list; only the first exists. *)
Definition w0 : World :=
  after (select_pdfs whole_kb files [])
        (Demo.world [("/in/a.pdf", Demo.file "abXcd")] []).

End Twins.

(* ------------------------------------------------------------------ *)
(** * Facts about [os.path] *)
(* ------------------------------------------------------------------ *)

Module OsPathFacts.
Import OsPath.

(** The model agrees with Python on the shapes of names the program
    meets. *)
Example basename_nested : basename "/home/user/scan.2024.pdf" = "scan.2024.pdf".
Proof. reflexivity. Qed.

Example splitext_last_dot : splitext "scan.2024.pdf" = ("scan.2024", ".pdf").
Proof. reflexivity. Qed.

Example splitext_leading_dots : splitext "..hidden" = ("..hidden", "").
Proof. reflexivity. Qed.

Example splitext_no_extension : splitext "README" = ("README", "").
Proof. reflexivity. Qed.

Example join_plain : join "/tmp" "a_comp_temp.pdf" = "/tmp/a_comp_temp.pdf".
Proof. reflexivity. Qed.

Example join_trailing_sep : join "/tmp/" "a_comp_temp.pdf" = "/tmp/a_comp_temp.pdf".
Proof. reflexivity. Qed.

Example split_in_action :
  str_contains "Split" "Compress + Split" = true
  ∧ str_contains "Split" "Split Only" = true
  ∧ str_contains "Split" "Compress Only" = false.
Proof. by repeat split. Qed.

(** ** Facts about slices and [rfind] *)

Lemma take_drop_id n s : str_take n s +:+ str_drop n s = s.
Proof.
  revert s; induction n as [|n IH]; intros [|a r]; simpl; try reflexivity.
  unfold String.app; simpl. f_equal. apply IH.
Qed.

Lemma rfind_lower c s : -1 <= rfind c s.
Proof.
  induction s as [|a r IH]; simpl; [lia|].
  destruct (Z.leb_spec 0 (rfind c r)); [lia|].
  destruct (Ascii.eqb a c); lia.
Qed.

Lemma rfind_absent c s : has_char c s = false ↔ rfind c s = -1.
Proof.
  induction s as [|a r IH]; simpl; [tauto|].
  pose proof (rfind_lower c r).
  destruct (Z.leb_spec 0 (rfind c r)) as [Hle|Hlt].
  - split; [|lia]. intros [_ Hr]%orb_false_iff. apply IH in Hr. lia.
  - assert (rfind c r = -1) as Hr by lia. apply IH in Hr. rewrite Hr.
    destruct (Ascii.eqb a c); simpl; split; intros; try lia; try discriminate;
      reflexivity.
Qed.

(** The character at index [rfind c s] is [c]. *)
Lemma drop_rfind c s :
  0 <= rfind c s → ∃ r, str_drop (Z.to_nat (rfind c s)) s = String c r
                        ∧ has_char c r = false.
Proof.
  induction s as [|a r IH]; simpl rfind; [lia|].
  pose proof (rfind_lower c r).
  destruct (Z.leb_spec 0 (rfind c r)) as [Hle|Hlt].
  - intros _. destruct (IH Hle) as (t & Ht & Hf). exists t. split; [|done].
    replace (Z.to_nat (rfind c r + 1)) with (S (Z.to_nat (rfind c r))) by lia.
    exact Ht.
  - destruct (Ascii.eqb_spec a c) as [->|]; [|lia].
    intros _. exists r. split; [reflexivity|].
    apply rfind_absent. lia.
Qed.

Lemma has_char_app c s t : has_char c (s +:+ t) = has_char c s || has_char c t.
Proof.
  induction s as [|a r IH]; [reflexivity|].
  unfold String.app in *; simpl. rewrite IH. apply orb_assoc.
Qed.

Lemma has_char_take c n s : has_char c s = false → has_char c (str_take n s) = false.
Proof.
  revert s; induction n as [|n IH]; intros [|a r]; simpl; try done.
  intros [Ha Hr]%orb_false_iff. rewrite Ha. by apply IH.
Qed.

(** ** [basename] *)

Lemma basename_cons a r :
  basename (String a r) =
    if has_char sep r then basename r
    else if Ascii.eqb a sep then r else String a r.
Proof.
  unfold basename. simpl rfind.
  pose proof (rfind_lower sep r).
  destruct (has_char sep r) eqn:Hr.
  - destruct (Z.leb_spec 0 (rfind sep r)) as [Hle|Hlt].
    + replace (Z.to_nat (rfind sep r + 1 + 1))
        with (S (Z.to_nat (rfind sep r + 1))) by lia.
      reflexivity.
    + assert (rfind sep r = -1) as Habs by lia.
      apply rfind_absent in Habs. congruence.
  - apply rfind_absent in Hr. rewrite Hr. simpl.
    destruct (Ascii.eqb a sep); reflexivity.
Qed.

Lemma basename_no_sep p : has_char sep (basename p) = false.
Proof.
  induction p as [|a r IH]; [reflexivity|].
  rewrite basename_cons. destruct (has_char sep r) eqn:Hr; [exact IH|].
  destruct (Ascii.eqb a sep) eqn:Ha; [exact Hr|].
  simpl. by rewrite Ha, Hr.
Qed.

Lemma basename_after_sep a b :
  has_char sep b = false → basename (a +:+ String sep b) = b.
Proof.
  intros Hb. induction a as [|c r IH].
  - change (basename (String sep b) = b). rewrite basename_cons, Hb.
    reflexivity.
  - change (basename (String c (r +:+ String sep b)) = b).
    rewrite basename_cons, has_char_app. simpl has_char.
    replace (Ascii.eqb sep sep) with true by (symmetry; apply Ascii.eqb_refl).
    rewrite orb_true_r. exact IH.
Qed.

Lemma basename_id b : has_char sep b = false → basename b = b.
Proof.
  intros Hb. unfold basename. apply rfind_absent in Hb. by rewrite Hb.
Qed.

Lemma endswith_sep_inv a :
  endswith_sep a = true → ∃ a', a = a' +:+ String sep EmptyString.
Proof.
  induction a as [|c r IH]; [done|]. simpl.
  destruct r as [|d r'].
  - intros ->%Ascii.eqb_eq. by exists EmptyString.
  - intros H. destruct (IH H) as [a' Ha']. exists (String c a').
    unfold String.app in *; simpl. by rewrite <- Ha'.
Qed.

Lemma app_assoc_str (a b c : string) : (a +:+ b) +:+ c = a +:+ (b +:+ c).
Proof.
  induction a as [|x r IH]; [reflexivity|].
  unfold String.app in *; simpl. by rewrite IH.
Qed.

(** The last component of [join a b] is [b] when [b] holds no separator. *)
Lemma basename_join a b : has_char sep b = false → basename (join a b) = b.
Proof.
  intros Hb. unfold join.
  destruct (startswith_sep b) eqn:Hs.
  { destruct b as [|c r]; [done|]. simpl in Hs, Hb. by rewrite Hs in Hb. }
  destruct (String.eqb_spec a "") as [->|Hne]; simpl.
  { by apply basename_id. }
  destruct (endswith_sep a) eqn:He.
  - apply endswith_sep_inv in He as [a' ->].
    rewrite app_assoc_str. by apply basename_after_sep.
  - by apply basename_after_sep.
Qed.

(** ** [splitext] *)

Lemma splitext_app p : (splitext p).1 +:+ (splitext p).2 = p.
Proof.
  unfold splitext. case_match; simpl.
  - apply take_drop_id.
  - clear. induction p as [|a r IH]; [done|].
    unfold String.app in *; simpl. by rewrite IH.
Qed.

Lemma splitext_ext p :
  (splitext p).2 = EmptyString ∨ ∃ e, (splitext p).2 = String extsep e.
Proof.
  unfold splitext. case_match eqn:Hc; simpl; [|by left].
  right. apply andb_true_iff in Hc as [Hlt _].
  apply Z.ltb_lt in Hlt. pose proof (rfind_lower sep p).
  destruct (drop_rfind extsep p) as (r & Hr & _); [lia|]. eauto.
Qed.

Lemma splitext_root_no_sep p :
  has_char sep p = false → has_char sep (splitext p).1 = false.
Proof.
  intros Hp. unfold splitext. case_match; simpl; [|done].
  by apply has_char_take.
Qed.

(** ** Names derived from an input path never collide with it *)

Lemma stem_no_sep p : has_char sep (stem p) = false.
Proof. apply splitext_root_no_sep, basename_no_sep. Qed.

Lemma basename_derived dir p suffix :
  has_char sep suffix = false →
  basename (join dir (stem p +:+ suffix)) = stem p +:+ suffix.
Proof.
  intros Hs. apply basename_join. by rewrite has_char_app, stem_no_sep, Hs.
Qed.

(** A file derived from [p] by replacing the extension with a suffix that
    does not start with a dot is never [p] itself. *)
Lemma derived_ne_source dir p c suffix :
  c ≠ extsep → has_char sep (String c suffix) = false →
  join dir (stem p +:+ String c suffix) ≠ p.
Proof.
  intros Hc Hs Heq.
  assert (basename p = stem p +:+ String c suffix) as Hb.
  { rewrite <- Heq at 1. by apply basename_derived. }
  pose proof (splitext_app (basename p)) as Happ. fold (stem p) in Happ.
  pose proof (splitext_ext (basename p)) as Hext.
  set (ext := (splitext (basename p)).2) in *.
  rewrite Hb in Happ. apply (inj (String.app (stem p))) in Happ.
  destruct Hext as [He|[e He]]; rewrite He in Happ; [discriminate|].
  injection Happ as Hce _. congruence.
Qed.

Lemma derived_ne_derived dir1 dir2 p s1 s2 :
  has_char sep s1 = false → has_char sep s2 = false → s1 ≠ s2 →
  join dir1 (stem p +:+ s1) ≠ join dir2 (stem p +:+ s2).
Proof.
  intros H1 H2 Hne Heq. apply (f_equal basename) in Heq.
  rewrite !basename_derived in Heq by done.
  by apply (inj (String.app (stem p))) in Heq.
Qed.

End OsPathFacts.

(** The default limit of 1.9 MB is a budget of 1992294 bytes, and a page
    whose pixels are 100, 92, 93 and 115 has threshold 92: the pixel at the
    threshold goes black. *)
Example target_bytes_default : py_int (1.9 * 1024 * 1024)%float = inr 1992294.
Proof. vm_compute. reflexivity. Qed.

Example binarize_at_threshold :
  uint8 <$> binarize [Byte.x64; Byte.x5c; Byte.x5d; Byte.x73] = [255; 0; 255; 255].
Proof. vm_compute. reflexivity. Qed.

(* ------------------------------------------------------------------ *)
(** * Reasoning about computations *)
(* ------------------------------------------------------------------ *)

Lemma bind_ok {A B} (m : M A) (k : A → M B) w b w' :
  bind m k w = (Ok b, w') ↔ ∃ a w1, m w = (Ok a, w1) ∧ k a w1 = (Ok b, w').
Proof.
  unfold bind. split.
  - destruct (m w) as [[a| |] w1]; [eauto|done..].
  - intros (a & w1 & -> & Hk). exact Hk.
Qed.

Lemma bind_fuel {A B} (m : M A) (k : A → M B) w w' :
  bind m k w = (OutOfFuel, w') →
  m w = (OutOfFuel, w') ∨ ∃ a w1, m w = (Ok a, w1) ∧ k a w1 = (OutOfFuel, w').
Proof.
  unfold bind. destruct (m w) as [[a| |] w1]; [eauto|done|].
  intros [= <-]. by left.
Qed.

Lemma bind_eq {A B} (m : M A) (k : A → M B) w a w1 :
  m w = (Ok a, w1) → bind m k w = k a w1.
Proof. unfold bind. by intros ->. Qed.

Lemma keeps_files_refl w : keeps_files w w.
Proof. by intros path. Qed.

Lemma keeps_files_trans w1 w2 w3 :
  keeps_files w1 w2 → keeps_files w2 w3 → keeps_files w1 w3.
Proof. intros H12 H23 path ?. by apply H23, H12. Qed.

Lemma keeps_files_insert w path b : keeps_files w (with_fs (insert path b) w).
Proof.
  intros q Hq. simpl. destruct (decide (path = q)) as [->|].
  - rewrite lookup_insert_eq. eauto.
  - by rewrite lookup_insert_ne.
Qed.

(* ------------------------------------------------------------------ *)
(** * The splitter *)
(* ------------------------------------------------------------------ *)

Lemma tagged_length doc : length (tagged doc) = length doc.
Proof. unfold tagged. rewrite length_zip, length_seq. lia. Qed.

Lemma tagged_lookup doc p pg : doc !! p = Some pg → tagged doc !! p = Some (p, pg).
Proof.
  intros Hp. unfold tagged. apply lookup_zip_with_Some.
  exists p, pg. split_and!; [done| |done].
  apply lookup_seq. split; [done|]. by apply lookup_lt_Some in Hp.
Qed.

Lemma tagged_fst doc : (tagged doc).*1 = seq 0 (length doc).
Proof. unfold tagged. apply fst_zip. by rewrite length_seq. Qed.

Lemma tagged_snd doc : (tagged doc).*2 = doc.
Proof. unfold tagged. apply snd_zip. by rewrite length_seq. Qed.

Lemma segment_nil doc a : segment doc a a = [].
Proof. unfold segment. by rewrite Nat.sub_diag. Qed.

Lemma segment_snoc doc a p pg :
  (a ≤ p)%nat → doc !! p = Some pg →
  segment doc a p ++ [(p, pg)] = segment doc a (p + 1).
Proof.
  intros Hap Hp. unfold segment.
  replace (p + 1 - a)%nat with (S (p - a)) by lia.
  symmetry. apply take_S_r. rewrite lookup_drop.
  replace (a + (p - a))%nat with p by lia. by apply tagged_lookup.
Qed.

Lemma segment_app doc a b c :
  (a ≤ b)%nat → (b ≤ c)%nat →
  segment doc a b ++ segment doc b c = segment doc a c.
Proof.
  intros Hab Hbc. unfold segment.
  replace (drop b (tagged doc)) with (drop (b - a) (drop a (tagged doc))).
  - rewrite take_take_drop. f_equal. lia.
  - rewrite drop_drop. f_equal. lia.
Qed.

Lemma segment_full doc : segment doc 0 (length doc) = tagged doc.
Proof.
  unfold segment. rewrite drop_0, Nat.sub_0_r.
  apply take_ge. by rewrite tagged_length.
Qed.

Lemma segment_length doc a b :
  (a ≤ b)%nat → (b ≤ length doc)%nat → length (segment doc a b) = (b - a)%nat.
Proof.
  intros Hab Hb. unfold segment.
  rewrite length_take, length_drop, tagged_length. lia.
Qed.

Section SplitFacts.

Context (E : Env).
Variables (doc : list Page) (output_folder base_name : string)
          (max_size_bytes : Z).

Local Abbreviation inner := (inner_loop E doc base_name max_size_bytes).
Local Abbreviation build := (build_part E doc output_folder base_name max_size_bytes).
Local Abbreviation outer := (outer_loop E doc output_folder base_name max_size_bytes).
Local Abbreviation trial := (trial_path E base_name).
Local Abbreviation passes_trial := (passes_trial E max_size_bytes).

Lemma doc_save_ok pages path w w' :
  doc_save E pages path w = (Ok tt, w') →
  ∃ b, pdf_write E pages = Some b ∧ w' = with_fs (insert path b) w.
Proof.
  unfold doc_save. destruct (writable E path); [|done].
  destruct (pdf_write E pages) as [b|]; [|done]. intros [= <-]. eauto.
Qed.

Lemma doc_save_keeps pages path w r w' :
  doc_save E pages path w = (r, w') → keeps_files w w'.
Proof.
  unfold doc_save. destruct (writable E path).
  - destruct (pdf_write E pages); intros [= <- <-];
      [apply keeps_files_insert|apply keeps_files_refl].
  - intros [= <- <-]. apply keeps_files_refl.
Qed.

Lemma doc_save_not_fuel pages path w w' :
  doc_save E pages path w ≠ (OutOfFuel, w').
Proof.
  unfold doc_save. destruct (writable E path); [|done].
  by destruct (pdf_write E pages).
Qed.

Lemma trial_save_ok pages path w w' :
  trial_save E pages path w = (Ok tt, w') →
  ∃ b, trial_write E pages = Some b ∧ w' = with_fs (insert path b) w.
Proof.
  unfold trial_save. destruct (writable E path); [|done].
  destruct (trial_write E pages) as [b|]; [|done]. intros [= <-]. eauto.
Qed.

Lemma trial_save_keeps pages path w r w' :
  trial_save E pages path w = (r, w') → keeps_files w w'.
Proof.
  unfold trial_save. destruct (writable E path).
  - destruct (trial_write E pages); intros [= <- <-];
      [apply keeps_files_insert|apply keeps_files_refl].
  - intros [= <- <-]. apply keeps_files_refl.
Qed.

Lemma trial_save_not_fuel pages path w w' :
  trial_save E pages path w ≠ (OutOfFuel, w').
Proof.
  unfold trial_save. destruct (writable E path); [|done].
  by destruct (trial_write E pages).
Qed.

Lemma file_size_written path b w :
  file_size (with_fs (insert path b) w) path = Z.of_nat (length b).
Proof. unfold file_size. simpl. by rewrite lookup_insert_eq. Qed.

(** One unfolding of the inner loop past its guard. *)
Lemma inner_step fuel part_doc p pg :
  doc !! p = Some pg →
  inner (S fuel) part_doc p =
    if (length part_doc =? 0)%nat then inner fuel (part_doc ++ [(p, pg)]) (p + 1)%nat
    else
      (trial_save E ((part_doc ++ [(p, pg)]).*2) trial ;;
       trial_size <- get_file_size trial ;;
       if trial_size >? max_size_bytes then ret (part_doc, p)
       else inner fuel (part_doc ++ [(p, pg)]) (p + 1)%nat)%py.
Proof.
  intros Hp. simpl. pose proof (lookup_lt_Some _ _ _ Hp) as Hlt.
  destruct (Nat.ltb_spec p (length doc)); [|lia].
  unfold copy_page. rewrite Hp. reflexivity.
Qed.

Lemma inner_done fuel part_doc p :
  (length doc ≤ p)%nat → inner fuel part_doc p = ret (part_doc, p).
Proof.
  intros Hp. destruct fuel; simpl;
    destruct (Nat.ltb_spec p (length doc)); (lia || reflexivity).
Qed.

(** The inner loop extends the part by the pages that follow, in order;
    a part it extends beyond one page has passed the size check. *)
Lemma inner_loop_spec start fuel : ∀ part_doc p w part' p' w',
  inner fuel part_doc p w = (Ok (part', p'), w') →
  (start ≤ p)%nat → (p ≤ length doc)%nat →
  part_doc = segment doc start p →
  ((length part_doc ≤ 1)%nat ∨ passes_trial part_doc) →
  (p ≤ p')%nat ∧ (p' ≤ length doc)%nat
  ∧ part' = segment doc start p'
  ∧ ((length part' ≤ 1)%nat ∨ passes_trial part')
  ∧ (part_doc = [] → (p < length doc)%nat → (p < p')%nat).
Proof.
  induction fuel as [|fuel IH]; intros part_doc p w part' p' w' Hrun Hsp Hp Hseg Hbud.
  - simpl in Hrun. destruct (Nat.ltb_spec p (length doc)) as [Hlt|Hge]; [done|].
    injection Hrun as <- <- <-. split_and!; try done; lia.
  - destruct (Nat.ltb_spec p (length doc)) as [Hlt|Hge].
    2:{ rewrite inner_done in Hrun by done. injection Hrun as <- <- <-.
        split_and!; try done; lia. }
    destruct (lookup_lt_is_Some_2 doc p Hlt) as [pg Hpg].
    rewrite (inner_step _ _ _ _ Hpg) in Hrun.
    assert (part_doc ++ [(p, pg)] = segment doc start (p + 1)) as Hseg'.
    { rewrite Hseg. by apply segment_snoc. }
    destruct (Nat.eqb_spec (length part_doc) 0) as [Hemp|Hne].
    + apply (IH _ _ _ _ _ _ Hrun) in Hseg' as (? & ? & ? & ? & _); [|lia|lia|].
      * split_and!; try done; lia.
      * left. rewrite length_app. simpl. lia.
    + apply bind_ok in Hrun as ([] & w1 & Hsave & Hrun).
      apply trial_save_ok in Hsave as (b & Hb & ->).
      apply bind_ok in Hrun as (sz & w2 & [= <- <-] & Hrun).
      rewrite file_size_written in Hrun.
      destruct (Z.gtb_spec (Z.of_nat (length b)) max_size_bytes) as [Hgt|Hle].
      * injection Hrun as <- <- <-. split_and!; try done.
        intros ->. done.
      * apply (IH _ _ _ _ _ _ Hrun) in Hseg' as (? & ? & ? & ? & _); [|lia|lia|].
        -- split_and!; try done; [lia|]. intros ->. done.
        -- right. exists b. split; [done|lia].
Qed.

Lemma inner_loop_fuel fuel : ∀ part_doc p w w',
  (length doc - p ≤ fuel)%nat → inner fuel part_doc p w ≠ (OutOfFuel, w').
Proof.
  induction fuel as [|fuel IH]; intros part_doc p w w' Hfuel Hrun.
  - rewrite inner_done in Hrun by lia. done.
  - destruct (Nat.ltb_spec p (length doc)) as [Hlt|Hge].
    2:{ by rewrite inner_done in Hrun. }
    destruct (lookup_lt_is_Some_2 doc p Hlt) as [pg Hpg].
    rewrite (inner_step _ _ _ _ Hpg) in Hrun.
    destruct (length part_doc =? 0)%nat.
    + revert Hrun. apply IH. lia.
    + apply bind_fuel in Hrun as [Hrun|([] & w1 & _ & Hrun)].
      { by apply trial_save_not_fuel in Hrun. }
      apply bind_fuel in Hrun as [Hrun|(sz & w2 & _ & Hrun)]; [done|].
      destruct (sz >? max_size_bytes); [done|].
      revert Hrun. apply IH. lia.
Qed.

(** What one pass of the outer loop builds. *)
Lemma build_part_spec fuel_in start idx w part p w' :
  build fuel_in start idx w = (Ok (part, p), w') →
  (start < length doc)%nat →
  (start < p)%nat ∧ (p ≤ length doc)%nat
  ∧ part_pages part = segment doc start p
  ∧ part_index part = idx
  ∧ part_path part = out_path output_folder base_name idx
  ∧ is_Some (pdf_write E ((part_pages part).*2))
  ∧ ((length (part_pages part) ≤ 1)%nat ∨ passes_trial (part_pages part)).
Proof.
  unfold build_part. intros Hrun Hstart.
  apply bind_ok in Hrun as ([part_doc p1] & w1 & Hin & Hrun).
  apply bind_ok in Hrun as ([] & w2 & Hsave & [= <- <- <-]).
  apply doc_save_ok in Hsave as (b & Hb & _).
  eapply (inner_loop_spec start) in Hin as (? & ? & ? & ? & Hprog);
    [|lia|lia|by rewrite segment_nil|left; simpl; lia].
  simpl. split_and!; first [done | by apply Hprog | by rewrite Hb].
Qed.

Lemma build_part_fuel fuel_in start idx w w' :
  (length doc - start ≤ fuel_in)%nat →
  build fuel_in start idx w ≠ (OutOfFuel, w').
Proof.
  unfold build_part. intros Hfuel Hrun.
  apply bind_fuel in Hrun as [Hrun|([part_doc p1] & w1 & _ & Hrun)].
  { by apply inner_loop_fuel in Hrun. }
  apply bind_fuel in Hrun as [Hrun|([] & w2 & _ & Hrun)]; [|done].
  by apply doc_save_not_fuel in Hrun.
Qed.

Lemma outer_step fuel fuel_in start idx outputs w :
  (start < length doc)%nat →
  outer (S fuel) fuel_in start idx outputs w =
    (r <- build fuel_in start idx ;;
     outer fuel fuel_in r.2 (idx + 1)%nat (outputs ++ [r.1]))%py w.
Proof.
  intros Hlt. simpl. destruct (Nat.ltb_spec start (length doc)); [|lia].
  unfold bind.
  by destruct (build fuel_in start idx w) as [[[part p]| |] w1].
Qed.

Lemma outer_done fuel fuel_in start idx outputs :
  (length doc ≤ start)%nat → outer fuel fuel_in start idx outputs = ret outputs.
Proof.
  intros Hge. destruct fuel; simpl;
    destruct (Nat.ltb_spec start (length doc)); (lia || reflexivity).
Qed.

(** The parts the outer loop adds cover the pages from [start] on, each
    part a run of consecutive pages, numbered from [idx]. *)
Lemma outer_loop_spec fuel_in fuel : ∀ start idx outputs w parts w',
  outer fuel fuel_in start idx outputs w = (Ok parts, w') →
  (start ≤ length doc)%nat →
  ∃ new, parts = outputs ++ new
    ∧ concat (part_pages <$> new) = segment doc start (length doc)
    ∧ part_index <$> new = seq idx (length new)
    ∧ (length new ≤ length doc - start)%nat
    ∧ Forall (λ part, part_pages part ≠ []
                      ∧ part_path part = out_path output_folder base_name (part_index part)
                      ∧ is_Some (pdf_write E ((part_pages part).*2))
                      ∧ ((length (part_pages part) ≤ 1)%nat
                         ∨ passes_trial (part_pages part))) new.
Proof.
  induction fuel as [|fuel IH]; intros start idx outputs w parts w' Hrun Hstart.
  - simpl in Hrun. destruct (Nat.ltb_spec start (length doc)) as [Hlt|Hge]; [done|].
    injection Hrun as <- <-. exists []. rewrite app_nil_r.
    replace start with (length doc) by lia. rewrite segment_nil.
    split_and!; try done. simpl; lia.
  - destruct (Nat.ltb_spec start (length doc)) as [Hlt|Hge].
    2:{ rewrite outer_done in Hrun by done. injection Hrun as <- <-.
        exists []. rewrite app_nil_r.
        replace start with (length doc) by lia. rewrite segment_nil.
        split_and!; try done. simpl; lia. }
    rewrite outer_step in Hrun by done.
    apply bind_ok in Hrun as ([part p] & w1 & Hbuild & Hrun). simpl in Hrun.
    apply build_part_spec in Hbuild as (Hp & Hp' & Hpages & Hidx & Hpath & Hsaved & Hbud);
      [|done].
    apply IH in Hrun as (new & -> & Hcat & Hnum & Hlen & Hall); [|done].
    exists (part :: new). rewrite <- app_assoc. split_and!; try done.
    + rewrite fmap_cons. change (concat (?x :: ?l)) with (x ++ concat l).
      rewrite Hcat, Hpages. apply segment_app; lia.
    + rewrite fmap_cons, Hidx, Hnum. simpl. do 2 f_equal. lia.
    + simpl. lia.
    + constructor; [|done]. split_and!; try done; [|congruence].
      rewrite Hpages. intros Hnil%(f_equal length).
      rewrite segment_length in Hnil by lia. simpl in Hnil. lia.
Qed.

Lemma outer_loop_fuel fuel_in fuel : ∀ start idx outputs w w',
  (length doc - start ≤ fuel)%nat → (length doc - start ≤ fuel_in)%nat →
  outer fuel fuel_in start idx outputs w ≠ (OutOfFuel, w').
Proof.
  induction fuel as [|fuel IH]; intros start idx outputs w w' Hfuel Hin Hrun.
  - rewrite outer_done in Hrun by lia. done.
  - destruct (Nat.ltb_spec start (length doc)) as [Hlt|Hge].
    2:{ by rewrite outer_done in Hrun. }
    rewrite outer_step in Hrun by done.
    apply bind_fuel in Hrun as [Hrun|([part p] & w1 & Hbuild & Hrun)].
    { by apply build_part_fuel in Hrun. }
    apply build_part_spec in Hbuild as (Hp & _); [|done].
    revert Hrun. apply IH; simpl; lia.
Qed.

(** With saves that cannot fail, the loops run to their end. *)
Lemma doc_save_reliable pages path w :
  reliable_io E → pages ≠ [] → ∃ w', doc_save E pages path w = (Ok tt, w').
Proof.
  intros (Hw & Hs & _) Hne. unfold doc_save. rewrite Hw.
  destruct (Hs pages Hne) as [b ->]. eauto.
Qed.

Lemma trial_save_reliable pages path w :
  reliable_io E → pages ≠ [] → ∃ w', trial_save E pages path w = (Ok tt, w').
Proof.
  intros (Hw & _ & Ht) Hne. unfold trial_save. rewrite Hw.
  destruct (Ht pages Hne) as [b ->]. eauto.
Qed.

Lemma inner_loop_total fuel : ∀ part_doc p w,
  reliable_io E → (length doc - p ≤ fuel)%nat →
  ∃ r w', inner fuel part_doc p w = (Ok r, w').
Proof.
  induction fuel as [|fuel IH]; intros part_doc p w Hio Hfuel.
  - rewrite inner_done by lia. by eexists _, _.
  - destruct (Nat.ltb_spec p (length doc)) as [Hlt|Hge].
    2:{ rewrite inner_done by lia. by eexists _, _. }
    destruct (lookup_lt_is_Some_2 doc p Hlt) as [pg Hpg].
    rewrite (inner_step _ _ _ _ Hpg).
    destruct (length part_doc =? 0)%nat; [apply IH; [done|lia]|].
    destruct (trial_save_reliable ((part_doc ++ [(p, pg)]).*2) trial w Hio)
      as [w1 Hsave].
    { rewrite fmap_app. by destruct (part_doc.*2). }
    rewrite (bind_eq _ _ _ _ _ Hsave). unfold bind, get_file_size.
    destruct (file_size w1 trial >? max_size_bytes); [by eexists _, _|].
    apply IH; [done|lia].
Qed.

Lemma outer_loop_total fuel_in fuel : ∀ start idx outputs w,
  reliable_io E →
  (length doc - start ≤ fuel)%nat → (length doc - start ≤ fuel_in)%nat →
  ∃ parts w', outer fuel fuel_in start idx outputs w = (Ok parts, w').
Proof.
  induction fuel as [|fuel IH]; intros start idx outputs w Hio Hfuel Hin.
  - rewrite outer_done by lia. by eexists _, _.
  - destruct (Nat.ltb_spec start (length doc)) as [Hlt|Hge].
    2:{ rewrite outer_done by lia. by eexists _, _. }
    rewrite outer_step by done.
    destruct (inner_loop_total fuel_in [] start w Hio Hin) as ([part_doc p] & w1 & Hinner).
    pose proof Hinner as Hspec.
    eapply (inner_loop_spec start) in Hspec as (_ & Hp' & Hseg & _ & Hprog);
      [|lia|lia|by rewrite segment_nil|left; simpl; lia].
    specialize (Hprog eq_refl Hlt).
    destruct (doc_save_reliable (part_doc.*2)
                (out_path output_folder base_name idx) w1 Hio) as [w2 Hsave].
    { rewrite Hseg. intros Hnil%(f_equal length).
      rewrite length_fmap, segment_length in Hnil by lia. simpl in Hnil. lia. }
    assert (build fuel_in start idx w
            = (Ok (mkPart idx part_doc (out_path output_folder base_name idx), p), w2))
      as Hbuild.
    { unfold build_part. rewrite (bind_eq _ _ _ _ _ Hinner).
      by rewrite (bind_eq _ _ _ _ _ Hsave). }
    rewrite (bind_eq _ _ _ _ _ Hbuild). simpl. apply IH; [done|lia|lia].
Qed.

End SplitFacts.

Lemma fmap_concat_list {A B} (f : A → B) (ls : list (list A)) :
  f <$> concat ls = concat ((λ l : list A, f <$> l) <$> ls).
Proof.
  induction ls as [|l ls IH]; [done|].
  rewrite fmap_cons. simpl concat. by rewrite fmap_app, IH.
Qed.

Lemma segment_head doc a b :
  (a < b)%nat → head (segment doc a b) = pair a <$> doc !! a.
Proof.
  intros Hab. unfold segment.
  rewrite head_lookup, lookup_take_lt, lookup_drop, Nat.add_0_r by lia.
  destruct (doc !! a) as [pg|] eqn:Ha; simpl.
  - by apply tagged_lookup.
  - apply lookup_ge_None. rewrite tagged_length. by apply lookup_ge_None.
Qed.

Lemma split_parts_open E pdf_path output_folder base_name max_size_bytes w b doc :
  fs w !! pdf_path = Some b → pdf_parse E b = Some doc →
  split_parts E pdf_path output_folder base_name max_size_bytes w
  = outer_loop E doc output_folder base_name max_size_bytes
               (length doc) (length doc) 0 1 [] w.
Proof.
  intros Hb Hdoc. unfold split_parts, bind, fitz_open. by rewrite Hb, Hdoc.
Qed.

(* ------------------------------------------------------------------ *)
(** * The properties of the splitter *)
(* ------------------------------------------------------------------ *)

(** C1 (partition): for a source file that opens as a document of N pages
    and any byte budget, the parts [split_pdf] builds, taken in the order
    they are emitted, hold the source pages 0..N-1 in source order, each
    exactly once: the page indices of the parts concatenate to
    [0; 1; ...; N-1] and their pages to the document.  Parts are numbered
    from 1, none is empty, and [split_pdf] returns their paths in that
    order.  When no save can fail the splitter does return such a list
    of parts. *)
Theorem split_partition (E : Env) (pdf_path output_folder base_name : string)
    (max_size_bytes : Z) (w : World) (b : bytes) (doc : list Page) :
  fs w !! pdf_path = Some b → pdf_parse E b = Some doc →
  (∀ parts w',
     split_parts E pdf_path output_folder base_name max_size_bytes w = (Ok parts, w') →
     concat ((λ part, (part_pages part).*1) <$> parts) = seq 0 (length doc)
     ∧ concat ((λ part, (part_pages part).*2) <$> parts) = doc
     ∧ part_index <$> parts = seq 1 (length parts)
     ∧ Forall (λ part, part_pages part ≠ []
                       ∧ part_path part
                         = out_path output_folder base_name (part_index part)) parts
     ∧ split_pdf E pdf_path output_folder base_name max_size_bytes w
       = (Ok (part_path <$> parts), w'))
  ∧ (reliable_io E →
     ∃ parts w',
       split_parts E pdf_path output_folder base_name max_size_bytes w = (Ok parts, w')).
Proof.
  intros Hb Hdoc. split.
  - intros parts w' Hrun.
    assert (split_pdf E pdf_path output_folder base_name max_size_bytes w
            = (Ok (part_path <$> parts), w')) as Hpaths.
    { unfold split_pdf. by rewrite (bind_eq _ _ _ _ _ Hrun). }
    rewrite (split_parts_open _ _ _ _ _ _ _ _ Hb Hdoc) in Hrun.
    apply outer_loop_spec in Hrun as (new & -> & Hcat & Hnum & _ & Hall); [|lia].
    rewrite app_nil_l, segment_full in *.
    split_and!; [| |done| |done].
    + rewrite <- (tagged_fst doc), <- Hcat, fmap_concat_list.
      by rewrite <- list_fmap_compose.
    + transitivity ((tagged doc).*2); [|apply tagged_snd].
      rewrite <- Hcat, fmap_concat_list.
      by rewrite <- list_fmap_compose.
    + eapply Forall_impl; [exact Hall|]. by intros part (? & ? & _).
  - intros Hio. rewrite (split_parts_open _ _ _ _ _ _ _ _ Hb Hdoc).
    apply outer_loop_total; [done|lia|lia].
Qed.


(** C3 (progress): a pass of the outer loop that starts at a page of the
    document ends with the cursor at least one page further, the page at
    the cursor being the first page of the part whatever its size.  So a
    document of N pages is split in at most N passes: neither loop runs out
    of N passes, and no more than N parts come out. *)
Theorem split_progress (E : Env) (doc : list Page)
    (output_folder base_name : string) (max_size_bytes : Z) :
  (∀ fuel_in start idx w part p w',
     (start < length doc)%nat →
     build_part E doc output_folder base_name max_size_bytes fuel_in start idx w
       = (Ok (part, p), w') →
     (start < p ≤ length doc)%nat
     ∧ head (part_pages part) = pair start <$> doc !! start)
  ∧ (∀ fuel fuel_in start idx outputs w w',
       (length doc - start ≤ fuel)%nat → (length doc - start ≤ fuel_in)%nat →
       outer_loop E doc output_folder base_name max_size_bytes
                  fuel fuel_in start idx outputs w ≠ (OutOfFuel, w'))
  ∧ (∀ fuel fuel_in w parts w',
       outer_loop E doc output_folder base_name max_size_bytes
                  fuel fuel_in 0 1 [] w = (Ok parts, w') →
       (length parts ≤ length doc)%nat)
  ∧ (∀ pdf_path w w',
       split_parts E pdf_path output_folder base_name max_size_bytes w
       ≠ (OutOfFuel, w')).
Proof.
  split_and!.
  - intros fuel_in start idx w part p w' Hstart Hrun.
    apply build_part_spec in Hrun as (Hp & Hp' & Hpages & _); [|done].
    split; [lia|]. rewrite Hpages. by apply segment_head.
  - intros. by apply outer_loop_fuel.
  - intros fuel fuel_in w parts w' Hrun.
    apply outer_loop_spec in Hrun as (new & -> & _ & _ & Hlen & _); [|lia].
    rewrite app_nil_l. lia.
  - intros pdf_path w w' Hrun. unfold split_parts in Hrun.
    apply bind_fuel in Hrun as [Hrun|(d & w1 & _ & Hrun)].
    + unfold fitz_open in Hrun. destruct (fs w !! pdf_path) as [b|]; [|done].
      by destruct (pdf_parse E b).
    + revert Hrun. apply outer_loop_fuel; lia.
Qed.

(** C10 (empty document): for a source document of zero pages [split_pdf]
    returns the empty list and leaves the world as it was: no part is
    written. *)
Theorem split_empty (E : Env) (pdf_path output_folder base_name : string)
    (max_size_bytes : Z) (w : World) (b : bytes) :
  fs w !! pdf_path = Some b → pdf_parse E b = Some [] →
  split_pdf E pdf_path output_folder base_name max_size_bytes w = (Ok [], w).
Proof.
  intros Hb Hdoc. unfold split_pdf, bind.
  by rewrite (split_parts_open _ _ _ _ _ _ _ _ Hb Hdoc).
Qed.

(* ------------------------------------------------------------------ *)
(** * Effects of the program on the world *)
(* ------------------------------------------------------------------ *)

Global Instance keeps_files_preorder : PreOrder keeps_files.
Proof. split; [exact keeps_files_refl|exact keeps_files_trans]. Qed.

Global Instance frame_preorder path : PreOrder (frame path).
Proof.
  split; [by intros w q|].
  intros w1 w2 w3 H12 H23 q Hq. by rewrite H23, H12.
Qed.

Global Instance no_binarize_preorder : PreOrder no_binarize.
Proof.
  split.
  - intros w. exists []. by rewrite app_nil_r.
  - intros w1 w2 w3 (n1 & H1 & F1) (n2 & H2 & F2). exists (n1 ++ n2).
    rewrite H2, H1, app_assoc. split; [done|]. by apply Forall_app.
Qed.

Section Preserves.

Context (R : World → World → Prop) `{!PreOrder R}.

Lemma preserves_ret {A} (a : A) : preserves R (ret a).
Proof. by intros w r w' [= <- <-]. Qed.

Lemma preserves_raise {A} e : preserves R (@raise A e).
Proof. by intros w r w' [= <- <-]. Qed.

Lemma preserves_out_of_fuel {A} : preserves R (@out_of_fuel A).
Proof. by intros w r w' [= <- <-]. Qed.

Lemma preserves_bind {A B} (m : M A) (k : A → M B) :
  preserves R m → (∀ a, preserves R (k a)) → preserves R (bind m k).
Proof.
  intros Hm Hk w r w'. unfold bind.
  destruct (m w) as [[a| |] w1] eqn:Hrun; apply Hm in Hrun.
  - intros Hrun'. apply Hk in Hrun'. by etrans.
  - by intros [= <- <-].
  - by intros [= <- <-].
Qed.

Lemma preserves_try {A} (m : M A) (h : exn → M A) :
  preserves R m → (∀ e, preserves R (h e)) → preserves R (try_except m h).
Proof.
  intros Hm Hh w r w'. unfold try_except.
  destruct (m w) as [[a| |] w1] eqn:Hrun; apply Hm in Hrun.
  - by intros [= <- <-].
  - intros Hrun'. apply Hh in Hrun'. by etrans.
  - by intros [= <- <-].
Qed.

Lemma preserves_of_option {A} e (o : option A) : preserves R (of_option e o).
Proof. destruct o; [apply preserves_ret|apply preserves_raise]. Qed.

Lemma preserves_path_exists path : preserves R (path_exists path).
Proof. by intros w r w' [= <- <-]. Qed.

Lemma preserves_get_file_size path : preserves R (get_file_size path).
Proof. by intros w r w' [= <- <-]. Qed.

Lemma preserves_fitz_open E path : preserves R (fitz_open E path).
Proof.
  intros w r w'. unfold fitz_open. destruct (fs w !! path) as [b|].
  - by destruct (pdf_parse E b); intros [= <- <-].
  - by intros [= <- <-].
Qed.

Lemma preserves_copy_page doc p : preserves R (copy_page doc p).
Proof.
  unfold copy_page. destruct (doc !! p); [apply preserves_ret|apply preserves_raise].
Qed.

(** The loops of the splitter touch the world through [doc_save] and
    [trial_save] only. *)
Section Splitter.

Context (E : Env).
Hypothesis save_ok : ∀ pages path, preserves R (doc_save E pages path).
Hypothesis trial_ok : ∀ pages path, preserves R (trial_save E pages path).

Lemma preserves_inner_loop doc base_name max_size_bytes fuel :
  ∀ part_doc p, preserves R (inner_loop E doc base_name max_size_bytes fuel part_doc p).
Proof.
  induction fuel as [|fuel IH]; intros part_doc p; simpl;
    destruct (p <? length doc)%nat;
    try apply preserves_ret; try apply preserves_out_of_fuel.
  apply preserves_bind; [apply preserves_copy_page|]. intros temp.
  destruct (length part_doc =? 0)%nat; [apply IH|].
  apply preserves_bind; [apply trial_ok|]. intros _.
  apply preserves_bind; [apply preserves_get_file_size|]. intros sz.
  destruct (sz >? max_size_bytes); [apply preserves_ret|apply IH].
Qed.

Lemma preserves_build_part doc output_folder base_name max_size_bytes fuel start idx :
  preserves R (build_part E doc output_folder base_name max_size_bytes fuel start idx).
Proof.
  unfold build_part.
  apply preserves_bind; [apply preserves_inner_loop|]. intros [part_doc p].
  apply preserves_bind; [apply save_ok|]. intros _. apply preserves_ret.
Qed.

Lemma preserves_outer_loop doc output_folder base_name max_size_bytes fuel_in fuel :
  ∀ start idx outputs,
    preserves R (outer_loop E doc output_folder base_name max_size_bytes
                            fuel fuel_in start idx outputs).
Proof.
  induction fuel as [|fuel IH]; intros start idx outputs; simpl;
    destruct (start <? length doc)%nat;
    try apply preserves_ret; try apply preserves_out_of_fuel.
  apply preserves_bind; [apply preserves_build_part|]. intros [part p]. apply IH.
Qed.

Lemma preserves_split_parts pdf_path output_folder base_name max_size_bytes :
  preserves R (split_parts E pdf_path output_folder base_name max_size_bytes).
Proof.
  unfold split_parts.
  apply preserves_bind; [apply preserves_fitz_open|]. intros doc.
  apply preserves_outer_loop.
Qed.

Lemma preserves_split_pdf pdf_path output_folder base_name max_size_bytes :
  preserves R (split_pdf E pdf_path output_folder base_name max_size_bytes).
Proof.
  unfold split_pdf.
  apply preserves_bind; [apply preserves_split_parts|]. intros parts.
  apply preserves_ret.
Qed.

End Splitter.

End Preserves.

(** ** What each primitive does to the files and to the trace *)

Lemma doc_save_preserves_keeps E pages path :
  preserves keeps_files (doc_save E pages path).
Proof. intros w r w'. apply doc_save_keeps. Qed.

Lemma doc_save_frame E pages path : preserves (frame path) (doc_save E pages path).
Proof.
  intros w r w'. unfold doc_save. destruct (writable E path).
  - destruct (pdf_write E pages); intros [= <- <-]; [|done].
    intros q Hq. simpl. by rewrite lookup_insert_ne.
  - by intros [= <- <-].
Qed.

Lemma trial_save_preserves_keeps E pages path :
  preserves keeps_files (trial_save E pages path).
Proof. intros w r w'. apply trial_save_keeps. Qed.

Lemma trial_save_frame E pages path :
  preserves (frame path) (trial_save E pages path).
Proof.
  intros w r w'. unfold trial_save. destruct (writable E path).
  - destruct (trial_write E pages); intros [= <- <-]; [|done].
    intros q Hq. simpl. by rewrite lookup_insert_ne.
  - by intros [= <- <-].
Qed.

Lemma same_trace_no_binarize w w' : trace w' = trace w → no_binarize w w'.
Proof. intros Ht. exists []. by rewrite app_nil_r. Qed.

Lemma doc_save_no_binarize E pages path :
  preserves no_binarize (doc_save E pages path).
Proof.
  intros w r w'. unfold doc_save. destruct (writable E path).
  - destruct (pdf_write E pages); intros [= <- <-];
      by apply same_trace_no_binarize.
  - intros [= <- <-]. by apply same_trace_no_binarize.
Qed.

Lemma trial_save_no_binarize E pages path :
  preserves no_binarize (trial_save E pages path).
Proof.
  intros w r w'. unfold trial_save. destruct (writable E path).
  - destruct (trial_write E pages); intros [= <- <-];
      by apply same_trace_no_binarize.
  - intros [= <- <-]. by apply same_trace_no_binarize.
Qed.

Lemma update_status_frame path base msg : preserves (frame path) (update_status base msg).
Proof. by intros w r w' [= <- <-]. Qed.

Lemma update_status_keeps base msg : preserves keeps_files (update_status base msg).
Proof. intros w r w' [= <- <-] q Hq. exact Hq. Qed.

Lemma update_status_no_binarize base msg :
  preserves no_binarize (update_status base msg).
Proof.
  intros w r w' [= <- <-]. exists [Status base msg]. split; [done|].
  apply Forall_singleton. simpl. tauto.
Qed.

Lemma log_frame path e : preserves (frame path) (log e).
Proof. by intros w r w' [= <- <-]. Qed.

Lemma log_keeps e : preserves keeps_files (log e).
Proof. intros w r w' [= <- <-] q Hq. exact Hq. Qed.

Lemma log_no_binarize e : ¬ is_binarize e → preserves no_binarize (log e).
Proof.
  intros He w r w' [= <- <-]. exists [e]. split; [done|].
  by apply Forall_singleton.
Qed.

Lemma subprocess_call_frame E exe pdf_path output_path :
  preserves (frame output_path) (subprocess_call E exe pdf_path output_path).
Proof.
  intros w r w'. unfold subprocess_call.
  destruct (ghostscript E exe _) as [[code [b|]]|]; intros [= <- <-]; try done.
  intros q Hq. simpl. by rewrite lookup_insert_ne.
Qed.

Lemma subprocess_call_keeps E exe pdf_path output_path :
  preserves keeps_files (subprocess_call E exe pdf_path output_path).
Proof.
  intros w r w'. unfold subprocess_call.
  destruct (ghostscript E exe _) as [[code [b|]]|]; intros [= <- <-]; try done.
  apply keeps_files_insert.
Qed.

Lemma subprocess_call_no_binarize E exe pdf_path output_path :
  preserves no_binarize (subprocess_call E exe pdf_path output_path).
Proof.
  intros w r w'. unfold subprocess_call.
  destruct (ghostscript E exe _) as [[code [b|]]|]; intros [= <- <-];
    by apply same_trace_no_binarize.
Qed.

Lemma shutil_move_no_binarize E src dst : preserves no_binarize (shutil_move E src dst).
Proof.
  intros w r w'. unfold shutil_move. destruct (fs w !! src); [|].
  - destruct (writable E dst); intros [= <- <-]; by apply same_trace_no_binarize.
  - intros [= <- <-]. by apply same_trace_no_binarize.
Qed.

Lemma shutil_copy_no_binarize E src dst : preserves no_binarize (shutil_copy E src dst).
Proof.
  intros w r w'. unfold shutil_copy. destruct (fs w !! src); [|].
  - case_decide; [|destruct (writable E dst)]; intros [= <- <-];
      by apply same_trace_no_binarize.
  - intros [= <- <-]. by apply same_trace_no_binarize.
Qed.

Create HintDb effects discriminated.

Global Hint Resolve
  doc_save_preserves_keeps doc_save_frame doc_save_no_binarize
  update_status_frame update_status_keeps update_status_no_binarize
  log_frame log_keeps log_no_binarize
  subprocess_call_frame subprocess_call_keeps subprocess_call_no_binarize
  shutil_move_no_binarize shutil_copy_no_binarize : effects.

(** Structural steps on a goal [preserves R m]. *)
Ltac preserves_step :=
  first
    [ match goal with |- PreOrder _ => apply _ end
    | apply preserves_ret | apply preserves_raise | apply preserves_out_of_fuel
    | apply preserves_of_option | apply preserves_path_exists
    | apply preserves_get_file_size | apply preserves_fitz_open
    | apply preserves_bind | apply preserves_try
    | progress intros
    | solve [eauto with effects]
    | match goal with
      | |- preserves _ (if ?c then _ else _) => destruct c
      | |- preserves _ (match ?c with _ => _ end) => destruct c
      end ].

Ltac preserves_tac := repeat preserves_step.

(** ** Computations that always return *)

Lemma total_ret {A} (a : A) : total (ret a).
Proof. intros w. by eexists _, _. Qed.

Lemma total_bind {A B} (m : M A) (k : A → M B) :
  total m → (∀ a, total (k a)) → total (bind m k).
Proof.
  intros Hm Hk w. destruct (Hm w) as (a & w1 & Hrun).
  rewrite (bind_eq _ _ _ _ _ Hrun). apply Hk.
Qed.

Lemma total_try {A} (m : M A) (h : exn → M A) :
  fuel_free m → (∀ e, total (h e)) → total (try_except m h).
Proof.
  intros Hm Hh w. unfold try_except.
  destruct (m w) as [[a|e|] w1] eqn:Hrun.
  - by eexists _, _.
  - apply Hh.
  - by apply Hm in Hrun.
Qed.

Lemma total_update_status base msg : total (update_status base msg).
Proof. intros w. by eexists _, _. Qed.

Lemma total_log e : total (log e).
Proof. intros w. by eexists _, _. Qed.

Lemma total_fuel_free {A} (m : M A) : total m → fuel_free m.
Proof. intros Hm w w' Hrun. destruct (Hm w) as (a & w1 & Ha). congruence. Qed.

Lemma fuel_free_bind {A B} (m : M A) (k : A → M B) :
  fuel_free m → (∀ a, fuel_free (k a)) → fuel_free (bind m k).
Proof.
  intros Hm Hk w w' Hrun.
  apply bind_fuel in Hrun as [Hrun|(a & w1 & _ & Hrun)].
  - by apply Hm in Hrun.
  - by apply Hk in Hrun.
Qed.

Lemma fuel_free_ret {A} (a : A) : fuel_free (ret a).
Proof. by intros w w'. Qed.

Lemma fuel_free_raise {A} e : fuel_free (@raise A e).
Proof. by intros w w'. Qed.

Lemma fuel_free_of_option {A} e (o : option A) : fuel_free (of_option e o).
Proof. destruct o; [apply fuel_free_ret|apply fuel_free_raise]. Qed.

Lemma fuel_free_path_exists path : fuel_free (path_exists path).
Proof. by intros w w'. Qed.

Lemma fuel_free_get_file_size path : fuel_free (get_file_size path).
Proof. by intros w w'. Qed.

Lemma fuel_free_fitz_open E path : fuel_free (fitz_open E path).
Proof.
  intros w w'. unfold fitz_open. destruct (fs w !! path) as [b|]; [|done].
  by destruct (pdf_parse E b).
Qed.

Lemma fuel_free_doc_save E pages path : fuel_free (doc_save E pages path).
Proof. intros w w'. apply doc_save_not_fuel. Qed.

Lemma fuel_free_trial_save E pages path : fuel_free (trial_save E pages path).
Proof. intros w w'. apply trial_save_not_fuel. Qed.

Lemma fuel_free_subprocess_call E exe pdf_path output_path :
  fuel_free (subprocess_call E exe pdf_path output_path).
Proof.
  intros w w'. unfold subprocess_call.
  by destruct (ghostscript E exe _) as [[code [b|]]|].
Qed.

Lemma fuel_free_shutil_move E src dst : fuel_free (shutil_move E src dst).
Proof.
  intros w w'. unfold shutil_move. destruct (fs w !! src); [|done].
  by destruct (writable E dst).
Qed.

Lemma fuel_free_shutil_copy E src dst : fuel_free (shutil_copy E src dst).
Proof.
  intros w w'. unfold shutil_copy. destruct (fs w !! src); [|done].
  case_decide; [done|]. by destruct (writable E dst).
Qed.

Lemma fuel_free_split_pdf E pdf_path output_folder base_name max_size_bytes :
  fuel_free (split_pdf E pdf_path output_folder base_name max_size_bytes).
Proof.
  unfold split_pdf. apply fuel_free_bind; [|intros; apply fuel_free_ret].
  unfold split_parts. apply fuel_free_bind; [apply fuel_free_fitz_open|].
  intros doc w w'. apply outer_loop_fuel; lia.
Qed.

Global Hint Resolve
  total_ret total_update_status total_log
  fuel_free_ret fuel_free_raise fuel_free_of_option fuel_free_fitz_open
  fuel_free_path_exists fuel_free_get_file_size
  fuel_free_doc_save fuel_free_subprocess_call fuel_free_shutil_move
  fuel_free_shutil_copy fuel_free_split_pdf : effects.

Ltac fuel_free_tac :=
  repeat first
    [ solve [eauto with effects]
    | apply total_fuel_free; solve [eauto with effects]
    | apply fuel_free_bind
    | progress intros
    | match goal with
      | |- fuel_free (if ?c then _ else _) => destruct c
      | |- fuel_free (match ?c with _ => _ end) => destruct c
      end ].

(** ** The compression methods *)

Section StrategyFacts.

Context (E : Env).

Lemma gs_loop_total cmds pdf_path output_path :
  total (gs_loop E cmds pdf_path output_path).
Proof.
  induction cmds as [|exe rest IH]; simpl; [apply total_ret|].
  apply total_bind.
  - apply total_try; [|intros; apply total_ret].
    fuel_free_tac.
  - intros [|]; [apply total_ret|apply IH].
Qed.

Lemma compress_standard_gs_total pdf_path output_path :
  total (compress_standard_gs E pdf_path output_path).
Proof.
  unfold compress_standard_gs.
  apply total_bind; [apply total_log|]. intros _. apply gs_loop_total.
Qed.

Lemma compress_pymupdf_optimize_total pdf_path output_path :
  total (compress_pymupdf_optimize E pdf_path output_path).
Proof.
  unfold compress_pymupdf_optimize.
  apply total_bind; [apply total_log|]. intros _.
  apply total_try; [fuel_free_tac|intros; apply total_ret].
Qed.

Lemma fuel_free_bw_pages pages : ∀ new_pdf, fuel_free (bw_pages E pages new_pdf).
Proof.
  induction pages as [|page rest IH]; intros new_pdf; simpl;
    [apply fuel_free_ret|].
  apply fuel_free_bind; [unfold bw_page; fuel_free_tac|]. intros pg. apply IH.
Qed.

Lemma compress_binary_bw_total pdf_path output_path :
  total (compress_binary_bw E pdf_path output_path).
Proof.
  unfold compress_binary_bw.
  apply total_bind; [apply total_log|]. intros _.
  apply total_try; [|intros; apply total_ret].
  apply fuel_free_bind; [apply fuel_free_fitz_open|]. intros doc.
  apply fuel_free_bind; [apply fuel_free_bw_pages|]. fuel_free_tac.
Qed.

(** Each method writes at its output path and nowhere else. *)
Lemma gs_loop_frame cmds pdf_path output_path :
  preserves (frame output_path) (gs_loop E cmds pdf_path output_path).
Proof. induction cmds as [|exe rest IH]; simpl; preserves_tac. Qed.

Lemma compress_standard_gs_frame pdf_path output_path :
  preserves (frame output_path) (compress_standard_gs E pdf_path output_path).
Proof.
  unfold compress_standard_gs. apply preserves_bind; [apply _|preserves_tac|].
  intros _. apply gs_loop_frame.
Qed.

Lemma compress_pymupdf_optimize_frame pdf_path output_path :
  preserves (frame output_path) (compress_pymupdf_optimize E pdf_path output_path).
Proof. unfold compress_pymupdf_optimize. preserves_tac. Qed.

Lemma bw_pages_unchanged R `{!PreOrder R} pages :
  ∀ new_pdf, preserves R (bw_pages E pages new_pdf).
Proof.
  induction pages as [|page rest IH]; intros new_pdf; simpl; [preserves_tac|].
  apply preserves_bind; [apply _|unfold bw_page; preserves_tac|].
  intros pg. apply IH.
Qed.

Lemma compress_binary_bw_frame pdf_path output_path :
  preserves (frame output_path) (compress_binary_bw E pdf_path output_path).
Proof.
  unfold compress_binary_bw. preserves_tac. apply bw_pages_unchanged; apply _.
Qed.

(** The two methods of the standard level never call the third. *)
Lemma gs_loop_no_binarize cmds pdf_path output_path :
  preserves no_binarize (gs_loop E cmds pdf_path output_path).
Proof. induction cmds as [|exe rest IH]; simpl; preserves_tac. Qed.

Lemma compress_standard_gs_no_binarize pdf_path output_path :
  preserves no_binarize (compress_standard_gs E pdf_path output_path).
Proof.
  unfold compress_standard_gs. apply preserves_bind; [apply _| |].
  - apply log_no_binarize. simpl. tauto.
  - intros _. apply gs_loop_no_binarize.
Qed.

Lemma compress_pymupdf_optimize_no_binarize pdf_path output_path :
  preserves no_binarize (compress_pymupdf_optimize E pdf_path output_path).
Proof.
  unfold compress_pymupdf_optimize. preserves_tac.
Qed.

End StrategyFacts.

(* ------------------------------------------------------------------ *)
(** * The pipeline *)
(* ------------------------------------------------------------------ *)

Section PipelineFacts.

Context (E : Env).
Variables (output_folder : string) (split_mb : float) (act clevel : string).

Local Abbreviation strategy := (run_strategy E clevel).
Local Abbreviation stage := (compress_stage E act clevel).
Local Abbreviation body := (process_body E output_folder split_mb act clevel).
Local Abbreviation one_file := (process_file E output_folder split_mb act clevel).
Local Abbreviation batch := (run_files E output_folder split_mb act clevel).

Lemma run_strategy_total pdf_path temp_comp : total (strategy pdf_path temp_comp).
Proof.
  unfold run_strategy. case_decide; [apply compress_binary_bw_total|].
  case_decide; [|apply total_ret].
  apply total_bind; [apply compress_standard_gs_total|].
  intros [|]; simpl; [apply total_ret|apply compress_pymupdf_optimize_total].
Qed.

Lemma run_strategy_frame pdf_path temp_comp :
  preserves (frame temp_comp) (strategy pdf_path temp_comp).
Proof.
  unfold run_strategy. case_decide; [apply compress_binary_bw_frame|].
  case_decide; [|preserves_tac].
  apply preserves_bind; [apply _|apply compress_standard_gs_frame|].
  intros [|]; simpl; [preserves_tac|apply compress_pymupdf_optimize_frame].
Qed.

Lemma run_strategy_no_binarize pdf_path temp_comp :
  clevel ≠ "Extreme (B&W)" →
  preserves no_binarize (strategy pdf_path temp_comp).
Proof.
  intros Hlevel. unfold run_strategy. case_decide; [done|].
  case_decide; [|preserves_tac].
  apply preserves_bind; [apply _|apply compress_standard_gs_no_binarize|].
  intros [|]; simpl; [preserves_tac|apply compress_pymupdf_optimize_no_binarize].
Qed.

(** What [compress_stage] decides, from the answer of the strategy and the
    file it left: nothing else is looked at. *)
Lemma compress_stage_decides pdf_path base_name temp_comp w success w2 :
  should_compress act = true →
  strategy pdf_path temp_comp
    (after (update_status base_name ("Compressing (" +:+ clevel +:+ ")...")) w)
    = (Ok success, w2) →
  stage pdf_path base_name temp_comp w
  = (Ok (if success && bool_decide (is_Some (fs w2 !! temp_comp))
               && (file_size w2 temp_comp >? 0)
         then temp_comp else pdf_path), w2).
Proof.
  intros Hact Hrun. unfold compress_stage. rewrite Hact.
  unfold bind at 1. simpl. unfold after in Hrun. simpl in Hrun.
  rewrite (bind_eq _ _ _ _ _ Hrun). unfold bind, path_exists, get_file_size.
  by destruct (_ && _ && _).
Qed.

Lemma compress_stage_skipped pdf_path base_name temp_comp w :
  should_compress act = false →
  stage pdf_path base_name temp_comp w = (Ok pdf_path, w).
Proof. intros Hact. unfold compress_stage. by rewrite Hact. Qed.

Lemma compress_stage_total pdf_path base_name temp_comp :
  total (stage pdf_path base_name temp_comp).
Proof.
  intros w. destruct (should_compress act) eqn:Hact.
  - destruct (run_strategy_total pdf_path temp_comp
                (after (update_status base_name
                          ("Compressing (" +:+ clevel +:+ ")...")) w))
      as (success & w2 & Hrun).
    rewrite (compress_stage_decides _ _ _ _ _ _ Hact Hrun). by eexists _, _.
  - rewrite compress_stage_skipped by done. by eexists _, _.
Qed.

Lemma compress_stage_frame pdf_path base_name temp_comp :
  preserves (frame temp_comp) (stage pdf_path base_name temp_comp).
Proof.
  unfold compress_stage. destruct (should_compress act); [|preserves_tac].
  apply preserves_bind; [apply _|preserves_tac|]. intros _.
  apply preserves_bind; [apply _|apply run_strategy_frame|]. preserves_tac.
Qed.

Lemma compress_stage_no_binarize pdf_path base_name temp_comp :
  clevel ≠ "Extreme (B&W)" →
  preserves no_binarize (stage pdf_path base_name temp_comp).
Proof.
  intros Hlevel. unfold compress_stage.
  destruct (should_compress act); [|preserves_tac].
  apply preserves_bind; [apply _|preserves_tac|]. intros _.
  apply preserves_bind; [apply _|by apply run_strategy_no_binarize|].
  preserves_tac.
Qed.

Lemma output_stage_no_binarize pdf_path base_name base current_source final_output :
  preserves no_binarize
    (output_stage E output_folder split_mb act pdf_path base_name base
                  current_source final_output).
Proof.
  unfold output_stage. destruct (OsPath.str_contains "Split" act).
  - apply preserves_bind; [apply _|preserves_tac|]. intros _.
    apply preserves_bind; [apply _|preserves_tac|]. intros target_bytes.
    apply preserves_bind; [apply _| |preserves_tac].
    apply preserves_split_pdf;
      [apply _|apply doc_save_no_binarize|apply trial_save_no_binarize].
  - preserves_tac.
Qed.

Lemma output_stage_fuel_free pdf_path base_name base current_source final_output :
  fuel_free
    (output_stage E output_folder split_mb act pdf_path base_name base
                  current_source final_output).
Proof. unfold output_stage. fuel_free_tac. Qed.

Lemma process_body_fuel_free pdf_path base_name : fuel_free (body pdf_path base_name).
Proof.
  unfold process_body. apply fuel_free_bind.
  - apply total_fuel_free, compress_stage_total.
  - intros src. apply output_stage_fuel_free.
Qed.

Lemma process_file_total pdf_path : total (one_file pdf_path).
Proof.
  unfold process_file. apply total_bind; [apply total_update_status|].
  intros _. apply total_try; [apply process_body_fuel_free|].
  intros e. apply total_update_status.
Qed.

Lemma run_files_total files : total (batch files).
Proof.
  induction files as [|f rest IH]; simpl; [apply total_ret|].
  apply total_bind; [apply process_file_total|]. intros _. apply IH.
Qed.

Lemma process_file_no_binarize pdf_path :
  clevel ≠ "Extreme (B&W)" → preserves no_binarize (one_file pdf_path).
Proof.
  intros Hlevel. unfold process_file.
  apply preserves_bind; [apply _|preserves_tac|]. intros _.
  apply preserves_try; [apply _| |preserves_tac].
  unfold process_body.
  apply preserves_bind; [apply _|by apply compress_stage_no_binarize|].
  intros src. apply output_stage_no_binarize.
Qed.

Lemma run_files_no_binarize files :
  clevel ≠ "Extreme (B&W)" → preserves no_binarize (batch files).
Proof.
  intros Hlevel. induction files as [|f rest IH]; simpl; [preserves_tac|].
  apply preserves_bind; [apply _|by apply process_file_no_binarize|].
  intros _. apply IH.
Qed.

Lemma run_files_app pre post w w1 :
  batch pre w = (Ok tt, w1) → batch (pre ++ post) w = batch post w1.
Proof.
  revert w. induction pre as [|f pre IH]; intros w; simpl.
  - by intros [= <-].
  - intros Hrun. apply bind_ok in Hrun as ([] & w0 & Hf & Hrest).
    rewrite (bind_eq _ _ _ _ _ Hf). by apply IH.
Qed.

End PipelineFacts.

(** ** Relations that no step of the program breaks *)

Global Instance same_rows_preorder : PreOrder same_rows.
Proof.
  split; [by intros w|]. intros w1 w2 w3 H12 H23. unfold same_rows in *.
  by rewrite H23.
Qed.

Lemma set_status_files rows base msg :
  row_file <$> set_status rows base msg = row_file <$> rows.
Proof.
  induction rows as [|r rest IH]; [done|]. simpl.
  case_decide; rewrite !fmap_cons; [done|]. by rewrite IH.
Qed.

Lemma status_of_set_status rows base msg :
  is_Some (status_of rows base) →
  status_of (set_status rows base msg) base = Some msg.
Proof.
  induction rows as [|r rest IH]; simpl; [by intros [? ?]|].
  case_decide as Hr; simpl.
  - by rewrite decide_True.
  - rewrite decide_False by done. exact IH.
Qed.

Lemma status_of_same_rows w w' base :
  same_rows w w' → is_Some (status_of (tree w) base) →
  is_Some (status_of (tree w') base).
Proof.
  unfold same_rows. generalize (tree w) (tree w'). clear.
  intros rows. induction rows as [|r rest IH]; intros [|r' rest'] Heq;
    simpl; try done.
  rewrite !fmap_cons in Heq. injection Heq as Hr Hrest. rewrite Hr.
  case_decide; [eauto|]. by apply IH.
Qed.

Section AnyRelation.

Context (R : World → World → Prop) `{!PreOrder R}.
Hypothesis files_free : ∀ w f, R w (with_fs f w).
Hypothesis log_ok : ∀ e, preserves R (log e).
Context (E : Env).

Lemma any_doc_save pages path : preserves R (doc_save E pages path).
Proof.
  intros w r w'. unfold doc_save. destruct (writable E path).
  - destruct (pdf_write E pages); intros [= <- <-]; [apply files_free|done].
  - by intros [= <- <-].
Qed.

Lemma any_trial_save pages path : preserves R (trial_save E pages path).
Proof.
  intros w r w'. unfold trial_save. destruct (writable E path).
  - destruct (trial_write E pages); intros [= <- <-]; [apply files_free|done].
  - by intros [= <- <-].
Qed.

Lemma any_subprocess_call exe pdf_path output_path :
  preserves R (subprocess_call E exe pdf_path output_path).
Proof.
  intros w r w'. unfold subprocess_call.
  destruct (ghostscript E exe _) as [[code [b|]]|]; intros [= <- <-];
    [apply files_free|done..].
Qed.

Lemma any_shutil_move src dst : preserves R (shutil_move E src dst).
Proof.
  intros w r w'. unfold shutil_move. destruct (fs w !! src); [|by intros [= <- <-]].
  destruct (writable E dst); intros [= <- <-]; [apply files_free|done].
Qed.

Lemma any_shutil_copy src dst : preserves R (shutil_copy E src dst).
Proof.
  intros w r w'. unfold shutil_copy. destruct (fs w !! src); [|by intros [= <- <-]].
  case_decide; [by intros [= <- <-]|].
  destruct (writable E dst); intros [= <- <-]; [apply files_free|done].
Qed.

Local Hint Resolve any_doc_save any_subprocess_call any_shutil_move
  any_shutil_copy log_ok : effects.

Lemma any_gs_loop cmds pdf_path output_path :
  preserves R (gs_loop E cmds pdf_path output_path).
Proof. induction cmds as [|exe rest IH]; simpl; preserves_tac. Qed.

Lemma any_run_strategy clevel pdf_path temp_comp :
  preserves R (run_strategy E clevel pdf_path temp_comp).
Proof.
  unfold run_strategy. case_decide.
  - unfold compress_binary_bw. preserves_tac. by apply bw_pages_unchanged.
  - case_decide; [|preserves_tac].
    apply preserves_bind; [apply _| |].
    + unfold compress_standard_gs.
      apply preserves_bind; [apply _|preserves_tac|]. intros _. apply any_gs_loop.
    + intros [|]; simpl; [preserves_tac|].
      unfold compress_pymupdf_optimize. preserves_tac.
Qed.

(** The pass for a file updates the status of that file only. *)
Section OneFile.

Variables (output_folder : string) (split_mb : float) (act clevel : string).
Variable base_name : string.
Hypothesis status_ok : ∀ msg, preserves R (update_status base_name msg).

Local Hint Resolve status_ok : effects.

Lemma any_process_body pdf_path :
  preserves R (process_body E output_folder split_mb act clevel pdf_path base_name).
Proof.
  unfold process_body. apply preserves_bind; [apply _| |].
  - unfold compress_stage. destruct (should_compress act); [|preserves_tac].
    apply preserves_bind; [apply _|preserves_tac|]. intros _.
    apply preserves_bind; [apply _|apply any_run_strategy|]. preserves_tac.
  - intros src. unfold output_stage. destruct (OsPath.str_contains "Split" act).
    + apply preserves_bind; [apply _|preserves_tac|]. intros _.
      apply preserves_bind; [apply _|preserves_tac|]. intros target_bytes.
      apply preserves_bind; [apply _| |preserves_tac].
      apply preserves_split_pdf; [apply _|apply any_doc_save|apply any_trial_save].
    + preserves_tac.
Qed.

Lemma any_process_file pdf_path :
  base_name = OsPath.basename pdf_path →
  preserves R (process_file E output_folder split_mb act clevel pdf_path).
Proof.
  intros Hbase. unfold process_file. rewrite <- Hbase.
  apply preserves_bind; [apply _|apply status_ok|]. intros _.
  apply preserves_try; [apply _|apply any_process_body|].
  intros e. apply status_ok.
Qed.

End OneFile.

End AnyRelation.

Lemma process_body_same_rows E output_folder split_mb act clevel pdf_path base_name :
  preserves same_rows
    (process_body E output_folder split_mb act clevel pdf_path base_name).
Proof.
  apply any_process_body; [apply _|done|by intros e w r w' [= <- <-]|].
  intros msg w r w' [= <- <-]. unfold same_rows. simpl.
  apply set_status_files.
Qed.

Global Instance keeps_status_preorder base : PreOrder (keeps_status base).
Proof.
  split; [by intros w|]. intros w1 w2 w3 H12 H23. unfold keeps_status in *.
  by rewrite H23.
Qed.

Lemma status_of_set_status_ne rows base base' msg :
  base' ≠ base → status_of (set_status rows base' msg) base = status_of rows base.
Proof.
  intros Hne. induction rows as [|r rest IH]; [done|]. simpl.
  case_decide as Hr; simpl.
  - rewrite Hr. by rewrite !decide_False.
  - case_decide; [done|]. exact IH.
Qed.

(** The pass for a file leaves the status of the files of other names. *)
Lemma process_file_keeps_status E output_folder split_mb act clevel base pdf_path :
  OsPath.basename pdf_path ≠ base →
  preserves (keeps_status base)
    (process_file E output_folder split_mb act clevel pdf_path).
Proof.
  intros Hne.
  assert (∀ w f, keeps_status base w (with_fs f w)) as Hfiles by done.
  assert (∀ e, preserves (keeps_status base) (log e)) as Hlog.
  { by intros e w r w' [= <- <-]. }
  assert (∀ msg, preserves (keeps_status base)
                   (update_status (OsPath.basename pdf_path) msg)) as Hstatus.
  { intros msg w r w' [= <- <-]. unfold keeps_status. simpl.
    by apply status_of_set_status_ne. }
  exact (any_process_file (keeps_status base) Hfiles Hlog E output_folder
           split_mb act clevel (OsPath.basename pdf_path) Hstatus pdf_path
           eq_refl).
Qed.

Lemma run_files_keeps_status E output_folder split_mb act clevel base files :
  base ∉ OsPath.basename <$> files →
  preserves (keeps_status base)
    (run_files E output_folder split_mb act clevel files).
Proof.
  induction files as [|f rest IH]; intros Hnot.
  - apply preserves_ret; apply _.
  - rewrite fmap_cons in Hnot. apply not_elem_of_cons in Hnot as [Hf Hrest].
    simpl. apply preserves_bind; [apply _| |].
    + by apply process_file_keeps_status.
    + intros _. by apply IH.
Qed.

(** ** Facts used by the properties of the pipeline *)

Lemma accept_test w path :
  bool_decide (is_Some (fs w !! path)) && (file_size w path >? 0)
  = (0 <? file_size w path).
Proof.
  unfold file_size. destruct (fs w !! path) as [b|].
  - rewrite bool_decide_eq_true_2 by eauto. simpl. apply Z.gtb_ltb.
  - rewrite bool_decide_eq_false_2; [done|]. by intros [? ?].
Qed.

Lemma temp_comp_ne_source E pdf_path : temp_comp_of E pdf_path ≠ pdf_path.
Proof. by apply OsPathFacts.derived_ne_source. Qed.

Lemma final_output_ne_source output_folder pdf_path :
  final_output_of output_folder pdf_path ≠ pdf_path.
Proof. by apply OsPathFacts.derived_ne_source. Qed.

Lemma final_output_ne_temp_comp E output_folder pdf_path :
  final_output_of output_folder pdf_path ≠ temp_comp_of E pdf_path.
Proof. by apply OsPathFacts.derived_ne_derived. Qed.

Lemma compress_pymupdf_optimize_logged E pdf_path output_path w r w' :
  compress_pymupdf_optimize E pdf_path output_path w = (r, w') →
  trace w' = trace w ++ [Invoke ContainerOptimize pdf_path output_path].
Proof.
  unfold compress_pymupdf_optimize, bind, log, try_except, fitz_open, doc_save, ret.
  simpl. repeat case_match; intros; simplify_eq; done.
Qed.

Section StageFacts.

Context (E : Env).
Variables (output_folder : string) (split_mb : float) (act clevel : string).

Lemma compress_stage_accepts pdf_path base_name temp_comp w src w2 :
  compress_stage E act clevel pdf_path base_name temp_comp w = (Ok src, w2) →
  src ≠ pdf_path →
  src = temp_comp ∧ ∃ b, fs w2 !! temp_comp = Some b ∧ b ≠ [].
Proof.
  intros Hrun Hsrc. destruct (should_compress act) eqn:Hact.
  2:{ rewrite compress_stage_skipped in Hrun by done. by injection Hrun as <- <-. }
  destruct (run_strategy_total E clevel pdf_path temp_comp
              (after (update_status base_name
                        ("Compressing (" +:+ clevel +:+ ")...")) w))
    as (success & w3 & Hs).
  rewrite (compress_stage_decides _ _ _ _ _ _ _ _ _ Hact Hs) in Hrun.
  injection Hrun as <- <-.
  destruct (_ && _ && _) eqn:Hc; [|done]. split; [done|].
  apply andb_true_iff in Hc as [_ Hsize]. unfold file_size in Hsize.
  destruct (fs w3 !! temp_comp) as [b|]; [|done].
  exists b. split; [done|]. intros ->. done.
Qed.

(** Without "Split" in the action the body ends by saving one file. *)
Lemma process_body_save pdf_path w src w2 :
  OsPath.str_contains "Split" act = false →
  compress_stage E act clevel pdf_path (OsPath.basename pdf_path)
                 (temp_comp_of E pdf_path) w = (Ok src, w2) →
  process_body E output_folder split_mb act clevel pdf_path
               (OsPath.basename pdf_path) w
  = ((if decide (src ≠ pdf_path)
      then shutil_move E src (final_output_of output_folder pdf_path)
      else shutil_copy E pdf_path (final_output_of output_folder pdf_path)) ;;
     update_status (OsPath.basename pdf_path) "Done (Saved)")%py w2.
Proof.
  intros Hact Hrun. unfold process_body.
  change (OsPath.join (tempdir E)
            ((OsPath.splitext (OsPath.basename pdf_path)).1 +:+ "_comp_temp.pdf"))
    with (temp_comp_of E pdf_path).
  rewrite (bind_eq _ _ _ _ _ Hrun). unfold output_stage. by rewrite Hact.
Qed.

Lemma process_body_split pdf_path w src w2 :
  OsPath.str_contains "Split" act = true →
  compress_stage E act clevel pdf_path (OsPath.basename pdf_path)
                 (temp_comp_of E pdf_path) w = (Ok src, w2) →
  process_body E output_folder split_mb act clevel pdf_path
               (OsPath.basename pdf_path) w
  = output_stage E output_folder split_mb act pdf_path (OsPath.basename pdf_path)
                 (OsPath.stem pdf_path) src
                 (final_output_of output_folder pdf_path) w2.
Proof.
  intros Hact Hrun. unfold process_body.
  change (OsPath.join (tempdir E)
            ((OsPath.splitext (OsPath.basename pdf_path)).1 +:+ "_comp_temp.pdf"))
    with (temp_comp_of E pdf_path).
  by rewrite (bind_eq _ _ _ _ _ Hrun).
Qed.

Lemma output_stage_split_keeps pdf_path base_name base src final_output :
  OsPath.str_contains "Split" act = true →
  preserves keeps_files
    (output_stage E output_folder split_mb act pdf_path base_name base src
                  final_output).
Proof.
  intros Hact. unfold output_stage. rewrite Hact.
  apply preserves_bind; [apply _|preserves_tac|]. intros _.
  apply preserves_bind; [apply _|preserves_tac|]. intros target_bytes.
  apply preserves_bind; [apply _| |preserves_tac].
  apply preserves_split_pdf;
    [apply _|apply doc_save_preserves_keeps|apply trial_save_preserves_keeps].
Qed.

End StageFacts.

(** A split of a document of two pages or more goes through a trial save,
    and the trial file is still there at the end. *)
Lemma split_leaves_trial E pdf_path output_folder base_name max_size_bytes
    w b doc parts w' :
  fs w !! pdf_path = Some b → pdf_parse E b = Some doc → (2 ≤ length doc)%nat →
  split_parts E pdf_path output_folder base_name max_size_bytes w = (Ok parts, w') →
  is_Some (fs w' !! trial_path E base_name).
Proof.
  intros Hb Hdoc Hlen Hrun.
  rewrite (split_parts_open _ _ _ _ _ _ _ _ Hb Hdoc) in Hrun.
  destruct doc as [|pg0 [|pg1 rest]]; simpl in Hlen; try lia.
  set (doc := pg0 :: pg1 :: rest) in *.
  change (length doc) with (S (S (length rest))) in Hrun.
  rewrite outer_step in Hrun by (simpl; lia).
  apply bind_ok in Hrun as ([part p] & w1 & Hbuild & Hrest).
  apply (preserves_outer_loop keeps_files E (doc_save_preserves_keeps E)
           (trial_save_preserves_keeps E)) in Hrest.
  apply Hrest. clear Hrest.
  unfold build_part in Hbuild.
  apply bind_ok in Hbuild as ([part_doc p1] & w2 & Hinner & Hsave).
  apply bind_ok in Hsave as ([] & w3 & Hsave & [= _ _ <-]).
  apply doc_save_keeps in Hsave. apply Hsave. clear Hsave.
  rewrite (inner_step _ _ _ _ _ _ _ pg0) in Hinner by done.
  cbn [length Nat.eqb app Nat.add] in Hinner.
  rewrite (inner_step _ _ _ _ _ _ _ pg1) in Hinner by done.
  cbn [length Nat.eqb app Nat.add] in Hinner.
  apply bind_ok in Hinner as ([] & w4 & Htrial & Hinner).
  apply trial_save_ok in Htrial as (bs & _ & ->).
  assert (keeps_files (with_fs (insert (trial_path E base_name) bs) w) w2) as Hk.
  { revert Hinner. generalize (with_fs (insert (trial_path E base_name) bs) w).
    intros w0 Hinner.
    eapply (preserves_bind keeps_files); [| |exact Hinner].
    - apply preserves_get_file_size; apply _.
    - intros sz. cbv beta.
      destruct (sz >? max_size_bytes); [apply preserves_ret; apply _|].
      apply preserves_inner_loop; [apply _|apply trial_save_preserves_keeps]. }
  apply Hk. simpl. rewrite lookup_insert_eq. eauto.
Qed.

(* ------------------------------------------------------------------ *)
(** * The properties of the compression pipeline *)
(* ------------------------------------------------------------------ *)

(** C4 (fallback at the standard level): at level "Standard (GS)", when
    the Ghostscript method returns failure, the container optimization is
    called next, and its output becomes the working source whenever it
    reports success and left a file of nonzero size; and however a batch
    at that level goes, [compress_binary_bw] is never called. *)
Theorem standard_fallback (E : Env) (output_folder : string) (split_mb : float)
    (act : string) :
  (∀ pdf_path base_name temp_comp w w2,
     should_compress act = true →
     compress_standard_gs E pdf_path temp_comp
       (after (update_status base_name
                 ("Compressing (" +:+ "Standard (GS)" +:+ ")...")) w)
       = (Ok false, w2) →
     ∃ ok w3,
       compress_pymupdf_optimize E pdf_path temp_comp w2 = (Ok ok, w3)
       ∧ trace w3 = trace w2 ++ [Invoke ContainerOptimize pdf_path temp_comp]
       ∧ compress_stage E act "Standard (GS)" pdf_path base_name temp_comp w
         = (Ok (if ok && (0 <? file_size w3 temp_comp)
                then temp_comp else pdf_path), w3))
  ∧ (∀ files w r w',
       run_files E output_folder split_mb act "Standard (GS)" files w = (r, w') →
       no_binarize w w').
Proof.
  split.
  - intros pdf_path base_name temp_comp w w2 Hact Hgs.
    destruct (compress_pymupdf_optimize_total E pdf_path temp_comp w2)
      as (ok & w3 & Hopt).
    exists ok, w3. split; [done|].
    split; [by eapply compress_pymupdf_optimize_logged|].
    erewrite compress_stage_decides; [|done|].
    + by rewrite <- andb_assoc, accept_test.
    + unfold run_strategy. rewrite decide_False by done.
      rewrite decide_True by done. by rewrite (bind_eq _ _ _ _ _ Hgs).
  - intros files w r w' Hrun.
    by apply (run_files_no_binarize E output_folder split_mb act "Standard (GS)"
                files ltac:(done) w r w').
Qed.

(** C5 (failure keeps the original): in mode "Compress Only", when the
    strategy of the requested level ends in failure, the working source is
    the input path, the input file is unchanged, and, the final output
    path being writable, the file is reported "Done (Saved)" with a final
    output that holds exactly the bytes of the input. *)
Theorem compress_failure_keeps_original (E : Env) (output_folder : string)
    (split_mb : float) (clevel pdf_path : string) (w w2 : World) (input : bytes) :
  let act := "Compress Only" in
  let base_name := OsPath.basename pdf_path in
  let final_output := final_output_of output_folder pdf_path in
  fs w !! pdf_path = Some input →
  run_strategy E clevel pdf_path (temp_comp_of E pdf_path)
    (after (update_status base_name ("Compressing (" +:+ clevel +:+ ")...")) w)
    = (Ok false, w2) →
  compress_stage E act clevel pdf_path base_name (temp_comp_of E pdf_path) w
    = (Ok pdf_path, w2)
  ∧ fs w2 !! pdf_path = Some input
  ∧ (writable E final_output = true →
     ∃ w', process_body E output_folder split_mb act clevel pdf_path base_name w
           = (Ok tt, w')
       ∧ fs w' !! final_output = Some input
       ∧ fs w' !! pdf_path = Some input
       ∧ last (trace w') = Some (Status base_name "Done (Saved)")).
Proof.
  intros act base_name final_output Hin Hrun. subst act base_name final_output.
  assert (compress_stage E "Compress Only" clevel pdf_path (OsPath.basename pdf_path)
            (temp_comp_of E pdf_path) w = (Ok pdf_path, w2)) as Hstage.
  { by rewrite (compress_stage_decides E "Compress Only" clevel pdf_path _ _ w
                  false w2 eq_refl Hrun). }
  assert (fs w2 !! pdf_path = Some input) as Hin2.
  { apply run_strategy_frame in Hrun. rewrite Hrun; [done|].
    intros Heq. by apply (temp_comp_ne_source E pdf_path). }
  split_and!; [done..|]. intros Hw.
  eexists. rewrite (process_body_save E output_folder split_mb "Compress Only"
                      clevel pdf_path w pdf_path w2 eq_refl Hstage).
  rewrite decide_False by (by intros ?).
  unfold bind, shutil_copy. rewrite Hin2.
  rewrite decide_False
    by (intros Heq; by apply (final_output_ne_source output_folder pdf_path)).
  rewrite Hw. simpl. split; [done|]. simpl.
  split_and!.
  - by rewrite lookup_insert_eq.
  - rewrite lookup_insert_ne; [done|].
    apply final_output_ne_source.
  - by rewrite last_snoc.
Qed.

(** C7 (no size comparison): what [compress_stage] returns is decided by
    three things only: the answer of the strategy, whether the output file
    exists, and whether its size is nonzero.  So whenever the strategy
    reports success and its output exists with nonzero size, the working
    source is that output, whatever the sizes of input and output. *)
Theorem accepts_without_size_check (E : Env) (act clevel : string)
    (pdf_path base_name temp_comp : string) (w w2 : World) (success : bool) :
  should_compress act = true →
  run_strategy E clevel pdf_path temp_comp
    (after (update_status base_name ("Compressing (" +:+ clevel +:+ ")...")) w)
    = (Ok success, w2) →
  compress_stage E act clevel pdf_path base_name temp_comp w
    = (Ok (if success && bool_decide (is_Some (fs w2 !! temp_comp))
                 && (file_size w2 temp_comp >? 0)
           then temp_comp else pdf_path), w2)
  ∧ (∀ output, success = true → fs w2 !! temp_comp = Some output → output ≠ [] →
       compress_stage E act clevel pdf_path base_name temp_comp w
       = (Ok temp_comp, w2)).
Proof.
  intros Hact Hrun.
  pose proof (compress_stage_decides E act clevel _ _ _ _ _ _ Hact Hrun) as Hst.
  split; [done|]. intros output -> Hout Hne. rewrite Hst.
  rewrite bool_decide_eq_true_2 by eauto.
  unfold file_size. rewrite Hout. simpl.
  destruct output; [done|]. done.
Qed.

(** C8 (a failure does not stop the batch): every batch runs to its end
    without raising, each file being processed in the world its
    predecessors left, and the files that follow leave its status alone
    unless they have its name; when the body of the [try] raises for a
    file, the handler records "Error" for it (the call is the last event of
    the pass and, the table having a row for the file, its status reads
    "Error") and the pass for that file ends normally.  So [run_process],
    once past its checks of the selection, always reaches its final
    message box. *)
Theorem batch_survives_failures (E : Env) (output_folder : string)
    (split_mb : float) (act clevel : string) :
  (∀ files w, ∃ w',
     run_files E output_folder split_mb act clevel files w = (Ok tt, w'))
  ∧ (∀ pre pdf_path post w, ∃ w1 w2 w3,
       run_files E output_folder split_mb act clevel pre w = (Ok tt, w1)
       ∧ process_file E output_folder split_mb act clevel pdf_path w1 = (Ok tt, w2)
       ∧ run_files E output_folder split_mb act clevel post w2 = (Ok tt, w3)
       ∧ run_files E output_folder split_mb act clevel (pre ++ pdf_path :: post) w
         = (Ok tt, w3)
       ∧ (OsPath.basename pdf_path ∉ OsPath.basename <$> post →
          status_of (tree w3) (OsPath.basename pdf_path)
          = status_of (tree w2) (OsPath.basename pdf_path)))
  ∧ (∀ pdf_path w e w2,
       let base_name := OsPath.basename pdf_path in
       process_body E output_folder split_mb act clevel pdf_path base_name
         (after (update_status base_name "Processing...") w) = (Raise e, w2) →
       let w3 := after (update_status base_name "Error") w2 in
       process_file E output_folder split_mb act clevel pdf_path w = (Ok tt, w3)
       ∧ fs w3 = fs w2
       ∧ last (trace w3) = Some (Status base_name "Error")
       ∧ (is_Some (status_of (tree w) base_name) →
          status_of (tree w3) base_name = Some "Error"))
  ∧ (∀ app w,
       pdf_list app ≠ [] → output_dir_var app ≠ "" →
       is_Some (py_float E (size_var app)) →
       ∃ w', run_process E app w = (Ok tt, w')
             ∧ last (trace w')
               = Some (Dialog "showinfo" "Success" "All tasks completed.")).
Proof.
  split_and!.
  - intros files w. destruct (run_files_total E output_folder split_mb act clevel files w)
      as ([] & w' & Hrun). eauto.
  - intros pre pdf_path post w.
    destruct (run_files_total E output_folder split_mb act clevel pre w)
      as ([] & w1 & Hpre).
    destruct (process_file_total E output_folder split_mb act clevel pdf_path w1)
      as ([] & w2 & Hfile).
    destruct (run_files_total E output_folder split_mb act clevel post w2)
      as ([] & w3 & Hpost).
    exists w1, w2, w3. split_and!; try done.
    + rewrite (run_files_app _ _ _ _ _ _ _ _ _ Hpre). simpl.
      by rewrite (bind_eq _ _ _ _ _ Hfile).
    + intros Hnot. by eapply run_files_keeps_status.
  - intros pdf_path w e w2 base_name Hbody w3. split_and!.
    + unfold process_file. fold base_name. unfold bind at 1. simpl.
      unfold try_except. unfold after in Hbody. simpl in Hbody.
      by rewrite Hbody.
    + done.
    + unfold w3, after. simpl. by rewrite last_snoc.
    + intros Hrow. unfold w3, after. simpl. apply status_of_set_status.
      apply process_body_same_rows in Hbody.
      eapply status_of_same_rows; [exact Hbody|].
      unfold after. simpl.
      destruct Hrow as [st Hst]. erewrite status_of_set_status; eauto.
  - intros app w Hlist Hdir [mb Hmb]. unfold run_process.
    rewrite decide_False by done. rewrite decide_False by done.
    rewrite Hmb. simpl.
    destruct (run_files_total E (output_dir_var app) mb (action_var app)
                (comp_level_var app) (pdf_list app) w) as ([] & w1 & Hrun).
    unfold bind at 1. simpl. rewrite (bind_eq _ _ _ _ _ Hrun).
    eexists. split; [done|]. simpl. by rewrite last_snoc.
Qed.

(** C9 (temporary files), as the program has it: in mode "Compress Only"
    an accepted compressed working copy is promoted, that is, moved to the
    final output path, and is no longer at its temporary path afterwards.
    The other temporary files are not cleaned up: a split of a document of
    two pages or more that completes leaves its trial file in the temporary
    directory, and in mode "Compress + Split" an accepted compressed
    working copy is still there however the processing of the file ends. *)
Theorem temp_files_fate (E : Env) (output_folder : string) (split_mb : float)
    (clevel pdf_path : string) :
  let base_name := OsPath.basename pdf_path in
  let temp_comp := temp_comp_of E pdf_path in
  let final_output := final_output_of output_folder pdf_path in
  (∀ w src w2,
     compress_stage E "Compress Only" clevel pdf_path base_name temp_comp w
       = (Ok src, w2) →
     src ≠ pdf_path → writable E final_output = true →
     ∃ output w',
       fs w2 !! temp_comp = Some output
       ∧ process_body E output_folder split_mb "Compress Only" clevel
                      pdf_path base_name w = (Ok tt, w')
       ∧ fs w' !! final_output = Some output
       ∧ fs w' !! temp_comp = None)
  ∧ (∀ source max_size_bytes w b doc parts w',
       fs w !! source = Some b → pdf_parse E b = Some doc →
       (2 ≤ length doc)%nat →
       split_parts E source output_folder (OsPath.stem pdf_path) max_size_bytes w
         = (Ok parts, w') →
       is_Some (fs w' !! trial_path E (OsPath.stem pdf_path)))
  ∧ (∀ w src w2 r w',
       compress_stage E "Compress + Split" clevel pdf_path base_name temp_comp w
         = (Ok src, w2) →
       src ≠ pdf_path →
       process_body E output_folder split_mb "Compress + Split" clevel
                    pdf_path base_name w = (r, w') →
       is_Some (fs w' !! temp_comp)).
Proof.
  intros base_name temp_comp final_output.
  subst base_name temp_comp final_output. split_and!.
  - intros w src w2 Hstage Hsrc Hw.
    destruct (compress_stage_accepts _ _ _ _ _ _ _ _ _ Hstage Hsrc)
      as (-> & output & Hout & _).
    exists output. eexists. split; [done|].
    rewrite (process_body_save E output_folder split_mb "Compress Only"
               clevel pdf_path w _ w2 eq_refl Hstage).
    rewrite decide_True by done.
    unfold bind, shutil_move. rewrite Hout, Hw. simpl. split; [done|]. simpl.
    split.
    + by rewrite lookup_insert_eq.
    + rewrite lookup_insert_ne by apply final_output_ne_temp_comp.
      by rewrite lookup_delete_eq.
  - intros source max_size_bytes w b doc parts w' Hb Hdoc Hlen Hrun.
    by eapply split_leaves_trial.
  - intros w src w2 r w' Hstage Hsrc Hrun.
    destruct (compress_stage_accepts _ _ _ _ _ _ _ _ _ Hstage Hsrc)
      as (-> & output & Hout & _).
    rewrite (process_body_split E output_folder split_mb "Compress + Split"
               clevel pdf_path w _ w2 eq_refl Hstage) in Hrun.
    apply output_stage_split_keeps in Hrun; [|done].
    apply Hrun. rewrite Hout. eauto.
Qed.

(** ** The binarization *)

Lemma bw_page_ok E page w pdf_page w' :
  bw_page E page w = (Ok pdf_page, w') → w' = w ∧ bw_page_of E page pdf_page.
Proof.
  unfold bw_page, bw_page_of, bind, of_option, ret, raise.
  destruct (get_pixmap E page 200) as [pix|] eqn:Hpix; [|done].
  destruct (convert_L E pix) as [img|] eqn:Himg; [|done].
  destruct (png_save E _) as [img_bytes|] eqn:Hpng; [|done].
  simpl. intros [= <- <-]. split; [done|]. by exists pix, img, img_bytes.
Qed.

Lemma bw_page_complete E page pdf_page w :
  bw_page_of E page pdf_page → bw_page E page w = (Ok pdf_page, w).
Proof.
  intros (pix & img & img_bytes & Hpix & Himg & Hpng & ->).
  unfold bw_page, bind, of_option, ret. by rewrite Hpix, Himg, Hpng.
Qed.

Lemma bw_pages_ok E pages : ∀ new_pdf w res w',
  bw_pages E pages new_pdf w = (Ok res, w') →
  w' = w ∧ ∃ new, res = new_pdf ++ new ∧ Forall2 (bw_page_of E) pages new.
Proof.
  induction pages as [|page rest IH]; intros new_pdf w res w'; simpl.
  - intros [= <- <-]. split; [done|]. exists []. by rewrite app_nil_r.
  - intros Hrun. apply bind_ok in Hrun as (pg & w1 & Hpg & Hrun).
    apply bw_page_ok in Hpg as [-> Hpg].
    apply IH in Hrun as [-> (new & -> & Hnew)]. split; [done|].
    exists (pg :: new). rewrite <- app_assoc. split; [done|]. by constructor.
Qed.

Lemma bw_pages_complete E pages : ∀ new new_pdf w,
  Forall2 (bw_page_of E) pages new →
  bw_pages E pages new_pdf w = (Ok (new_pdf ++ new), w).
Proof.
  induction pages as [|page rest IH]; intros new new_pdf w Hall;
    inversion Hall as [|? pg ? new' Hpg Hrest]; subst; simpl.
  - by rewrite app_nil_r.
  - rewrite (bind_eq _ _ _ _ _ (bw_page_complete E page pg w Hpg)).
    rewrite (IH new' (new_pdf ++ [pg]) w Hrest). by rewrite <- app_assoc.
Qed.

Lemma binarize_lookup arr i v :
  arr !! i = Some v →
  binarize arr !! i
  = Some (if PrimFloat.ltb (np_mean arr * 0.92)%float (float_of_Z (uint8 v))
          then Byte.xff else Byte.x00).
Proof. intros Hv. unfold binarize, threshold. by rewrite list_lookup_fmap, Hv. Qed.

(** C6 (binarization): [compress_binary_bw] always returns; when it
    returns success, the file at the output path is the serialization of a
    new document that has, for every page of the input and in the same
    order, a page of the same width and height whose only content is the
    encoded image of the binarized page: the page rendered at 200 DPI,
    converted to 8-bit grayscale, each pixel set to 255 when it is above
    the threshold [np.mean * 0.92] and to 0 otherwise.  It does return
    success when every page renders, converts and encodes and the new
    document can be written. *)
Theorem binarization_pages (E : Env) (pdf_path output_path : string) (w : World)
    (b : bytes) (doc : list Page) :
  fs w !! pdf_path = Some b → pdf_parse E b = Some doc →
  (∃ ok w', compress_binary_bw E pdf_path output_path w = (Ok ok, w'))
  ∧ (∀ w', compress_binary_bw E pdf_path output_path w = (Ok true, w') →
       ∃ new_pdf out,
         Forall2 (bw_page_of E) doc new_pdf
         ∧ pdf_write E new_pdf = Some out
         ∧ fs w' = <[output_path := out]> (fs w))
  ∧ (∀ new_pdf out,
       Forall2 (bw_page_of E) doc new_pdf → pdf_write E new_pdf = Some out →
       writable E output_path = true →
       ∃ w', compress_binary_bw E pdf_path output_path w = (Ok true, w'))
  ∧ (∀ arr : bytes,
       length (binarize arr) = length arr
       ∧ Forall (λ v, uint8 v = 0 ∨ uint8 v = 255) (binarize arr)
       ∧ ∀ i v, arr !! i = Some v →
           binarize arr !! i
           = Some (if PrimFloat.ltb (np_mean arr * 0.92)%float
                                    (float_of_Z (uint8 v))
                   then Byte.xff else Byte.x00)).
Proof.
  intros Hb Hdoc. split_and!.
  - destruct (compress_binary_bw_total E pdf_path output_path w) as (ok & w' & H).
    eauto.
  - intros w'. unfold compress_binary_bw, bind at 1, log. simpl.
    unfold try_except.
    set (w1 := mkWorld _ _ _).
    destruct (bind _ _ w1) as [[ok|e|] w2] eqn:Hbody; [|by intros [= ]|done].
    intros [= -> ->].
    apply bind_ok in Hbody as (d & w3 & Hopen & Hbody).
    unfold fitz_open in Hopen. simpl in Hopen. rewrite Hb, Hdoc in Hopen.
    injection Hopen as <- <-.
    apply bind_ok in Hbody as (new_pdf & w4 & Hpages & Hbody).
    apply bw_pages_ok in Hpages as [-> (new & -> & Hnew)].
    apply bind_ok in Hbody as ([] & w5 & Hsave & [= <-]).
    apply doc_save_ok in Hsave as (out & Hout & ->).
    exists new, out. by rewrite app_nil_l in Hout.
  - intros new_pdf out Hnew Hout Hw. eexists.
    unfold compress_binary_bw, bind at 1, log. simpl. unfold try_except.
    set (w1 := mkWorld _ _ _).
    assert (fitz_open E pdf_path w1 = (Ok doc, w1)) as Hopen.
    { unfold fitz_open. simpl. by rewrite Hb, Hdoc. }
    rewrite (bind_eq _ _ _ _ _ Hopen).
    rewrite (bind_eq _ _ _ _ _ (bw_pages_complete E doc new_pdf [] w1 Hnew)).
    rewrite app_nil_l. unfold bind, doc_save. by rewrite Hw, Hout.
  - intros arr. split_and!.
    + unfold binarize. by rewrite length_fmap.
    + unfold binarize. apply Forall_fmap, Forall_forall. intros v _. simpl.
      destruct (PrimFloat.ltb _ _); auto.
    + apply binarize_lookup.
Qed.

(** Counterexample to C9 as stated (every temporary file of a processed
    file is gone afterwards, on every exit path): processing a five-page
    file in mode "Split Only" leaves the trial file of the splitter in the
    temporary directory. *)
Lemma temp_files_leak :
  ¬ (∀ (E : Env) (output_folder : string) (split_mb : float)
       (act clevel pdf_path : string) (w : World) r w',
       temp_files_gone E pdf_path w →
       process_file E output_folder split_mb act clevel pdf_path w = (r, w') →
       temp_files_gone E pdf_path w').
Proof.
  intros Hclaim.
  destruct (Hclaim Demo.E "/out" 0.000002%float "Split Only" "Standard (GS)"
              "/in/a.pdf" Demo.w0 _ _ (conj eq_refl eq_refl) eq_refl)
    as [Htrial _].
  vm_compute in Htrial. discriminate.
Qed.


(* ------------------------------------------------------------------ *)
(** * Further properties of the program *)
(* ------------------------------------------------------------------ *)

Global Instance only_events_preorder P : PreOrder (only_events P).
Proof.
  split.
  - intros w. exists []. by rewrite app_nil_r.
  - intros w1 w2 w3 (n1 & H1 & F1) (n2 & H2 & F2). exists (n1 ++ n2).
    rewrite H2, H1, app_assoc. split; [done|]. by apply Forall_app.
Qed.

Lemma only_events_same P w w' : trace w' = trace w → only_events P w w'.
Proof. intros Ht. exists []. by rewrite app_nil_r. Qed.

Lemma only_events_snoc P w e f t :
  P e → only_events P w (mkWorld f t (trace w ++ [e])).
Proof. intros He. exists [e]. split; [done|]. by apply Forall_singleton. Qed.

Section EventsFacts.

Context (P : Event → Prop) (E : Env).
Hypothesis status_ok : ∀ f m, P (Status f m).

Lemma events_doc_save pages path : preserves (only_events P) (doc_save E pages path).
Proof.
  intros w r w'. unfold doc_save. destruct (writable E path).
  - destruct (pdf_write E pages); intros [= <- <-]; by apply only_events_same.
  - intros [= <- <-]. by apply only_events_same.
Qed.

Lemma events_trial_save pages path :
  preserves (only_events P) (trial_save E pages path).
Proof.
  intros w r w'. unfold trial_save. destruct (writable E path).
  - destruct (trial_write E pages); intros [= <- <-]; by apply only_events_same.
  - intros [= <- <-]. by apply only_events_same.
Qed.

Lemma events_subprocess_call exe pdf_path output_path :
  preserves (only_events P) (subprocess_call E exe pdf_path output_path).
Proof.
  intros w r w'. unfold subprocess_call.
  destruct (ghostscript E exe _) as [[code [b|]]|]; intros [= <- <-];
    by apply only_events_same.
Qed.

Lemma events_shutil_move src dst : preserves (only_events P) (shutil_move E src dst).
Proof.
  intros w r w'. unfold shutil_move. destruct (fs w !! src).
  - destruct (writable E dst); intros [= <- <-]; by apply only_events_same.
  - intros [= <- <-]. by apply only_events_same.
Qed.

Lemma events_shutil_copy src dst : preserves (only_events P) (shutil_copy E src dst).
Proof.
  intros w r w'. unfold shutil_copy. destruct (fs w !! src).
  - case_decide; [|destruct (writable E dst)]; intros [= <- <-];
      by apply only_events_same.
  - intros [= <- <-]. by apply only_events_same.
Qed.

Lemma events_update_status base msg : preserves (only_events P) (update_status base msg).
Proof. intros w r w' [= <- <-]. by apply only_events_snoc. Qed.

Lemma events_log e : P e → preserves (only_events P) (log e).
Proof. intros He w r w' [= <- <-]. by apply only_events_snoc. Qed.

Local Hint Resolve events_doc_save events_subprocess_call events_shutil_move
  events_shutil_copy events_update_status events_log : effects.

Lemma events_gs_loop cmds pdf_path output_path :
  preserves (only_events P) (gs_loop E cmds pdf_path output_path).
Proof. induction cmds as [|exe rest IH]; simpl; preserves_tac. Qed.

Lemma events_strategy s pdf_path output_path :
  P (Invoke s pdf_path output_path) →
  preserves (only_events P) (strategy_fn E s pdf_path output_path).
Proof.
  intros Hs. destruct s; simpl.
  - unfold compress_standard_gs.
    apply preserves_bind; [apply _|by apply events_log|]. intros _.
    apply events_gs_loop.
  - unfold compress_pymupdf_optimize.
    apply preserves_bind; [apply _|by apply events_log|]. preserves_tac.
  - unfold compress_binary_bw.
    apply preserves_bind; [apply _|by apply events_log|]. preserves_tac.
    apply bw_pages_unchanged; apply _.
Qed.

Lemma events_output_stage output_folder split_mb act pdf_path base_name base src final :
  preserves (only_events P)
    (output_stage E output_folder split_mb act pdf_path base_name base src final).
Proof.
  unfold output_stage. destruct (OsPath.str_contains "Split" act).
  - apply preserves_bind; [apply _|preserves_tac|]. intros _.
    apply preserves_bind; [apply _|preserves_tac|]. intros target_bytes.
    apply preserves_bind; [apply _| |preserves_tac].
    apply preserves_split_pdf;
      [apply _|apply events_doc_save|apply events_trial_save].
  - preserves_tac.
Qed.

End EventsFacts.

Lemma run_strategy_allowed E act clevel pdf_path temp_comp :
  should_compress act = true →
  preserves (only_events (allowed_event act clevel))
    (run_strategy E clevel pdf_path temp_comp).
Proof.
  intros Hact. unfold run_strategy. case_decide as Hx.
  - change (compress_binary_bw E) with (strategy_fn E Binarize).
    by apply events_strategy.
  - case_decide as Hs; [|apply preserves_ret; apply _].
    apply preserves_bind; [apply _| |].
    + change (compress_standard_gs E) with (strategy_fn E ExternalGS).
      by apply events_strategy.
    + intros [|]; simpl; [apply preserves_ret; apply _|].
      change (compress_pymupdf_optimize E) with (strategy_fn E ContainerOptimize).
      by apply events_strategy.
Qed.

Lemma process_file_allowed E output_folder split_mb act clevel pdf_path :
  preserves (only_events (allowed_event act clevel))
    (process_file E output_folder split_mb act clevel pdf_path).
Proof.
  assert (∀ f m, allowed_event act clevel (Status f m)) as Hst by done.
  unfold process_file.
  apply preserves_bind; [apply _|by apply events_update_status|]. intros _.
  apply preserves_try; [apply _| |intros; by apply events_update_status].
  unfold process_body. apply preserves_bind; [apply _| |].
  - unfold compress_stage. destruct (should_compress act) eqn:Hact;
      [|apply preserves_ret; apply _].
    apply preserves_bind; [apply _|by apply events_update_status|]. intros _.
    apply preserves_bind; [apply _|by apply run_strategy_allowed|].
    preserves_tac.
  - intros src. by apply events_output_stage.
Qed.

(** X1: which compression functions a batch can call is fixed by the
    settings: the events a batch adds to the trace hold a call of a
    strategy only when the action is one that compresses, a call of
    [compress_binary_bw] only at level "Extreme (B&W)", and a call of
    [compress_standard_gs] or [compress_pymupdf_optimize] only at level
    "Standard (GS)".  So "Split Only" compresses nothing, the extreme level
    has no fallback, and an unknown level calls no strategy. *)
Theorem strategy_calls_follow_settings (E : Env) (output_folder : string)
    (split_mb : float) (act clevel : string) (files : list string) (w : World) :
  ∃ new,
    trace (after (run_files E output_folder split_mb act clevel files) w)
    = trace w ++ new
    ∧ ∀ s pdf_path output_path,
        Invoke s pdf_path output_path ∈ new →
        should_compress act = true
        ∧ (s = Binarize → clevel = "Extreme (B&W)")
        ∧ (s ≠ Binarize → clevel = "Standard (GS)").
Proof.
  assert (preserves (only_events (allowed_event act clevel))
            (run_files E output_folder split_mb act clevel files)) as Hrun.
  { induction files as [|f rest IH]; simpl; [apply preserves_ret; apply _|].
    apply preserves_bind; [apply _|apply process_file_allowed|]. intros _. apply IH. }
  destruct (Hrun w _ _ (surjective_pairing _)) as (new & Hnew & Hall).
  exists new. split; [exact Hnew|].
  intros s p o Hin. rewrite Forall_forall in Hall.
  destruct (Hall _ Hin) as [Hact Hlevel]. split; [done|].
  destruct s; split; intros; congruence.
Qed.

(** ** The compression methods, one by one *)

Lemma bw_page_world E page w r w' : bw_page E page w = (r, w') → w' = w.
Proof.
  unfold bw_page, bind, of_option, ret, raise.
  destruct (get_pixmap E page 200) as [pix|]; [|by intros [= <- <-]].
  destruct (convert_L E pix) as [img|]; [|by intros [= <- <-]].
  destruct (png_save E _) as [img_bytes|]; by intros [= <- <-].
Qed.

Lemma bw_pages_world E pages : ∀ new_pdf w r w',
  bw_pages E pages new_pdf w = (r, w') → w' = w.
Proof.
  induction pages as [|page rest IH]; intros new_pdf w r w'; simpl.
  - by intros [= <- <-].
  - unfold bind. destruct (bw_page E page w) as [[pg|e|] w1] eqn:Hpg;
      apply bw_page_world in Hpg as ->.
    + apply IH.
    + by intros [= <- <-].
    + by intros [= <- <-].
Qed.

Lemma gs_loop_true E cmds pdf_path output_path : ∀ w w',
  gs_loop E cmds pdf_path output_path w = (Ok true, w') →
  ∃ b, fs w' !! output_path = Some b ∧ b ≠ [].
Proof.
  induction cmds as [|exe rest IH]; intros w w'; simpl; [done|].
  intros Hrun. apply bind_ok in Hrun as (success & w1 & Htry & Hrun).
  destruct success; [|by eapply IH].
  injection Hrun as <-. unfold try_except in Htry.
  destruct (bind _ _ w) as [[ok|e|] w2] eqn:Hbody; simplify_eq.
  apply bind_ok in Hbody as (code & w3 & _ & Hbody).
  apply bind_ok in Hbody as (present & w4 & [= <- <-] & Hbody).
  apply bind_ok in Hbody as (size & w5 & [= <- <-] & [= Hflags <-]).
  apply andb_true_iff in Hflags as [_ Hsize]. unfold file_size in Hsize.
  destruct (fs w3 !! output_path) as [b|]; [|done].
  exists b. split; [done|]. by intros ->.
Qed.

Lemma gs_loop_unavailable E cmds pdf_path output_path w :
  (∀ exe, exe ∈ cmds → ghostscript E exe (fs w !! pdf_path) = None) →
  gs_loop E cmds pdf_path output_path w = (Ok false, w).
Proof.
  induction cmds as [|exe rest IH]; intros Hnone; simpl; [done|].
  assert (subprocess_call E exe pdf_path output_path w = (Raise OSError, w)) as Hcall.
  { unfold subprocess_call. rewrite Hnone; [done|]. apply list_elem_of_here. }
  unfold bind at 1, try_except, bind at 1. rewrite Hcall. simpl.
  apply IH. intros exe' Hin. apply Hnone. by apply list_elem_of_further.
Qed.

(** X2: none of the three compression functions lets an exception out:
    each returns a boolean; and each leaves every file other than the one
    at [output_path] exactly as it was, the input included when the two
    paths differ. *)
Theorem strategies_return_and_spare_other_files (E : Env) (s : Strategy)
    (pdf_path output_path : string) (w : World) :
  ∃ ok w',
    strategy_fn E s pdf_path output_path w = (Ok ok, w')
    ∧ ∀ q, q ≠ output_path → fs w' !! q = fs w !! q.
Proof.
  destruct s; simpl.
  - destruct (compress_standard_gs_total E pdf_path output_path w) as (ok & w' & H).
    exists ok, w'. split; [done|]. by apply compress_standard_gs_frame in H.
  - destruct (compress_pymupdf_optimize_total E pdf_path output_path w)
      as (ok & w' & H).
    exists ok, w'. split; [done|]. by apply compress_pymupdf_optimize_frame in H.
  - destruct (compress_binary_bw_total E pdf_path output_path w) as (ok & w' & H).
    exists ok, w'. split; [done|]. by apply compress_binary_bw_frame in H.
Qed.

(** X3: [compress_standard_gs] returns [True] only with a file of nonzero
    size at [output_path]. *)
Theorem gs_success_means_output (E : Env) (pdf_path output_path : string)
    (w w' : World) :
  compress_standard_gs E pdf_path output_path w = (Ok true, w') →
  ∃ b, fs w' !! output_path = Some b ∧ b ≠ [].
Proof.
  unfold compress_standard_gs. intros Hrun.
  apply bind_ok in Hrun as ([] & w1 & _ & Hrun). by eapply gs_loop_true.
Qed.

(** X4: when none of the three executables can be launched,
    [compress_standard_gs] returns [False] and no file has changed. *)
Theorem gs_unavailable (E : Env) (pdf_path output_path : string) (w : World) :
  (∀ exe, exe ∈ gs_commands → ghostscript E exe (fs w !! pdf_path) = None) →
  ∃ w', compress_standard_gs E pdf_path output_path w = (Ok false, w')
        ∧ fs w' = fs w.
Proof.
  intros Hnone. eexists.
  unfold compress_standard_gs. erewrite bind_eq; [|reflexivity].
  rewrite gs_loop_unavailable; [done|]. intros exe Hexe. simpl. by apply Hnone.
Qed.

(** X5: [compress_standard_gs] does not clear [output_path] before it
    runs: when the first executable exits with code 0 without writing and
    a file of nonzero size is already at [output_path], the function
    returns [True] on that old file. *)
Theorem gs_accepts_stale_output (E : Env) (pdf_path output_path : string)
    (w : World) (old : bytes) :
  ghostscript E "gswin64c" (fs w !! pdf_path) = Some (0, None) →
  fs w !! output_path = Some old → old ≠ [] →
  ∃ w', compress_standard_gs E pdf_path output_path w = (Ok true, w')
        ∧ fs w' = fs w.
Proof.
  intros Hgs Hold Hne. eexists.
  unfold compress_standard_gs, bind at 1, log. simpl.
  unfold bind, try_except, subprocess_call, path_exists, get_file_size, file_size.
  simpl. rewrite Hgs. simpl. rewrite Hold.
  rewrite bool_decide_eq_true_2 by eauto. simpl.
  destruct old; [done|]. simpl. done.
Qed.

(** X6: [compress_pymupdf_optimize] returns [True] exactly when it wrote
    the output, and what it wrote is the serialization of the document the
    input opens as; when it returns [False] no file has changed. *)
Theorem optimize_writes_reserialized_input (E : Env)
    (pdf_path output_path : string) (w : World) :
  ∃ ok w',
    compress_pymupdf_optimize E pdf_path output_path w = (Ok ok, w')
    ∧ if ok then
        ∃ input doc b,
          fs w !! pdf_path = Some input ∧ pdf_parse E input = Some doc
          ∧ pdf_write E doc = Some b ∧ fs w' = <[output_path := b]> (fs w)
      else fs w' = fs w.
Proof.
  unfold compress_pymupdf_optimize, bind, log, try_except, fitz_open, doc_save, ret.
  simpl.
  destruct (fs w !! pdf_path) as [input|] eqn:Hin; [|by eexists _, _].
  destruct (pdf_parse E input) as [doc|] eqn:Hdoc; [|by eexists _, _].
  destruct (writable E output_path); [|by eexists _, _].
  destruct (pdf_write E doc) as [b|] eqn:Hb; [|by eexists _, _].
  eexists _, _. split; [done|]. by exists input, doc, b.
Qed.

(** X7: [compress_binary_bw] saves only after every page went through:
    when it returns [False] no file has changed, and it returns [False]
    for an input that cannot be opened and whenever a page fails to
    render, to convert or to encode. *)
Theorem binarization_failure_writes_nothing (E : Env)
    (pdf_path output_path : string) (w : World) :
  ∃ ok w',
    compress_binary_bw E pdf_path output_path w = (Ok ok, w')
    ∧ (ok = false → fs w' = fs w)
    ∧ (fs w !! pdf_path ≫= pdf_parse E = None → ok = false)
    ∧ (∀ doc page,
         fs w !! pdf_path ≫= pdf_parse E = Some doc → page ∈ doc →
         (∀ pdf_page, ¬ bw_page_of E page pdf_page) → ok = false).
Proof.
  unfold compress_binary_bw, bind at 1, log. simpl. unfold try_except.
  set (w1 := mkWorld _ _ _).
  destruct (bind (fitz_open E pdf_path) _ w1) as [[ok|e|] w2] eqn:Hbody.
  - apply bind_ok in Hbody as (doc & w3 & Hopen & Hbody).
    assert (fs w !! pdf_path ≫= pdf_parse E = Some doc ∧ w3 = w1) as [Hdoc ->].
    { unfold fitz_open in Hopen. simpl in Hopen.
      destruct (fs w !! pdf_path) as [input|]; [|done]. simpl.
      destruct (pdf_parse E input); by simplify_eq. }
    apply bind_ok in Hbody as (new_pdf & w4 & Hpages & Hbody).
    apply bw_pages_ok in Hpages as [-> (new & -> & Hnew)].
    apply bind_ok in Hbody as ([] & w5 & Hsave & [= <- <-]).
    eexists _, _. split; [done|]. split_and!; [done|by rewrite Hdoc|].
    intros doc' page Hdoc' Hpage Hnone. exfalso.
    assert (doc' = doc) as -> by congruence.
    apply list_elem_of_lookup in Hpage as [i Hi].
    destruct (Forall2_lookup_l _ _ _ _ _ Hnew Hi) as (pg & _ & Hpg).
    by eapply Hnone.
  - eexists _, _. split; [done|]. split_and!; [|done..]. intros _.
    unfold bind in Hbody.
    destruct (fitz_open E pdf_path w1) as [[doc|e1|] w3] eqn:Hopen.
    + assert (w3 = w1) as ->.
      { unfold fitz_open in Hopen. repeat case_match; by simplify_eq. }
      destruct (bw_pages E doc [] w1) as [[new_pdf|e2|] w4] eqn:Hpages;
        apply bw_pages_world in Hpages as ->.
      * unfold doc_save in Hbody. repeat case_match; by simplify_eq.
      * by simplify_eq.
      * by simplify_eq.
    + unfold fitz_open in Hopen. repeat case_match; by simplify_eq.
    + by simplify_eq.
  - exfalso. revert Hbody.
    apply fuel_free_bind; [apply fuel_free_fitz_open|]. intros doc.
    apply fuel_free_bind; [apply fuel_free_bw_pages|]. intros new_pdf.
    apply fuel_free_bind; [apply fuel_free_doc_save|]. intros _.
    apply fuel_free_ret.
Qed.

(** ** One pass of the pipeline *)

Lemma same_rows_status w w' base :
  row_file <$> tree w' = row_file <$> tree w →
  is_Some (status_of (tree w) base) → is_Some (status_of (tree w') base).
Proof. apply status_of_same_rows. Qed.

(** A computation that ends with a call of [update_status] leaves its
    message as the last event and as the status of the file. *)
Lemma ends_with_status {A} (m : M A) base msg w w' :
  (a <- m ;; update_status base msg) w = (Ok tt, w') →
  last (trace w') = Some (Status base msg)
  ∧ ∃ w1, tree w' = set_status (tree w1) base msg
          ∧ ∃ a, m w = (Ok a, w1).
Proof.
  intros Hrun. apply bind_ok in Hrun as (a & w1 & Hm & [= <-]). simpl.
  split; [by rewrite last_snoc|]. exists w1. split; [done|]. by exists a.
Qed.

Lemma output_stage_ok E output_folder split_mb act pdf_path base_name base src final
    w w' :
  output_stage E output_folder split_mb act pdf_path base_name base src final w
    = (Ok tt, w') →
  let msg := if OsPath.str_contains "Split" act then "Done (Split)"
             else "Done (Saved)" in
  last (trace w') = Some (Status base_name msg)
  ∧ ∃ w1, tree w' = set_status (tree w1) base_name msg.
Proof.
  unfold output_stage. destruct (OsPath.str_contains "Split" act); simpl.
  - intros Hrun. apply bind_ok in Hrun as ([] & w1 & _ & Hrun).
    apply bind_ok in Hrun as (tb & w2 & _ & Hrun).
    apply ends_with_status in Hrun as (Hlast & w3 & Htree & _). eauto.
  - intros Hrun. apply ends_with_status in Hrun as (Hlast & w3 & Htree & _). eauto.
Qed.

(** X8: every pass over a file ends with one of the three terminal
    statuses as its last event and, the table having a row for the file,
    as the status of the file: "Done (Split)" when the action holds
    "Split", "Done (Saved)" when it does not, "Error" in either case. *)
Theorem pass_ends_with_terminal_status (E : Env) (output_folder : string)
    (split_mb : float) (act clevel pdf_path : string) (w : World) :
  let base_name := OsPath.basename pdf_path in
  let w' := after (process_file E output_folder split_mb act clevel pdf_path) w in
  ∃ msg,
    (msg = "Error"
     ∨ msg = (if OsPath.str_contains "Split" act then "Done (Split)"
              else "Done (Saved)"))
    ∧ process_file E output_folder split_mb act clevel pdf_path w = (Ok tt, w')
    ∧ last (trace w') = Some (Status base_name msg)
    ∧ (is_Some (status_of (tree w) base_name) →
       status_of (tree w') base_name = Some msg).
Proof.
  intros base_name w'. subst w'. unfold after, process_file. fold base_name.
  unfold bind at 1 2 3 4. simpl. unfold try_except.
  set (w1 := mkWorld _ _ _).
  assert (is_Some (status_of (tree w) base_name) →
          is_Some (status_of (tree w1) base_name)) as Hrow1.
  { intros Hrow. apply (same_rows_status w); [|done].
    simpl. apply set_status_files. }
  destruct (process_body E output_folder split_mb act clevel pdf_path base_name w1)
    as [[[]|e|] w2] eqn:Hbody.
  - pose proof Hbody as Hrows. apply process_body_same_rows in Hrows.
    unfold process_body in Hbody.
    apply bind_ok in Hbody as (src & w3 & _ & Hout).
    apply output_stage_ok in Hout as (Hlast & w4 & Htree).
    eexists. split; [by right|]. simpl. split_and!; [done..|].
    intros Hrow. rewrite Htree. apply status_of_set_status.
    apply (same_rows_status w2).
    { rewrite Htree. by rewrite set_status_files. }
    apply (same_rows_status w1); [exact Hrows|]. by apply Hrow1.
  - exists "Error". split; [by left|]. simpl. split_and!; [done|by rewrite last_snoc|].
    intros Hrow. apply status_of_set_status.
    apply process_body_same_rows in Hbody.
    apply (same_rows_status w1); [exact Hbody|]. by apply Hrow1.
  - by apply process_body_fuel_free in Hbody.
Qed.


(** X9: [run_process] checks the selection before it touches anything.
    With no file selected, or with files but no output folder, it only
    shows its error box; with a size that is not a number it raises
    [ValueError] with the world as it was.  In none of these cases is a
    file, a status or the trace of calls changed. *)
Theorem run_process_refuses (E : Env) (app : App) (w : World) :
  (pdf_list app = [] →
   run_process E app w
   = (Ok tt, mkWorld (fs w) (tree w)
               (trace w ++ [Dialog "showerror" "Error" "No files selected."])))
  ∧ (pdf_list app ≠ [] → output_dir_var app = "" →
     run_process E app w
     = (Ok tt, mkWorld (fs w) (tree w)
                 (trace w ++ [Dialog "showerror" "Error"
                                "Please select an output folder."])))
  ∧ (pdf_list app ≠ [] → output_dir_var app ≠ "" →
     py_float E (size_var app) = None →
     run_process E app w = (Raise ValueError, w)).
Proof.
  unfold run_process. split_and!.
  - intros ->. by rewrite decide_True.
  - intros Hl ->. rewrite decide_False by done. by rewrite decide_True.
  - intros Hl Hd Hf. rewrite !decide_False by done. by rewrite Hf.
Qed.

(** X10: a listed file that does not exist, in an action that does not
    compress: the pass ends with "Error" and no file has changed. *)
Theorem missing_input_is_an_error (E : Env) (output_folder : string)
    (split_mb : float) (act clevel pdf_path : string) (w : World) :
  should_compress act = false → fs w !! pdf_path = None →
  ∃ w',
    process_file E output_folder split_mb act clevel pdf_path w = (Ok tt, w')
    ∧ fs w' = fs w
    ∧ last (trace w') = Some (Status (OsPath.basename pdf_path) "Error").
Proof.
  intros Hact Hmissing. unfold process_file.
  unfold bind at 1. simpl. unfold try_except, process_body.
  erewrite bind_eq; [|by apply compress_stage_skipped].
  unfold output_stage. destruct (OsPath.str_contains "Split" act).
  - unfold bind at 1. simpl.
    destruct (py_int _) as [e|target_bytes]; simpl.
    + eexists. split; [done|]. simpl. by rewrite last_snoc.
    + unfold bind at 1, ret at 1. unfold bind at 1.
      unfold split_pdf, bind at 1, split_parts, bind at 1, fitz_open. simpl.
      rewrite Hmissing. eexists. split; [done|]. simpl. by rewrite last_snoc.
  - rewrite decide_False by (by intros ?).
    unfold bind at 1, shutil_copy. simpl. rewrite Hmissing.
    eexists. split; [done|]. simpl. by rewrite last_snoc.
Qed.

(** ** The status table *)

Lemma set_status_absent rows base msg :
  Forall (λ r, row_file r ≠ base) rows → set_status rows base msg = rows.
Proof.
  induction 1 as [|r rest Hr _ IH]; [done|]. simpl.
  rewrite decide_False by done. by rewrite IH.
Qed.

Lemma set_status_first rows1 r rows2 base msg :
  Forall (λ r, row_file r ≠ base) rows1 → row_file r = base →
  set_status (rows1 ++ r :: rows2) base msg
  = rows1 ++ mkRow (row_file r) (row_size r) msg :: rows2.
Proof.
  intros Hpre Hr. induction Hpre as [|r1 rest Hr1 _ IH]; simpl.
  - by rewrite decide_True.
  - rewrite decide_False by done. by rewrite IH.
Qed.

(** X11: [update_status] changes the first row of the file and nothing
    else: rows before it and rows after it, also rows of the same file
    name, keep their status; with no row for the file the table is left
    as it is.  No file is touched. *)
Theorem update_status_first_row_only (filename_base msg : string) (w : World) :
  let w' := after (update_status filename_base msg) w in
  fs w' = fs w
  ∧ (Forall (λ r, row_file r ≠ filename_base) (tree w) → tree w' = tree w)
  ∧ (∀ rows1 r rows2,
       tree w = rows1 ++ r :: rows2 →
       Forall (λ r, row_file r ≠ filename_base) rows1 →
       row_file r = filename_base →
       tree w' = rows1 ++ mkRow (row_file r) (row_size r) msg :: rows2).
Proof.
  simpl. split_and!; [done| |].
  - apply set_status_absent.
  - intros rows1 r rows2 -> Hpre Hr. by apply set_status_first.
Qed.

(* ------------------------------------------------------------------ *)
(** * File names of the splitter *)
(* ------------------------------------------------------------------ *)

Module NameFacts.
Import OsPath OsPathFacts.

Lemma str_length_app s t :
  String.length (s +:+ t) = (String.length s + String.length t)%nat.
Proof.
  induction s as [|a r IH]; [done|].
  unfold String.app in *; simpl. by rewrite IH.
Qed.

Lemma str_app_inv_r s1 s2 t : s1 +:+ t = s2 +:+ t → s1 = s2.
Proof.
  revert s2. induction s1 as [|a r IH]; intros [|b r2] Heq; [done| | |].
  - apply (f_equal String.length) in Heq.
    rewrite !str_length_app in Heq. simpl in Heq. lia.
  - apply (f_equal String.length) in Heq.
    rewrite !str_length_app in Heq. simpl in Heq. lia.
  - change (String a (r +:+ t) = String b (r2 +:+ t)) in Heq.
    injection Heq as -> Heq. f_equal. by apply IH.
Qed.

Lemma count_char_app c s t :
  count_char c (s +:+ t) = (count_char c s + count_char c t)%nat.
Proof.
  induction s as [|a r IH]; [done|].
  change (String a r +:+ t) with (String a (r +:+ t)). simpl.
  rewrite IH. lia.
Qed.

Lemma count_char_absent c s : has_char c s = false → count_char c s = 0%nat.
Proof.
  induction s as [|a r IH]; [done|]. simpl.
  intros [-> Hr]%orb_false_iff. by rewrite IH.
Qed.

(** ** Decimal numerals *)

Lemma pretty_N_go_chars c x : ∀ s,
  (∀ d, pretty_N_char d ≠ c) → has_char c s = false →
  has_char c (pretty_N_go x s) = false.
Proof.
  induction (N.lt_wf_0 x) as [x _ IH]; intros s Hc Hs.
  assert (x = 0 ∨ 0 < x)%N as [->|Hx] by lia.
  - by rewrite pretty_N_go_0.
  - rewrite pretty_N_go_step by done. apply IH; [by apply N.div_lt|done|].
    simpl. rewrite Hs, orb_false_r. apply Ascii.eqb_neq, Hc.
Qed.

(** A character that is not a digit does not occur in a numeral. *)
Lemma pretty_nat_chars c (n : nat) :
  (∀ d, pretty_N_char d ≠ c) → has_char c (pretty n) = false.
Proof.
  intros Hc. unfold pretty, pretty_nat, pretty, pretty_N.
  case_decide.
  - change (has_char c "0") with (Ascii.eqb (pretty_N_char 0) c || false).
    rewrite orb_false_r. apply Ascii.eqb_neq, Hc.
  - by apply pretty_N_go_chars.
Qed.

Lemma digit_ne_sep d : pretty_N_char d ≠ sep.
Proof. unfold pretty_N_char. by repeat case_match. Qed.

Lemma digit_ne_l d : pretty_N_char d ≠ "l"%char.
Proof. unfold pretty_N_char. by repeat case_match. Qed.

(** ** [join] keeps what follows a common start of the last component *)

Lemma startswith_sep_app b c s :
  startswith_sep (b +:+ String c s)
  = match b with EmptyString => Ascii.eqb c sep | _ => startswith_sep b end.
Proof. by destruct b. Qed.

Lemma join_app_inj a b c s1 s2 :
  join a (b +:+ String c s1) = join a (b +:+ String c s2) → s1 = s2.
Proof.
  unfold join. rewrite !startswith_sep_app.
  destruct (match b with EmptyString => Ascii.eqb c sep | _ => startswith_sep b end).
  - intros Heq. apply (inj (String.app b)) in Heq. by injection Heq.
  - destruct (String.eqb a "" || endswith_sep a).
    + intros Heq. apply (inj (String.app a)), (inj (String.app b)) in Heq.
      by injection Heq.
    + intros Heq. apply (inj (String.app a)) in Heq. injection Heq as Heq.
      apply (inj (String.app b)) in Heq. by injection Heq.
Qed.

(** ** [splitext] on a name that ends in [.pdf] *)

Lemma str_take_app s t : str_take (String.length s) (s +:+ t) = s.
Proof.
  induction s as [|a r IH]; [by destruct t|].
  change (String a r +:+ t) with (String a (r +:+ t)). simpl. by rewrite IH.
Qed.

Lemma str_drop_app s t : str_drop (String.length s) (s +:+ t) = t.
Proof.
  induction s as [|a r IH]; [done|].
  change (String a r +:+ t) with (String a (r +:+ t)). simpl. by rewrite IH.
Qed.

Lemma rfind_app_last c s t :
  has_char c t = false →
  rfind c (s +:+ String c t) = Z.of_nat (String.length s).
Proof.
  intros Ht. induction s as [|a r IH].
  - change (rfind c (String c t) = 0). simpl.
    apply rfind_absent in Ht. rewrite Ht. simpl. by rewrite Ascii.eqb_refl.
  - change (String a r +:+ String c t) with (String a (r +:+ String c t)).
    simpl rfind. rewrite IH.
    destruct (Z.leb_spec 0 (Z.of_nat (String.length r))); [|lia].
    simpl String.length. lia.
Qed.

Lemma splitext_pdf x :
  has_char sep x = false → all_dots x = false →
  splitext (x +:+ ".pdf") = (x, ".pdf").
Proof.
  intros Hsep Hdots. unfold splitext.
  assert (rfind sep (x +:+ ".pdf") = -1) as ->.
  { apply rfind_absent. by rewrite has_char_app, Hsep. }
  change ".pdf" with (String extsep "pdf").
  rewrite rfind_app_last by done.
  rewrite Nat2Z.id. simpl Z.to_nat. rewrite str_take_app, str_drop_app.
  simpl str_drop. rewrite Hdots.
  destruct (Z.ltb_spec (-1) (Z.of_nat (String.length x))); [done|lia].
Qed.

Lemma all_dots_app s t : all_dots (s +:+ t) = all_dots s && all_dots t.
Proof.
  induction s as [|a r IH]; [done|].
  change (String a r +:+ t) with (String a (r +:+ t)). simpl.
  rewrite IH. apply andb_assoc.
Qed.

End NameFacts.

Section SplitNames.

Context (E : Env).
Variables (output_folder base_name : string).

(** Parts of different numbers are written to different files. *)
Lemma out_path_inj i j :
  out_path output_folder base_name i = out_path output_folder base_name j → i = j.
Proof.
  unfold out_path. intros Heq.
  apply (NameFacts.join_app_inj _ _ "_"%char) in Heq.
  apply (inj (String.app "part")) in Heq.
  apply NameFacts.str_app_inv_r in Heq. by apply (inj pretty) in Heq.
Qed.

Lemma out_path_basename i :
  OsPath.has_char OsPath.sep base_name = false →
  OsPath.basename (out_path output_folder base_name i)
  = base_name +:+ "_part" +:+ pretty i +:+ ".pdf".
Proof.
  intros Hbase. unfold out_path. apply OsPathFacts.basename_join.
  rewrite !OsPathFacts.has_char_app, Hbase.
  by rewrite (NameFacts.pretty_nat_chars _ _ NameFacts.digit_ne_sep).
Qed.

Lemma trial_path_basename :
  OsPath.has_char OsPath.sep base_name = false →
  OsPath.basename (trial_path E base_name) = "__trial_" +:+ base_name +:+ ".pdf".
Proof.
  intros Hbase. unfold trial_path. apply OsPathFacts.basename_join.
  by rewrite !OsPathFacts.has_char_app, Hbase.
Qed.

(** The trial file is not one of the part files. *)
Lemma trial_ne_out i :
  OsPath.has_char OsPath.sep base_name = false →
  trial_path E base_name ≠ out_path output_folder base_name i.
Proof.
  intros Hbase Heq. apply (f_equal OsPath.basename) in Heq.
  rewrite trial_path_basename, out_path_basename in Heq by done.
  apply (f_equal (count_char "l")) in Heq.
  rewrite !NameFacts.count_char_app in Heq.
  rewrite (NameFacts.count_char_absent "l" (pretty i)) in Heq
    by apply NameFacts.pretty_nat_chars, NameFacts.digit_ne_l.
  simpl in Heq. lia.
Qed.

End SplitNames.

(** Neither the trial file nor a part file of a pass is the input file. *)
Lemma out_ne_source output_folder pdf_path i :
  out_path output_folder (OsPath.stem pdf_path) i ≠ pdf_path.
Proof.
  unfold out_path.
  apply (OsPathFacts.derived_ne_source _ _ "_"%char); [done|].
  change (OsPath.has_char OsPath.sep ("_part" +:+ pretty i +:+ ".pdf") = false).
  rewrite !OsPathFacts.has_char_app.
  by rewrite (NameFacts.pretty_nat_chars _ _ NameFacts.digit_ne_sep).
Qed.

Lemma trial_ne_source E pdf_path : trial_path E (OsPath.stem pdf_path) ≠ pdf_path.
Proof.
  intros Heq.
  pose proof (OsPathFacts.stem_no_sep pdf_path) as Hsep.
  assert (OsPath.basename pdf_path
          = ("__trial_" +:+ OsPath.stem pdf_path) +:+ ".pdf") as Hb.
  { rewrite <- Heq at 1. rewrite trial_path_basename by done.
    by rewrite OsPathFacts.app_assoc_str. }
  assert (OsPath.stem pdf_path = "__trial_" +:+ OsPath.stem pdf_path) as Hstem.
  { unfold OsPath.stem at 1. rewrite Hb, NameFacts.splitext_pdf; [done| |].
    - by rewrite OsPathFacts.has_char_app, Hsep.
    - by rewrite NameFacts.all_dots_app. }
  apply (f_equal String.length) in Hstem.
  rewrite NameFacts.str_length_app in Hstem. simpl in Hstem. lia.
Qed.

(* ------------------------------------------------------------------ *)
(** * The files of the splitter *)
(* ------------------------------------------------------------------ *)

Global Instance only_paths_preorder P : PreOrder (only_paths P).
Proof.
  split; [by intros w q|].
  intros w1 w2 w3 H12 H23 q Hq. by rewrite H23, H12.
Qed.

Lemma preserves_weaken {A} (R R' : World → World → Prop) (m : M A) :
  (∀ w w', R w w' → R' w w') → preserves R m → preserves R' m.
Proof. intros Himp Hm w r w' Hrun. by eapply Himp, Hm. Qed.

Lemma frame_only_paths (P : string → Prop) path w w' :
  P path → frame path w w' → only_paths P w w'.
Proof. intros HP Hf q Hq. apply Hf. by intros ->. Qed.

Lemma only_paths_weaken (P Q : string → Prop) w w' :
  (∀ q, P q → Q q) → only_paths P w w' → only_paths Q w w'.
Proof. intros Himp HP q Hq. apply HP. by intros ?%Himp. Qed.

Lemma same_files_only_paths P w w' : fs w' = fs w → only_paths P w w'.
Proof. intros Heq q _. by rewrite Heq. Qed.

Lemma paths_doc_save E (P : string → Prop) pages path :
  P path → preserves (only_paths P) (doc_save E pages path).
Proof.
  intros HP. eapply preserves_weaken; [|apply doc_save_frame].
  intros w w'. by apply frame_only_paths.
Qed.

Lemma paths_trial_save E (P : string → Prop) pages path :
  P path → preserves (only_paths P) (trial_save E pages path).
Proof.
  intros HP. eapply preserves_weaken; [|apply trial_save_frame].
  intros w w'. by apply frame_only_paths.
Qed.

(** The loops of the splitter save to the trial path and to the paths of
    the parts from the current number on. *)
Section SplitPaths.

Context (E : Env) (R : World → World → Prop) `{!PreOrder R}.
Variables (output_folder base_name : string) (max_size_bytes : Z).

Hypothesis save_trial :
  ∀ pages, preserves R (trial_save E pages (trial_path E base_name)).

Lemma numbered_inner_loop doc fuel : ∀ part_doc p,
  preserves R (inner_loop E doc base_name max_size_bytes fuel part_doc p).
Proof.
  induction fuel as [|fuel IH]; intros part_doc p; simpl;
    destruct (p <? length doc)%nat;
    try (apply preserves_ret; apply _); try (apply preserves_out_of_fuel; apply _).
  apply preserves_bind; [apply _|apply preserves_copy_page; apply _|]. intros temp.
  destruct (length part_doc =? 0)%nat; [apply IH|].
  apply preserves_bind; [apply _|apply save_trial|]. intros _.
  apply preserves_bind; [apply _|apply preserves_get_file_size; apply _|]. intros sz.
  destruct (sz >? max_size_bytes); [apply preserves_ret; apply _|apply IH].
Qed.

Variable lo : nat.
Hypothesis save_out : ∀ pages i,
  (lo ≤ i)%nat →
  preserves R (doc_save E pages (out_path output_folder base_name i)).

Lemma numbered_build_part doc fuel start idx :
  (lo ≤ idx)%nat →
  preserves R (build_part E doc output_folder base_name max_size_bytes
                          fuel start idx).
Proof.
  intros Hidx. unfold build_part.
  apply preserves_bind; [apply _|apply numbered_inner_loop|]. intros [part_doc p].
  apply preserves_bind; [apply _|by apply save_out|]. intros _. apply preserves_ret; apply _.
Qed.

Lemma numbered_outer_loop doc fuel_in fuel : ∀ start idx outputs,
  (lo ≤ idx)%nat →
  preserves R (outer_loop E doc output_folder base_name max_size_bytes
                          fuel fuel_in start idx outputs).
Proof.
  induction fuel as [|fuel IH]; intros start idx outputs Hidx; simpl;
    destruct (start <? length doc)%nat;
    try (apply preserves_ret; apply _); try (apply preserves_out_of_fuel; apply _).
  apply preserves_bind; [apply _|by apply numbered_build_part|].
  intros [part p]. apply IH. lia.
Qed.

End SplitPaths.

Lemma outer_loop_paths E doc output_folder base_name max_size_bytes
    fuel fuel_in start idx outputs :
  preserves (only_paths (split_file E output_folder base_name idx))
    (outer_loop E doc output_folder base_name max_size_bytes
                fuel fuel_in start idx outputs).
Proof.
  apply (numbered_outer_loop E _ output_folder base_name max_size_bytes) with idx;
    [|intros pages i Hi|done].
  - intros pages. apply paths_trial_save. by left.
  - apply paths_doc_save. right. eauto.
Qed.

Lemma split_pdf_paths E pdf_path output_folder base_name max_size_bytes :
  preserves (only_paths (split_file E output_folder base_name 1))
    (split_pdf E pdf_path output_folder base_name max_size_bytes).
Proof.
  unfold split_pdf, split_parts.
  apply preserves_bind; [apply _| |intros parts; apply preserves_ret; apply _].
  apply preserves_bind; [apply _|apply preserves_fitz_open; apply _|]. intros doc.
  apply outer_loop_paths.
Qed.

(** X12: however [split_pdf] ends, with its list of paths or with an
    exception, the only files it has written are the trial file and part
    files: every other file is as it was. *)
Theorem split_writes_only_its_files (E : Env)
    (pdf_path output_folder base_name : string) (max_size_bytes : Z)
    (w : World) (q : string) :
  q ≠ trial_path E base_name →
  (∀ i, (1 ≤ i)%nat → q ≠ out_path output_folder base_name i) →
  fs (after (split_pdf E pdf_path output_folder base_name max_size_bytes) w) !! q
  = fs w !! q.
Proof.
  intros Htrial Hout. unfold after.
  destruct (split_pdf E pdf_path output_folder base_name max_size_bytes w)
    as [r w'] eqn:Hrun.
  apply split_pdf_paths in Hrun. apply Hrun.
  intros [->|(i & Hi & ->)]; [done|]. by apply (Hout i).
Qed.

(** ** What the part files hold *)

Section SplitContents.

Context (E : Env).
Variables (doc : list Page) (output_folder base_name : string)
          (max_size_bytes : Z).
Hypothesis base_plain : OsPath.has_char OsPath.sep base_name = false.

Local Abbreviation outer := (outer_loop E doc output_folder base_name max_size_bytes).
Local Abbreviation build := (build_part E doc output_folder base_name max_size_bytes).

Lemma build_part_written fuel start idx w part p w' :
  build fuel start idx w = (Ok (part, p), w') →
  part_path part = out_path output_folder base_name idx
  ∧ is_Some (fs w' !! part_path part)
  ∧ fs w' !! part_path part = pdf_write E ((part_pages part).*2).
Proof.
  unfold build_part. intros Hrun.
  apply bind_ok in Hrun as ([part_doc p1] & w1 & _ & Hrun).
  apply bind_ok in Hrun as ([] & w2 & Hsave & [= <- <- <-]).
  apply doc_save_ok in Hsave as (b & Hb & ->). simpl.
  rewrite lookup_insert_eq, Hb. eauto.
Qed.

Lemma later_parts_spare idx q :
  q = out_path output_folder base_name idx →
  ¬ split_file E output_folder base_name (idx + 1) q.
Proof.
  intros -> [Heq|(j & Hj & Heq)].
  - by eapply trial_ne_out.
  - apply out_path_inj in Heq. lia.
Qed.

Lemma outer_loop_written fuel_in fuel : ∀ start idx outputs w parts w',
  outer fuel fuel_in start idx outputs w = (Ok parts, w') →
  ∃ new, parts = outputs ++ new
    ∧ Forall (λ part, is_Some (fs w' !! part_path part)
                      ∧ fs w' !! part_path part
                        = pdf_write E ((part_pages part).*2)) new.
Proof.
  induction fuel as [|fuel IH]; intros start idx outputs w parts w' Hrun.
  - simpl in Hrun. destruct (start <? length doc)%nat; [done|].
    injection Hrun as <- <-. exists []. by rewrite app_nil_r.
  - destruct (Nat.ltb_spec start (length doc)) as [Hlt|Hge].
    2:{ rewrite outer_done in Hrun by done. injection Hrun as <- <-.
        exists []. by rewrite app_nil_r. }
    rewrite outer_step in Hrun by done.
    apply bind_ok in Hrun as ([part p] & w1 & Hbuild & Hrun). simpl in Hrun.
    apply build_part_written in Hbuild as (Hpath & Hthere & Hfile).
    pose proof Hrun as Hrest. apply outer_loop_paths in Hrest.
    apply IH in Hrun as (new & -> & Hall).
    exists (part :: new). rewrite <- app_assoc. split; [done|].
    constructor; [|done].
    rewrite (Hrest (part_path part)) by by apply later_parts_spare.
    done.
Qed.

End SplitContents.

(** X13: after a split that completes, every part file holds the
    serialization of the pages of its part: no part file was overwritten
    by the trial saves or by a later part.  (The base name holds no
    separator, as the one [run_process] passes.) *)
Theorem split_part_files (E : Env) (pdf_path output_folder base_name : string)
    (max_size_bytes : Z) (w w' : World) (parts : list SplitPart) :
  OsPath.has_char OsPath.sep base_name = false →
  split_parts E pdf_path output_folder base_name max_size_bytes w = (Ok parts, w') →
  Forall (λ part, ∃ b, fs w' !! part_path part = Some b
                       ∧ pdf_write E ((part_pages part).*2) = Some b) parts.
Proof.
  intros Hbase Hrun. unfold split_parts in Hrun.
  apply bind_ok in Hrun as (doc & w1 & _ & Hrun).
  apply outer_loop_written in Hrun as (new & -> & Hall); [|done].
  rewrite app_nil_l. eapply Forall_impl; [exact Hall|].
  intros part ([b Hb] & Heq). exists b. split; [done|]. by rewrite <- Heq.
Qed.

(** X14: the parts of a split are written to pairwise different paths,
    whatever the folder and the base name. *)
Theorem split_paths_distinct (E : Env) (pdf_path output_folder base_name : string)
    (max_size_bytes : Z) (w w' : World) (paths : list string) :
  split_pdf E pdf_path output_folder base_name max_size_bytes w = (Ok paths, w') →
  NoDup paths.
Proof.
  unfold split_pdf. intros Hrun.
  apply bind_ok in Hrun as (parts & w1 & Hrun & [= <- <-]).
  unfold split_parts in Hrun.
  apply bind_ok in Hrun as (doc & w2 & _ & Hrun).
  apply outer_loop_spec in Hrun as (new & -> & _ & Hnum & _ & Hall); [|lia].
  rewrite app_nil_l.
  assert (part_path <$> new
          = out_path output_folder base_name <$> (part_index <$> new)) as ->.
  { rewrite <- list_fmap_compose. apply Forall_fmap_ext_1.
    eapply Forall_impl; [exact Hall|]. by intros part (_ & -> & _). }
  rewrite Hnum. apply NoDup_fmap_2; [|apply NoDup_seq].
  intros i j. apply out_path_inj.
Qed.

(** ** The parts are as long as the budget allows *)

Section SplitGreedy.

Context (E : Env).
Variables (doc : list Page) (output_folder base_name : string)
          (max_size_bytes : Z).

Local Abbreviation inner := (inner_loop E doc base_name max_size_bytes).
Local Abbreviation build := (build_part E doc output_folder base_name max_size_bytes).
Local Abbreviation outer := (outer_loop E doc output_folder base_name max_size_bytes).

Local Abbreviation overfull := (overfull E max_size_bytes).

(** The inner loop stops before the end of the document only at a page
    that did not fit. *)
Lemma inner_loop_stops fuel : ∀ part_doc p w part' p' w',
  inner fuel part_doc p w = (Ok (part', p'), w') →
  (p' < length doc)%nat →
  ∃ pg, doc !! p' = Some pg ∧ overfull part' (p', pg).
Proof.
  induction fuel as [|fuel IH]; intros part_doc p w part' p' w' Hrun Hp'.
  - simpl in Hrun. destruct (Nat.ltb_spec p (length doc)); [done|].
    injection Hrun as <- <- <-. lia.
  - destruct (Nat.ltb_spec p (length doc)) as [Hlt|Hge].
    2:{ rewrite inner_done in Hrun by done. injection Hrun as <- <- <-. lia. }
    destruct (lookup_lt_is_Some_2 doc p Hlt) as [pg Hpg].
    rewrite (inner_step E doc base_name max_size_bytes _ _ _ _ Hpg) in Hrun.
    destruct (length part_doc =? 0)%nat; [by eapply IH|].
    apply bind_ok in Hrun as ([] & w1 & Hsave & Hrun).
    apply trial_save_ok in Hsave as (b & Hb & ->).
    apply bind_ok in Hrun as (sz & w2 & [= <- <-] & Hrun).
    rewrite file_size_written in Hrun.
    destruct (Z.gtb_spec (Z.of_nat (length b)) max_size_bytes) as [Hgt|Hle];
      [|by eapply IH].
    injection Hrun as <- <- <-. exists pg. split; [done|].
    exists b. split; [done|lia].
Qed.

Lemma build_part_stops fuel start idx w part p w' :
  build fuel start idx w = (Ok (part, p), w') →
  (p < length doc)%nat →
  ∃ pg, doc !! p = Some pg ∧ overfull (part_pages part) (p, pg).
Proof.
  unfold build_part. intros Hrun Hp.
  apply bind_ok in Hrun as ([part_doc p1] & w1 & Hin & Hrun).
  apply bind_ok in Hrun as ([] & w2 & _ & [= <- <- <-]). simpl.
  by eapply inner_loop_stops.
Qed.

(** Each part but the last was closed by the first page of the next. *)
Lemma outer_loop_greedy fuel_in fuel : ∀ start idx outputs w parts w',
  outer fuel fuel_in start idx outputs w = (Ok parts, w') →
  (start ≤ length doc)%nat →
  ∃ new, parts = outputs ++ new
    ∧ (∀ first, head new = Some first →
         (start < length doc)%nat
         ∧ head (part_pages first) = pair start <$> doc !! start)
    ∧ (∀ i part next, new !! i = Some part → new !! S i = Some next →
         ∃ tp, head (part_pages next) = Some tp
               ∧ overfull (part_pages part) tp).
Proof.
  induction fuel as [|fuel IH]; intros start idx outputs w parts w' Hrun Hstart.
  - simpl in Hrun. destruct (Nat.ltb_spec start (length doc)); [done|].
    injection Hrun as <- <-. exists []. rewrite app_nil_r. by split_and!.
  - destruct (Nat.ltb_spec start (length doc)) as [Hlt|Hge].
    2:{ rewrite outer_done in Hrun by done. injection Hrun as <- <-.
        exists []. rewrite app_nil_r. by split_and!. }
    rewrite outer_step in Hrun by done.
    apply bind_ok in Hrun as ([part p] & w1 & Hbuild & Hrun). simpl in Hrun.
    pose proof (build_part_stops _ _ _ _ _ _ _ Hbuild) as Hstop.
    apply build_part_spec in Hbuild as (Hp & Hp' & Hpages & _); [|done].
    apply IH in Hrun as (new & -> & Hhead & Hnext); [|done].
    exists (part :: new). rewrite <- app_assoc. split_and!; [done| |].
    + intros first [= <-]. split; [done|].
      rewrite Hpages. by apply segment_head.
    + intros [|i] part1 next; simpl.
      * intros [= <-] Hn.
        destruct (Hhead next) as [Hlt' Hfirst]; [by rewrite head_lookup|].
        destruct (Hstop Hlt') as (pg & Hpg & Hover).
        exists (p, pg). split; [|done]. by rewrite Hfirst, Hpg.
      * apply Hnext.
Qed.

(** Each part is a run of consecutive pages. *)
Lemma outer_loop_runs fuel_in fuel : ∀ start idx outputs w parts w',
  outer fuel fuel_in start idx outputs w = (Ok parts, w') →
  ∃ new, parts = outputs ++ new
    ∧ Forall (λ part, ∃ i j, (i < j ≤ length doc)%nat
                             ∧ part_pages part = segment doc i j) new.
Proof.
  induction fuel as [|fuel IH]; intros start idx outputs w parts w' Hrun.
  - simpl in Hrun. destruct (Nat.ltb_spec start (length doc)); [done|].
    injection Hrun as <- <-. exists []. by rewrite app_nil_r.
  - destruct (Nat.ltb_spec start (length doc)) as [Hlt|Hge].
    2:{ rewrite outer_done in Hrun by done. injection Hrun as <- <-.
        exists []. by rewrite app_nil_r. }
    rewrite outer_step in Hrun by done.
    apply bind_ok in Hrun as ([part p] & w1 & Hbuild & Hrun). simpl in Hrun.
    apply build_part_spec in Hbuild as (Hp & Hp' & Hpages & _); [|done].
    apply IH in Hrun as (new & -> & Hall).
    exists (part :: new). rewrite <- app_assoc. split; [done|].
    constructor; [|done]. exists start, p. split; [lia|done].
Qed.

End SplitGreedy.

(** X15: the splitter is greedy: a part is closed only by a page that
    did not fit.  In every split result, the trial file of the pages of a
    part followed by the first page of the next part, which the splitter
    wrote and measured, was larger than [max_size_bytes]. *)
Theorem split_is_greedy (E : Env) (pdf_path output_folder base_name : string)
    (max_size_bytes : Z) (w w' : World) (parts : list SplitPart)
    (i : nat) (part next : SplitPart) :
  split_parts E pdf_path output_folder base_name max_size_bytes w = (Ok parts, w') →
  parts !! i = Some part → parts !! S i = Some next →
  ∃ page rest size,
    part_pages next = page :: rest
    ∧ trial_file_size E (part_pages part ++ [page]) = Some size
    ∧ max_size_bytes < size.
Proof.
  intros Hrun Hpart Hnext. unfold split_parts in Hrun.
  apply bind_ok in Hrun as (doc & w1 & _ & Hrun).
  apply outer_loop_greedy in Hrun as (new & -> & _ & Hall); [|lia].
  rewrite app_nil_l in Hpart, Hnext.
  destruct (Hall i part next Hpart Hnext) as (tp & Hhead & b & Hb & Hgt).
  destruct (part_pages next) as [|page rest]; [done|].
  injection Hhead as ->. exists tp, rest, (Z.of_nat (length b)).
  unfold trial_file_size. by rewrite Hb.
Qed.

(** X16: a document comes out as one part when the size check passes at
    every page: when the trial file of each run of the first n pages, for
    n from two to the page count, is within the budget, a split that
    completes gives a single part with all the pages. *)
Theorem split_single_part (E : Env) (pdf_path output_folder base_name : string)
    (max_size_bytes : Z) (w w' : World) (b : bytes) (doc : list Page)
    (parts : list SplitPart) :
  fs w !! pdf_path = Some b → pdf_parse E b = Some doc → doc ≠ [] →
  (∀ n, (2 ≤ n ≤ length doc)%nat →
        passes_trial E max_size_bytes (segment doc 0 n)) →
  split_parts E pdf_path output_folder base_name max_size_bytes w = (Ok parts, w') →
  ∃ part, parts = [part]
    ∧ part_index part = 1%nat
    ∧ part_pages part = tagged doc.
Proof.
  intros Hb Hdoc Hne Hfit Hrun.
  rewrite (split_parts_open _ _ _ _ _ _ _ _ Hb Hdoc) in Hrun.
  assert (0 < length doc)%nat as Hlen by (destruct doc; [done|simpl; lia]).
  remember (length doc) as fuel eqn:Hfuel in Hrun.
  destruct fuel as [|fuel]; [lia|].
  rewrite outer_step in Hrun by done.
  apply bind_ok in Hrun as ([part p] & w1 & Hbuild & Hrun). simpl in Hrun.
  pose proof (build_part_stops _ _ _ _ _ _ _ _ _ _ _ _ Hbuild) as Hstop.
  apply build_part_spec in Hbuild as (Hp & Hp' & Hpages & Hidx & _); [|done].
  destruct (decide (p < length doc)%nat) as [Hlt|Hend].
  - destruct (Hstop Hlt) as (pg & Hpg & bs & Hbs & Hgt).
    rewrite Hpages, (segment_snoc doc 0 p pg) in Hbs by (done || lia).
    destruct (Hfit (p + 1)%nat) as (bs' & Hbs' & Hle); [lia|].
    assert (bs' = bs) as -> by congruence. lia.
  - assert (p = length doc) as -> by lia.
    rewrite outer_done in Hrun by done. injection Hrun as <- <-.
    exists part. split_and!; [done..|]. by rewrite Hpages, segment_full.
Qed.

(** X17: reading the parts back gives the document.  When the PDF layer
    reads back what it wrote for the runs of pages of the document, after
    a split that completes every part file opens as the pages of its
    part, and these, in the order of the parts, make up the source
    document.  (The base name holds no separator.) *)
Theorem split_round_trip (E : Env) (pdf_path output_folder base_name : string)
    (max_size_bytes : Z) (w w' : World) (b : bytes) (doc : list Page)
    (parts : list SplitPart) :
  OsPath.has_char OsPath.sep base_name = false →
  fs w !! pdf_path = Some b → pdf_parse E b = Some doc →
  (∀ i j bs, pdf_write E ((segment doc i j).*2) = Some bs →
             pdf_parse E bs = Some ((segment doc i j).*2)) →
  split_parts E pdf_path output_folder base_name max_size_bytes w = (Ok parts, w') →
  Forall (λ part, fitz_open E (part_path part) w'
                  = (Ok ((part_pages part).*2), w')) parts
  ∧ concat ((λ part, (part_pages part).*2) <$> parts) = doc.
Proof.
  intros Hbase Hb Hdoc Hback Hrun. split.
  - pose proof Hrun as Hfiles.
    unfold split_parts in Hfiles.
    apply bind_ok in Hfiles as (doc' & w1 & Hopen & Hfiles).
    assert (doc' = doc ∧ w1 = w) as [-> ->].
    { unfold fitz_open in Hopen. rewrite Hb, Hdoc in Hopen. by injection Hopen. }
    pose proof Hfiles as Hshape.
    apply outer_loop_written in Hfiles as (new & -> & Hall); [|done].
    apply outer_loop_runs in Hshape as (new' & Hnew' & Hruns).
    simpl in Hnew'. subst new'. simpl.
    rewrite Forall_forall in Hall, Hruns. apply Forall_forall.
    intros part Hin. destruct (Hall part Hin) as ([bs Hbs] & Heq).
    destruct (Hruns part Hin) as (i & j & _ & Hseg).
    unfold fitz_open. rewrite Hbs. rewrite Hbs in Heq.
    rewrite Hseg in *. by rewrite (Hback i j bs).
  - rewrite (split_parts_open _ _ _ _ _ _ _ _ Hb Hdoc) in Hrun.
    apply outer_loop_spec in Hrun as (new & -> & Hcat & _); [|lia].
    rewrite app_nil_l, segment_full in *.
    transitivity ((tagged doc).*2); [|apply tagged_snd].
    rewrite <- Hcat, fmap_concat_list. by rewrite <- list_fmap_compose.
Qed.

(* ------------------------------------------------------------------ *)
(** * The files of a pass *)
(* ------------------------------------------------------------------ *)

(** [bind] when what follows is known only for the values the first
    computation can return. *)
Lemma preserves_bind_ok {A B} (R : World → World → Prop) `{!PreOrder R}
    (Q : A → Prop) (m : M A) (k : A → M B) :
  preserves R m → (∀ w a w', m w = (Ok a, w') → Q a) →
  (∀ a, Q a → preserves R (k a)) → preserves R (bind m k).
Proof.
  intros Hm HQ Hk w r w'. unfold bind.
  destruct (m w) as [[a| |] w1] eqn:Hrun.
  - intros Hrun'. apply (Hk a) in Hrun'; [|by eapply HQ].
    apply Hm in Hrun. by etrans.
  - intros [= <- <-]. by eapply Hm.
  - intros [= <- <-]. by eapply Hm.
Qed.

Lemma paths_update_status P base msg :
  preserves (only_paths P) (update_status base msg).
Proof. by intros w r w' [= <- <-]. Qed.

Lemma paths_shutil_move E (P : string → Prop) src dst :
  P src → P dst → preserves (only_paths P) (shutil_move E src dst).
Proof.
  intros Hsrc Hdst w r w'. unfold shutil_move.
  destruct (fs w !! src); [|by intros [= <- <-]].
  destruct (writable E dst); intros [= <- <-]; [|done].
  intros q Hq. simpl.
  rewrite lookup_insert_ne by by intros ->.
  apply lookup_delete_ne. by intros ->.
Qed.

Lemma paths_shutil_copy E (P : string → Prop) src dst :
  P dst → preserves (only_paths P) (shutil_copy E src dst).
Proof.
  intros Hdst w r w'. unfold shutil_copy.
  destruct (fs w !! src); [|by intros [= <- <-]].
  case_decide; [by intros [= <- <-]|].
  destruct (writable E dst); intros [= <- <-]; [|done].
  intros q Hq. simpl. apply lookup_insert_ne. by intros ->.
Qed.

(** The working source is the input or the temporary copy. *)
Lemma compress_stage_source E act clevel pdf_path base_name temp_comp w src w' :
  compress_stage E act clevel pdf_path base_name temp_comp w = (Ok src, w') →
  src = pdf_path ∨ src = temp_comp.
Proof.
  unfold compress_stage. destruct (should_compress act).
  - intros Hrun.
    apply bind_ok in Hrun as ([] & w1 & _ & Hrun).
    apply bind_ok in Hrun as (success & w2 & _ & Hrun).
    apply bind_ok in Hrun as (present & w3 & _ & Hrun).
    apply bind_ok in Hrun as (size & w4 & _ & Hrun).
    destruct (_ && _ && _); injection Hrun as <- <-; eauto.
  - intros [= <- <-]. by left.
Qed.

Lemma process_file_paths E output_folder split_mb act clevel pdf_path :
  preserves (only_paths (derived_file E output_folder pdf_path))
    (process_file E output_folder split_mb act clevel pdf_path).
Proof.
  set (P := derived_file E output_folder pdf_path).
  assert (P (temp_comp_of E pdf_path)) as Htemp by by left.
  assert (P (final_output_of output_folder pdf_path)) as Hfinal by (right; by left).
  unfold process_file.
  apply preserves_bind; [apply _|apply paths_update_status|]. intros _.
  apply preserves_try; [apply _| |intros e; apply paths_update_status].
  unfold process_body.
  apply (preserves_bind_ok _
           (λ src, src = pdf_path ∨ src = temp_comp_of E pdf_path)).
  - eapply preserves_weaken; [|apply compress_stage_frame].
    intros w w'. by apply frame_only_paths.
  - intros w src w'. apply compress_stage_source.
  - intros src Hsrc. unfold output_stage.
    destruct (OsPath.str_contains "Split" act).
    + apply preserves_bind; [apply _|apply paths_update_status|]. intros _.
      apply preserves_bind; [apply _| |].
      { destruct (py_int _); [apply preserves_raise|apply preserves_ret]; apply _. }
      intros target_bytes.
      apply preserves_bind; [apply _| |intros _; apply paths_update_status].
      eapply preserves_weaken; [|apply split_pdf_paths].
      intros w w'. apply only_paths_weaken. intros q Hq. right. by right.
    + apply preserves_bind; [apply _| |intros _; apply paths_update_status].
      case_decide as Hne.
      * destruct Hsrc as [->| ->]; [done|]. by apply paths_shutil_move.
      * by apply paths_shutil_copy.
Qed.

Lemma run_files_paths E output_folder split_mb act clevel files :
  preserves (only_paths (λ q, ∃ f, f ∈ files ∧ derived_file E output_folder f q))
    (run_files E output_folder split_mb act clevel files).
Proof.
  induction files as [|f rest IH]; simpl.
  - apply preserves_ret; apply _.
  - apply preserves_bind; [apply _| |intros _].
    + eapply preserves_weaken; [|apply process_file_paths].
      intros w w'. apply only_paths_weaken. intros q Hq.
      exists f. split; [apply list_elem_of_here|done].
    + eapply preserves_weaken; [|apply IH].
      intros w w'. apply only_paths_weaken. intros q (g & Hg & Hq).
      exists g. split; [by apply list_elem_of_further|done].
Qed.

(** X18: whatever a batch does and however the passes end, the only
    files it creates, replaces or removes are files derived from the
    listed paths: for a listed file its temporary compressed copy, its
    final output, its trial file and its part files.  Every other file is
    as it was. *)
Theorem batch_touches_only_derived_files (E : Env) (output_folder : string)
    (split_mb : float) (act clevel : string) (files : list string)
    (w : World) (q : string) :
  (∀ f, f ∈ files →
        q ≠ temp_comp_of E f
        ∧ q ≠ final_output_of output_folder f
        ∧ q ≠ trial_path E (OsPath.stem f)
        ∧ ∀ i, (1 ≤ i)%nat → q ≠ out_path output_folder (OsPath.stem f) i) →
  fs (after (run_files E output_folder split_mb act clevel files) w) !! q
  = fs w !! q.
Proof.
  intros Hq. unfold after.
  destruct (run_files E output_folder split_mb act clevel files w)
    as [r w'] eqn:Hrun.
  apply run_files_paths in Hrun. apply Hrun.
  intros (f & Hf & Hd). destruct (Hq f Hf) as (Htemp & Hfinal & Htrial & Hout).
  destruct Hd as [->|[->|[->|(i & Hi & ->)]]]; try done. by apply (Hout i).
Qed.

(** X19: the pass over a file never changes that file: none of the paths
    it writes to, moves from or splits into is the input path, whatever
    the names, the folders and the settings. *)
Theorem pass_keeps_its_input (E : Env) (output_folder : string)
    (split_mb : float) (act clevel pdf_path : string) (w : World) :
  fs (after (process_file E output_folder split_mb act clevel pdf_path) w)
    !! pdf_path
  = fs w !! pdf_path.
Proof.
  unfold after.
  destruct (process_file E output_folder split_mb act clevel pdf_path w)
    as [r w'] eqn:Hrun.
  apply process_file_paths in Hrun. apply Hrun.
  intros [Heq|[Heq|[Heq|(i & _ & Heq)]]]; symmetry in Heq; revert Heq.
  - apply temp_comp_ne_source.
  - apply final_output_ne_source.
  - apply trial_ne_source.
  - apply out_ne_source.
Qed.

(* ------------------------------------------------------------------ *)
(** * The file list and the table *)
(* ------------------------------------------------------------------ *)

Section SelectionFacts.

Variable format_kb : Z → string.

(** The row [select_pdfs] adds for a file. *)
Local Abbreviation new_row w :=
  (λ f, mkRow (OsPath.basename f) (format_kb (file_size w f)) "Pending").

Lemma select_pdfs_spec files : ∀ pdf_list w,
  ∃ added,
    select_pdfs format_kb files pdf_list w
    = (Ok (pdf_list ++ added),
       mkWorld (fs w) (tree w ++ (new_row w <$> added)) (trace w))
    ∧ (NoDup pdf_list → NoDup (pdf_list ++ added))
    ∧ (∀ f, f ∈ pdf_list ++ added ↔ f ∈ pdf_list ∨ f ∈ files).
Proof.
  induction files as [|f rest IH]; intros pdf_list w.
  - exists []. simpl. rewrite !app_nil_r. split_and!; [by destruct w|done|].
    intros f. rewrite elem_of_nil. tauto.
  - simpl. case_decide as Hin.
    + unfold bind at 1, get_file_size. unfold bind at 1, tree_insert.
      set (w1 := mkWorld _ _ _).
      destruct (IH (pdf_list ++ [f]) w1) as (added & Hrun & Hnodup & Hmem).
      exists (f :: added). rewrite Hrun. subst w1. simpl.
      split_and!; [by rewrite <- !app_assoc| |].
      * intros Hnd. change (f :: added) with ([f] ++ added).
        rewrite (assoc_L (++) pdf_list [f] added). apply Hnodup.
        apply NoDup_app. split_and!; [done| |apply NoDup_singleton].
        intros x Hx ->%list_elem_of_singleton. done.
      * intros x. change (f :: added) with ([f] ++ added).
        rewrite (assoc_L (++) pdf_list [f] added), Hmem.
        rewrite elem_of_app, list_elem_of_singleton, elem_of_cons. tauto.
    + destruct (IH pdf_list w) as (added & Hrun & Hnodup & Hmem).
      exists added. split_and!; [done..|].
      intros x. rewrite Hmem, elem_of_cons. split; [tauto|].
      intros [?|[->|?]]; tauto.
Qed.

(** X20: [select_pdfs] extends the list and the table together.  The
    files it appends to [pdf_list] are chosen files that were not listed,
    each once; the table gets one row per appended file, at the end and
    in the same order, with the base name, the formatted size and status
    "Pending"; rows and files that were there stay.  So a list without
    duplicates stays so, the list ends up holding what it held and what
    was chosen, and a table that had one row per listed file still has.
    No file is touched. *)
Theorem select_pdfs_extends (files pdf_list : list string) (w : World) :
  ∃ added,
    select_pdfs format_kb files pdf_list w
    = (Ok (pdf_list ++ added),
       mkWorld (fs w) (tree w ++ (new_row w <$> added)) (trace w))
    ∧ (NoDup pdf_list → NoDup (pdf_list ++ added))
    ∧ (∀ f, f ∈ pdf_list ++ added ↔ f ∈ pdf_list ∨ f ∈ files)
    ∧ (in_sync pdf_list w →
       in_sync (pdf_list ++ added)
               (after (select_pdfs format_kb files pdf_list) w)).
Proof.
  destruct (select_pdfs_spec files pdf_list w) as (added & Hrun & Hnodup & Hmem).
  exists added. split_and!; [done..|].
  unfold in_sync, after. rewrite Hrun. simpl. intros Hsync.
  rewrite !fmap_app, Hsync. f_equal.
  rewrite <- list_fmap_compose. by apply list_fmap_ext.
Qed.

Lemma select_pdfs_listed files : ∀ pdf_list w,
  files ⊆ pdf_list → select_pdfs format_kb files pdf_list w = (Ok pdf_list, w).
Proof.
  induction files as [|f rest IH]; intros pdf_list w Hsub; [done|].
  simpl. rewrite decide_False.
  - apply IH. intros x Hx. apply Hsub. by apply list_elem_of_further.
  - intros Hnot. apply Hnot, Hsub, list_elem_of_here.
Qed.

(** X21: choosing the same files again changes nothing: after a call of
    [select_pdfs], a second call with the same files returns the list as
    it is and adds no row. *)
Theorem select_pdfs_twice (files pdf_list pdf_list' : list string) (w w' : World) :
  select_pdfs format_kb files pdf_list w = (Ok pdf_list', w') →
  select_pdfs format_kb files pdf_list' w' = (Ok pdf_list', w').
Proof.
  intros Hrun.
  destruct (select_pdfs_spec files pdf_list w) as (added & Hrun' & _ & Hmem).
  rewrite Hrun' in Hrun. injection Hrun as <- <-.
  apply select_pdfs_listed. intros f Hf. apply Hmem. by right.
Qed.

(** X22: after [clear_selection] the list and the table are empty, and a
    selection made then lists each chosen file once and gives the table
    exactly one "Pending" row per listed file; files and trace are as
    before. *)
Theorem selection_after_clear (files : list string) (w : World) :
  ∃ pdf_list,
    (l0 <- clear_selection ;; select_pdfs format_kb files l0) w
    = (Ok pdf_list, mkWorld (fs w) (new_row w <$> pdf_list) (trace w))
    ∧ NoDup pdf_list
    ∧ (∀ f, f ∈ pdf_list ↔ f ∈ files).
Proof.
  unfold bind, clear_selection.
  destruct (select_pdfs_spec files [] (mkWorld (fs w) [] (trace w)))
    as (added & Hrun & Hnodup & Hmem).
  exists added. rewrite Hrun. simpl. split_and!; [done| |].
  - apply Hnodup, NoDup_nil_2.
  - intros f. rewrite <- (app_nil_l added), Hmem, elem_of_nil. tauto.
Qed.

End SelectionFacts.

(** ** The table during a batch *)

Lemma status_of_listed rows base :
  is_Some (status_of rows base) ↔ base ∈ row_file <$> rows.
Proof.
  induction rows as [|r rest IH]; simpl.
  - rewrite elem_of_nil. split; [by intros [? ?]|done].
  - rewrite elem_of_cons. case_decide as Hr.
    + split; [by left|eauto].
    + rewrite IH. split; [by right|]. by intros [?|?].
Qed.

Lemma process_file_same_rows E output_folder split_mb act clevel pdf_path :
  preserves same_rows (process_file E output_folder split_mb act clevel pdf_path).
Proof.
  apply (any_process_file same_rows) with (base_name := OsPath.basename pdf_path);
    [done|by intros e w r w' [= <- <-]| |done].
  intros msg w r w' [= <- <-]. unfold same_rows. simpl. apply set_status_files.
Qed.

Lemma after_run_files_cons E output_folder split_mb act clevel f rest w :
  after (run_files E output_folder split_mb act clevel (f :: rest)) w
  = after (run_files E output_folder split_mb act clevel rest)
          (after (process_file E output_folder split_mb act clevel f) w).
Proof.
  unfold after. simpl.
  destruct (process_file_total E output_folder split_mb act clevel f w)
    as ([] & w1 & Hrun).
  by rewrite (bind_eq _ _ _ _ _ Hrun), Hrun.
Qed.

(** A pass ends with "Error" exactly when the body of the [try] raised. *)
Lemma process_file_body E output_folder split_mb act clevel pdf_path w :
  let base_name := OsPath.basename pdf_path in
  let w1 := after (update_status base_name "Processing...") w in
  (∃ w2, process_body E output_folder split_mb act clevel pdf_path base_name w1
           = (Ok tt, w2)
         ∧ after (process_file E output_folder split_mb act clevel pdf_path) w = w2)
  ∨ (∃ e w2, process_body E output_folder split_mb act clevel pdf_path base_name w1
               = (Raise e, w2)
             ∧ after (process_file E output_folder split_mb act clevel pdf_path) w
               = after (update_status base_name "Error") w2).
Proof.
  intros base_name w1.
  assert (process_file E output_folder split_mb act clevel pdf_path w
          = try_except
              (process_body E output_folder split_mb act clevel pdf_path base_name)
              (λ _, update_status base_name "Error") w1) as Hpass by reflexivity.
  destruct (process_body E output_folder split_mb act clevel pdf_path base_name w1)
    as [[[]|e|] w2] eqn:Hbody.
  - left. exists w2. split; [done|].
    unfold after. rewrite Hpass. unfold try_except. by rewrite Hbody.
  - right. exists e, w2. split; [done|].
    unfold after. rewrite Hpass. unfold try_except. by rewrite Hbody.
  - by apply process_body_fuel_free in Hbody.
Qed.

Lemma process_file_status E output_folder split_mb act clevel pdf_path w :
  is_Some (status_of (tree w) (OsPath.basename pdf_path)) →
  ∃ msg, terminal act msg
    ∧ status_of (tree (after (process_file E output_folder split_mb act clevel
                                pdf_path) w)) (OsPath.basename pdf_path)
      = Some msg.
Proof.
  intros Hrow.
  pose proof (process_file_body E output_folder split_mb act clevel pdf_path w)
    as Hcases. cbv zeta in Hcases.
  set (base_name := OsPath.basename pdf_path) in *.
  set (w1 := after (update_status base_name "Processing...") w) in *.
  assert (is_Some (status_of (tree w1) base_name)) as Hrow1.
  { apply (same_rows_status w); [apply set_status_files|done]. }
  destruct Hcases as [(w2 & Hbody & ->)|(e & w2 & Hbody & ->)].
  - pose proof Hbody as Hrows. apply process_body_same_rows in Hrows.
    unfold process_body in Hbody.
    apply bind_ok in Hbody as (src & w3 & _ & Hout).
    apply output_stage_ok in Hout as (_ & w4 & Htree).
    eexists. split; [by right|]. rewrite Htree. apply status_of_set_status.
    apply (same_rows_status w2); [by rewrite Htree, set_status_files|].
    by apply (same_rows_status w1).
  - exists "Error". split; [by left|]. unfold after. simpl.
    apply status_of_set_status. apply process_body_same_rows in Hbody.
    by apply (same_rows_status w1).
Qed.

Lemma run_files_terminal E output_folder split_mb act clevel files : ∀ w,
  (∀ f, f ∈ files → is_Some (status_of (tree w) (OsPath.basename f))) →
  ∀ f, f ∈ files →
    ∃ msg, terminal act msg
      ∧ status_of (tree (after (run_files E output_folder split_mb act clevel
                                  files) w)) (OsPath.basename f)
        = Some msg.
Proof.
  induction files as [|g rest IH]; intros w Hrows f Hf.
  { by apply elem_of_nil in Hf. }
  rewrite after_run_files_cons.
  set (w1 := after (process_file E output_folder split_mb act clevel g) w).
  assert (same_rows w w1) as Hsame.
  { unfold w1, after.
    destruct (process_file E output_folder split_mb act clevel g w)
      as [r w'] eqn:Hrun.
    by apply process_file_same_rows in Hrun. }
  assert (∀ f, f ∈ rest → is_Some (status_of (tree w1) (OsPath.basename f)))
    as Hrows1.
  { intros f' Hf'. apply (status_of_same_rows w); [done|].
    by apply Hrows, list_elem_of_further. }
  destruct (decide (OsPath.basename f ∈ OsPath.basename <$> rest)) as [Hlater|Hlast].
  - apply list_elem_of_fmap in Hlater as (f' & Hname & Hf').
    rewrite Hname. by apply IH.
  - assert (f = g) as ->.
    { apply elem_of_cons in Hf as [->|Hf]; [done|].
      destruct Hlast. by apply list_elem_of_fmap_2. }
    destruct (process_file_status E output_folder split_mb act clevel g w)
      as (msg & Hmsg & Hstatus); [by apply Hrows, list_elem_of_here|].
    exists msg. split; [done|]. fold w1 in Hstatus. rewrite <- Hstatus.
    unfold after.
    destruct (run_files E output_folder split_mb act clevel rest w1)
      as [r w'] eqn:Hrun.
    by apply (run_files_keeps_status _ _ _ _ _ (OsPath.basename g)) in Hrun.
Qed.

(** X23: with a table that has one row per listed file, as [select_pdfs]
    keeps it, after a batch over the list the status of every listed file
    name is a terminal one: "Error", or "Done (Split)" when the action
    holds "Split" and "Done (Saved)" when not.  None is left at
    "Pending", "Processing..." or an intermediate status. *)
Theorem batch_ends_all_terminal (E : Env) (output_folder : string)
    (split_mb : float) (act clevel : string) (pdf_list : list string)
    (w : World) (f : string) :
  in_sync pdf_list w → f ∈ pdf_list →
  ∃ msg,
    status_of (tree (after (run_files E output_folder split_mb act clevel
                              pdf_list) w)) (OsPath.basename f) = Some msg
    ∧ (msg = "Error"
       ∨ msg = (if OsPath.str_contains "Split" act then "Done (Split)"
                else "Done (Saved)")).
Proof.
  intros Hsync Hf.
  destruct (run_files_terminal E output_folder split_mb act clevel pdf_list w)
    with (f := f) as (msg & Hmsg & Hstatus); [|done|by exists msg].
  intros g Hg. apply status_of_listed. rewrite Hsync.
  by apply list_elem_of_fmap_2.
Qed.

(** ** Rows that share a file name *)

Lemma set_status_lookup_ne rows base msg : ∀ i r,
  rows !! i = Some r → row_file r ≠ base →
  set_status rows base msg !! i = Some r.
Proof.
  induction rows as [|r0 rest IH]; intros i r Hi Hne; [done|]. simpl.
  case_decide as Hr0.
  - destruct i as [|i]; [|done]. simpl in Hi. injection Hi as ->. done.
  - destruct i as [|i]; [done|]. simpl in *. by apply IH.
Qed.

Lemma set_status_shadowed rows base msg : ∀ i,
  shadowed rows i → set_status rows base msg !! i = rows !! i.
Proof.
  induction rows as [|r0 rest IH]; intros i (j & r & r' & Hj & Hrj & Hri & Hname).
  { done. }
  simpl. case_decide as Hr0.
  - destruct i as [|i]; [lia|done].
  - destruct i as [|i]; [lia|]. simpl in *.
    destruct j as [|j]; simpl in Hrj.
    + injection Hrj as ->. rewrite Hri. apply set_status_lookup_ne; [done|].
      by rewrite <- Hname.
    + apply IH. exists j, r, r'. split_and!; [lia|done..].
Qed.

Lemma shadowed_same_rows rows rows' i :
  row_file <$> rows' = row_file <$> rows → shadowed rows i → shadowed rows' i.
Proof.
  intros Hsame (j & r & r' & Hj & Hrj & Hri & Hname).
  assert ((row_file <$> rows') !! j = Some (row_file r)) as Hj'.
  { rewrite Hsame, list_lookup_fmap, Hrj. done. }
  assert ((row_file <$> rows') !! i = Some (row_file r')) as Hi'.
  { rewrite Hsame, list_lookup_fmap, Hri. done. }
  rewrite list_lookup_fmap in Hj', Hi'.
  destruct (rows' !! j) as [s|] eqn:Hs; [|done].
  destruct (rows' !! i) as [s'|] eqn:Hs'; [|done].
  simpl in *. exists j, s, s'. split_and!; [done..|]. congruence.
Qed.

Global Instance keeps_shadowed_preorder : PreOrder keeps_shadowed.
Proof.
  split.
  - intros w. split; [done|]. done.
  - intros w1 w2 w3 [Hs12 H12] [Hs23 H23]. split; [by etrans|].
    intros i Hi. rewrite H23, H12; [done..|].
    by apply (shadowed_same_rows (tree w1)).
Qed.

Lemma process_file_keeps_shadowed E output_folder split_mb act clevel pdf_path :
  preserves keeps_shadowed
    (process_file E output_folder split_mb act clevel pdf_path).
Proof.
  apply (any_process_file keeps_shadowed) with (base_name := OsPath.basename pdf_path);
    [done|by intros e w r w' [= <- <-]| |done].
  intros msg w r w' [= <- <-]. split.
  - unfold same_rows. simpl. apply set_status_files.
  - intros i Hi. simpl. by apply set_status_shadowed.
Qed.

(** X24: a row whose file name already stands in a row above it is out
    of reach of [update_status]: whatever a batch does, such a row is
    after the batch what it was before.  (Two listed files of the same
    name in different folders share the first of their rows.) *)
Theorem shadowed_rows_never_change (E : Env) (output_folder : string)
    (split_mb : float) (act clevel : string) (files : list string)
    (w : World) (i : nat) :
  shadowed (tree w) i →
  tree (after (run_files E output_folder split_mb act clevel files) w) !! i
  = tree w !! i.
Proof.
  revert w. induction files as [|f rest IH]; intros w Hi; [done|].
  rewrite after_run_files_cons.
  set (w1 := after (process_file E output_folder split_mb act clevel f) w).
  assert (keeps_shadowed w w1) as [Hsame Hkeep].
  { unfold w1, after.
    destruct (process_file E output_folder split_mb act clevel f w)
      as [r w'] eqn:Hrun.
    by apply process_file_keeps_shadowed in Hrun. }
  rewrite IH; [by apply Hkeep|]. by apply (shadowed_same_rows (tree w)).
Qed.

(* ------------------------------------------------------------------ *)
(** * [is_scanned_pdf] *)
(* ------------------------------------------------------------------ *)

Lemma count_img_pages_world has_images pages : ∀ n w r w',
  count_img_pages has_images pages n w = (r, w') → w' = w.
Proof.
  induction pages as [|p rest IH]; intros n w r w'; simpl.
  - by intros [= <- <-].
  - unfold bind at 1. destruct (has_images p) as [found|]; simpl.
    + apply IH.
    + by intros [= <- <-].
Qed.

Lemma count_img_pages_fails has_images pages : ∀ n w,
  (∃ p, p ∈ pages ∧ has_images p = None) →
  ∃ e, count_img_pages has_images pages n w = (Raise e, w).
Proof.
  induction pages as [|p rest IH]; intros n w (q & Hq & Hnone).
  { by apply elem_of_nil in Hq. }
  simpl. unfold bind at 1. destruct (has_images p) as [found|] eqn:Hp; simpl.
  - apply IH. exists q. split; [|done].
    apply elem_of_cons in Hq as [->|Hq]; [congruence|done].
  - by eexists.
Qed.

(** X25: [is_scanned_pdf] always answers and changes nothing; its answer
    is [True] for a file that cannot be opened, for a document of no
    pages, and whenever asking a page for its images fails. *)
Theorem is_scanned_pdf_defaults (E : Env) (has_images : Page → option bool)
    (pdf : string) (w : World) :
  ∃ scanned,
    is_scanned_pdf E has_images pdf w = (Ok scanned, w)
    ∧ (fs w !! pdf ≫= pdf_parse E = None → scanned = true)
    ∧ (∀ b doc, fs w !! pdf = Some b → pdf_parse E b = Some doc →
         doc = [] ∨ (∃ p, p ∈ doc ∧ has_images p = None) → scanned = true).
Proof.
  unfold is_scanned_pdf, try_except, bind at 1, fitz_open.
  destruct (fs w !! pdf) as [b|] eqn:Hb; simpl.
  2:{ exists true. split_and!; [done..|]. by intros. }
  destruct (pdf_parse E b) as [doc|] eqn:Hdoc.
  2:{ exists true. split_and!; [done..|]. by intros. }
  unfold bind at 1.
  destruct (count_img_pages has_images doc 0 w) as [[n| |] w1] eqn:Hcount.
  - pose proof (count_img_pages_world _ _ _ _ _ _ Hcount) as ->.
    eexists. split_and!; [done|done|].
    intros b' doc' [= <-] Hdoc' Hcase.
    assert (doc' = doc) as -> by congruence.
    destruct Hcase as [->|Hfail].
    + simpl in Hcount. injection Hcount as <-. reflexivity.
    + destruct (count_img_pages_fails has_images doc 0 w Hfail) as [e He].
      congruence.
  - pose proof (count_img_pages_world _ _ _ _ _ _ Hcount) as ->.
    exists true. split_and!; [done..|]. by intros.
  - exfalso. clear -Hcount. revert Hcount. generalize 0 as n.
    induction doc as [|p rest IH]; intros n; simpl; [done|].
    unfold bind at 1. destruct (has_images p); simpl; [apply IH|done].
Qed.

(* ------------------------------------------------------------------ *)
(** * What a final status stands for *)
(* ------------------------------------------------------------------ *)

(** X26: a pass does not report "Done" without its output.  When the
    last status of a pass is not "Error", the compression stage returned a
    working source, the input or the temporary compressed copy, and: in an
    action without "Split" the final output file holds exactly what the
    working source held when the stage ended, that is the bytes of the
    input, or else, compression having been requested, the nonempty
    contents of the temporary compressed copy, which has been moved and is
    no longer at its temporary path; in an action with "Split" the size
    was converted, the splitter returned for the working source in the
    world the stage left, and every part file it reported is in place
    with the serialization of its pages. *)
Theorem done_means_output (E : Env) (output_folder : string) (split_mb : float)
    (act clevel pdf_path : string) (w : World) :
  let base_name := OsPath.basename pdf_path in
  let temp_comp := temp_comp_of E pdf_path in
  let final_output := final_output_of output_folder pdf_path in
  let w' := after (process_file E output_folder split_mb act clevel pdf_path) w in
  last (trace w') ≠ Some (Status base_name "Error") →
  ∃ src w1,
    compress_stage E act clevel pdf_path base_name temp_comp
      (after (update_status base_name "Processing...") w) = (Ok src, w1)
    ∧ if OsPath.str_contains "Split" act then
        ∃ target_bytes parts w2,
          py_int (split_mb * 1024 * 1024)%float = inr target_bytes
          ∧ split_parts E src output_folder (OsPath.stem pdf_path) target_bytes
              (after (update_status base_name "Splitting...") w1)
            = (Ok parts, w2)
          ∧ w' = after (update_status base_name "Done (Split)") w2
          ∧ Forall (λ part, ∃ b, fs w' !! part_path part = Some b
                                 ∧ pdf_write E ((part_pages part).*2) = Some b)
                   parts
      else
        ∃ b,
          fs w1 !! src = Some b
          ∧ fs w' !! final_output = Some b
          ∧ ((src = pdf_path ∧ fs w !! pdf_path = Some b)
             ∨ (src = temp_comp ∧ should_compress act = true ∧ b ≠ []
                ∧ fs w' !! temp_comp = None)).
Proof.
  intros base_name temp_comp final_output w' Hlast.
  subst w' base_name temp_comp final_output.
  pose proof (process_file_body E output_folder split_mb act clevel pdf_path w)
    as Hcases. cbv zeta in Hcases.
  destruct Hcases as [(w2 & Hbody & Hafter)|(e & w2 & _ & Hafter)].
  2:{ rewrite Hafter in Hlast. destruct Hlast. unfold after. simpl.
      by rewrite last_snoc. }
  rewrite Hafter. clear Hafter Hlast.
  unfold process_body in Hbody. fold (OsPath.stem pdf_path) in Hbody.
  fold (temp_comp_of E pdf_path) in Hbody.
  fold (final_output_of output_folder pdf_path) in Hbody.
  apply bind_ok in Hbody as (src & w3 & Hstage & Hout).
  exists src, w3. split; [exact Hstage|].
  unfold output_stage in Hout.
  destruct (OsPath.str_contains "Split" act).
  - apply bind_ok in Hout as ([] & w4 & [= <-] & Hout).
    apply bind_ok in Hout as (target_bytes & w5 & Htarget & Hout).
    apply bind_ok in Hout as (paths & w6 & Hsplit & [= <-]).
    unfold split_pdf in Hsplit.
    apply bind_ok in Hsplit as (parts & w7 & Hparts & [= <- <-]).
    assert (py_int (split_mb * 1024 * 1024)%float = inr target_bytes
            ∧ w5 = after (update_status (OsPath.basename pdf_path) "Splitting...") w3)
      as [Hint ->].
    { destruct (py_int _); [done|]. by injection Htarget as -> <-. }
    exists target_bytes, parts, w7. split_and!; [done..|].
    unfold split_parts in Hparts.
    apply bind_ok in Hparts as (doc & w8 & _ & Hparts).
    apply outer_loop_written in Hparts as (new & -> & Hall);
      [|apply OsPathFacts.stem_no_sep].
    rewrite app_nil_l. eapply Forall_impl; [exact Hall|].
    intros part ([b Hb] & Heq). exists b. split; [done|]. by rewrite <- Heq.
  - apply bind_ok in Hout as ([] & w4 & Hsave & [= <-]). simpl.
    case_decide as Hne.
    + destruct (compress_stage_accepts E act clevel _ _ _ _ _ _ Hstage Hne)
        as (-> & b & Hb & Hbne).
      unfold shutil_move in Hsave. rewrite Hb in Hsave.
      destruct (writable E _); [|done]. injection Hsave as <-. simpl.
      exists b. rewrite lookup_insert_eq. split_and!; [done..|].
      right. split_and!; [done| |done|].
      * destruct (should_compress act) eqn:Hact; [done|].
        rewrite compress_stage_skipped in Hstage by done.
        injection Hstage as Hs _. by destruct Hne.
      * rewrite lookup_insert_ne by apply final_output_ne_temp_comp.
        apply lookup_delete_eq.
    + subst src. unfold shutil_copy in Hsave.
      destruct (fs w3 !! pdf_path) as [b|] eqn:Hb; [|done].
      case_decide; [done|]. destruct (writable E _); [|done].
      injection Hsave as <-. simpl. exists b. rewrite lookup_insert_eq.
      split_and!; [done..|]. left. split; [done|].
      apply compress_stage_frame in Hstage.
      rewrite <- Hb. rewrite (Hstage pdf_path); [done|].
      intros Heq. by apply (temp_comp_ne_source E pdf_path).
Qed.

(** X27: a size limit that [int()] cannot convert (an infinity or a NaN)
    makes every pass of an action with "Split" end in "Error"; the only
    file such a pass can have changed is the temporary compressed
    copy. *)
Theorem unusable_size_fails_every_split (E : Env) (output_folder : string)
    (split_mb : float) (act clevel pdf_path : string) (w : World) (e : exn) :
  OsPath.str_contains "Split" act = true →
  py_int (split_mb * 1024 * 1024)%float = inl e →
  let w' := after (process_file E output_folder split_mb act clevel pdf_path) w in
  last (trace w') = Some (Status (OsPath.basename pdf_path) "Error")
  ∧ ∀ q, q ≠ temp_comp_of E pdf_path → fs w' !! q = fs w !! q.
Proof.
  intros Hsplit Hint w'. subst w'.
  pose proof (process_file_body E output_folder split_mb act clevel pdf_path w)
    as Hcases. cbv zeta in Hcases.
  destruct Hcases as [(w2 & Hbody & Hafter)|(e' & w2 & Hbody & Hafter)];
    rewrite Hafter; clear Hafter;
    unfold process_body in Hbody;
    fold (OsPath.stem pdf_path) in Hbody; fold (temp_comp_of E pdf_path) in Hbody.
  - apply bind_ok in Hbody as (src & w3 & _ & Hout).
    unfold output_stage in Hout. rewrite Hsplit, Hint in Hout.
    apply bind_ok in Hout as ([] & w4 & _ & Hout).
    by apply bind_ok in Hout as (? & ? & ? & _).
  - split; [unfold after; simpl; by rewrite last_snoc|].
    intros q Hq. unfold after at 1. simpl.
    destruct (compress_stage_total E act clevel pdf_path
                (OsPath.basename pdf_path) (temp_comp_of E pdf_path)
                (after (update_status (OsPath.basename pdf_path)
                          "Processing...") w))
      as (src & w3 & Hstage).
    rewrite (bind_eq _ _ _ _ _ Hstage) in Hbody.
    unfold output_stage in Hbody. rewrite Hsplit, Hint in Hbody.
    unfold bind at 1, update_status in Hbody. simpl in Hbody.
    injection Hbody as _ <-. simpl.
    apply compress_stage_frame in Hstage. by rewrite (Hstage q).
Qed.

Lemma length_concat_singletons {A} (ls : list (list A)) :
  Forall (λ l, length l = 1%nat) ls → length (concat ls) = length ls.
Proof.
  induction 1 as [|l ls Hl _ IH]; [done|].
  simpl. rewrite length_app, Hl, IH. done.
Qed.

(** X28: when the trial file of no run of two pages or more of the
    document is within the budget (a budget of zero, say), a split that
    completes gives one part per page: every part holds exactly one page
    and there are as many parts as pages. *)
Theorem split_page_per_part (E : Env) (pdf_path output_folder base_name : string)
    (max_size_bytes : Z) (w w' : World) (b : bytes) (doc : list Page)
    (parts : list SplitPart) :
  fs w !! pdf_path = Some b → pdf_parse E b = Some doc →
  (∀ i j, (i + 2 ≤ j ≤ length doc)%nat →
          ¬ passes_trial E max_size_bytes (segment doc i j)) →
  split_parts E pdf_path output_folder base_name max_size_bytes w = (Ok parts, w') →
  Forall (λ part, length (part_pages part) = 1%nat) parts
  ∧ length parts = length doc.
Proof.
  intros Hb Hdoc Hbig Hrun.
  rewrite (split_parts_open _ _ _ _ _ _ _ _ Hb Hdoc) in Hrun.
  pose proof Hrun as Hshape.
  apply outer_loop_runs in Hshape as (new' & Hnew' & Hruns).
  apply outer_loop_spec in Hrun as (new & -> & Hcat & _ & _ & Hall); [|lia].
  simpl in Hnew'. subst new'. rewrite app_nil_l.
  assert (Forall (λ part, length (part_pages part) = 1%nat) new) as Hone.
  { rewrite Forall_forall in Hall, Hruns. apply Forall_forall. intros part Hin.
    destruct (Hall part Hin) as (Hne & _ & _ & Hbud).
    destruct (Hruns part Hin) as (i & j & Hij & Hseg).
    assert (length (part_pages part) = (j - i)%nat) as Hlen.
    { rewrite Hseg. apply segment_length; lia. }
    destruct Hbud as [Hle|Hfit]; [lia|].
    destruct (decide (i + 2 ≤ j)%nat) as [Hlong|]; [|lia].
    destruct (Hbig i j); [lia|]. by rewrite <- Hseg. }
  split; [done|].
  rewrite <- (tagged_length doc), <- (segment_full doc), <- Hcat.
  rewrite length_concat_singletons; [by rewrite length_fmap|].
  by apply Forall_fmap.
Qed.

(* ------------------------------------------------------------------ *)
(** * The theorems at work on a small world *)
(* ------------------------------------------------------------------ *)

(** Every save succeeds in the small environment. *)
Lemma demo_reliable : reliable_io Demo.E.
Proof. split; [done|]. split; intros pages _; by eexists. Qed.

(** The five pages of [Demo.doc], split with a budget of two bytes. *)
Lemma split_partition_witness :
  ∃ parts w',
    split_parts Demo.E "/in/a.pdf" "/out" "a" 2 Demo.w0 = (Ok parts, w')
    ∧ concat ((λ part, (part_pages part).*1) <$> parts) = seq 0 (length Demo.doc)
    ∧ concat ((λ part, (part_pages part).*2) <$> parts) = Demo.doc.
Proof.
  destruct (split_partition Demo.E "/in/a.pdf" "/out" "a" 2 Demo.w0
              (Demo.file "abXcd") Demo.doc eq_refl eq_refl) as [Hpart Htotal].
  destruct (Htotal demo_reliable) as (parts & w' & Hrun).
  exists parts, w'. split; [exact Hrun|].
  destruct (Hpart parts w' Hrun) as (Hidx & Hpages & _). by split.
Defined.


(** The pass that starts at the heavy page stops after it. *)
Lemma split_progress_witness :
  ∃ part p w',
    build_part Demo.E Demo.doc "/out" "a" 2 5 2 2 Demo.w0 = (Ok (part, p), w')
    ∧ (2 < p ≤ length Demo.doc)%nat
    ∧ head (part_pages part) = pair 2%nat <$> Demo.doc !! 2%nat.
Proof.
  destruct (split_progress Demo.E Demo.doc "/out" "a" 2) as (Hstep & _).
  eexists _, _, _. split; [vm_compute; reflexivity|].
  eapply (Hstep 5%nat 2%nat 2%nat Demo.w0); [simpl; lia|].
  vm_compute. reflexivity.
Defined.

(** A file of no pages gives no part. *)
Lemma split_empty_witness :
  split_pdf Demo.E "/in/empty.pdf" "/out" "empty" 2 Demo.w0 = (Ok [], Demo.w0).
Proof.
  exact (split_empty Demo.E "/in/empty.pdf" "/out" "empty" 2 Demo.w0 []
           eq_refl eq_refl).
Defined.

(** With no Ghostscript installed the container optimization decides, and
    a batch at the standard level never binarizes. *)
Lemma standard_fallback_witness :
  (∃ ok w3,
     compress_stage Demo.E "Compress + Split" "Standard (GS)"
                    "/in/a.pdf" "a.pdf" "/tmp/a_comp_temp.pdf" Demo.w0
     = (Ok (if ok && (0 <? file_size w3 "/tmp/a_comp_temp.pdf")
            then "/tmp/a_comp_temp.pdf" else "/in/a.pdf"), w3))
  ∧ no_binarize Demo.w0
      (after (run_files Demo.E "/out" 1.9 "Compress + Split" "Standard (GS)"
                        ["/in/a.pdf"; "/in/bad.pdf"]) Demo.w0).
Proof.
  destruct (standard_fallback Demo.E "/out" 1.9 "Compress + Split")
    as [Hfall Hnever].
  split.
  - set (w1 := after (update_status "a.pdf"
                        ("Compressing (" +:+ "Standard (GS)" +:+ ")...")) Demo.w0).
    assert (compress_standard_gs Demo.E "/in/a.pdf" "/tmp/a_comp_temp.pdf" w1
            = (Ok false, after (compress_standard_gs Demo.E "/in/a.pdf"
                                  "/tmp/a_comp_temp.pdf") w1)) as Hgs.
    { vm_compute. reflexivity. }
    destruct (Hfall "/in/a.pdf" "a.pdf" "/tmp/a_comp_temp.pdf" Demo.w0 _ eq_refl Hgs)
      as (ok & w3 & _ & _ & Hstage).
    by exists ok, w3.
  - eapply Hnever. unfold after. apply surjective_pairing.
Defined.

(** A file that no strategy can read is copied as it is. *)
Lemma compress_failure_keeps_original_witness :
  ∃ w',
    process_body Demo.E "/out" 1.9 "Compress Only" "Standard (GS)"
                 "/in/bad.pdf" "bad.pdf" Demo.w0 = (Ok tt, w')
    ∧ fs w' !! "/out/bad_processed.pdf" = Some (Demo.file "!xy").
Proof.
  set (w1 := after (update_status "bad.pdf"
                      ("Compressing (" +:+ "Standard (GS)" +:+ ")...")) Demo.w0).
  assert (run_strategy Demo.E "Standard (GS)" "/in/bad.pdf"
            (temp_comp_of Demo.E "/in/bad.pdf") w1
          = (Ok false, after (run_strategy Demo.E "Standard (GS)" "/in/bad.pdf"
                                (temp_comp_of Demo.E "/in/bad.pdf")) w1)) as Hrun.
  { vm_compute. reflexivity. }
  destruct (compress_failure_keeps_original Demo.E "/out" 1.9 "Standard (GS)"
              "/in/bad.pdf" Demo.w0 _ (Demo.file "!xy") eq_refl Hrun)
    as (_ & _ & Hout).
  destruct (Hout eq_refl) as (w' & Hbody & Hfinal & _).
  exists w'. split; [exact Hbody|exact Hfinal].
Defined.

(** An output twice as large as the input is accepted. *)
Lemma accepts_without_size_check_witness :
  ∃ w2,
    compress_stage Demo.E_gs "Compress Only" "Standard (GS)"
                   "/in/a.pdf" "a.pdf" "/tmp/a_comp_temp.pdf" Demo.w0
    = (Ok "/tmp/a_comp_temp.pdf", w2)
    ∧ file_size Demo.w0 "/in/a.pdf" < file_size w2 "/tmp/a_comp_temp.pdf".
Proof.
  set (w1 := after (update_status "a.pdf"
                      ("Compressing (" +:+ "Standard (GS)" +:+ ")...")) Demo.w0).
  set (w2 := after (run_strategy Demo.E_gs "Standard (GS)" "/in/a.pdf"
                      "/tmp/a_comp_temp.pdf") w1).
  assert (run_strategy Demo.E_gs "Standard (GS)" "/in/a.pdf"
            "/tmp/a_comp_temp.pdf" w1 = (Ok true, w2)) as Hrun.
  { vm_compute. reflexivity. }
  destruct (accepts_without_size_check Demo.E_gs "Compress Only" "Standard (GS)"
              "/in/a.pdf" "a.pdf" "/tmp/a_comp_temp.pdf" Demo.w0 w2 true
              eq_refl Hrun) as [_ Haccept].
  exists w2. split.
  - apply (Haccept (Demo.file "abXcd" ++ Demo.file "abXcd")); [done| |done].
    vm_compute. reflexivity.
  - vm_compute. reflexivity.
Defined.

(** A missing file gets "Error", the file after it is split. *)
Lemma batch_survives_failures_witness :
  ∃ w1 w',
    process_file Demo.E "/out" 0.000002 "Split Only" "Standard (GS)"
                 "/in/missing.pdf" Demo.w0 = (Ok tt, w1)
    ∧ status_of (tree w1) "missing.pdf" = Some "Error"
    ∧ run_files Demo.E "/out" 0.000002 "Split Only" "Standard (GS)"
                ["/in/missing.pdf"; "/in/a.pdf"] Demo.w0 = (Ok tt, w')
    ∧ status_of (tree w') "a.pdf" = Some "Done (Split)".
Proof.
  destruct (batch_survives_failures Demo.E "/out" 0.000002 "Split Only"
              "Standard (GS)") as (_ & _ & Herr & _).
  set (w1 := after (update_status "missing.pdf" "Processing...") Demo.w0).
  assert (process_body Demo.E "/out" 0.000002 "Split Only" "Standard (GS)"
            "/in/missing.pdf" "missing.pdf" w1
          = (Raise FileNotFoundError,
             after (process_body Demo.E "/out" 0.000002 "Split Only"
                      "Standard (GS)" "/in/missing.pdf" "missing.pdf") w1))
    as Hbody.
  { vm_compute. reflexivity. }
  destruct (Herr "/in/missing.pdf" Demo.w0 FileNotFoundError _ Hbody)
    as (Hfile & _ & _ & Hstatus).
  eexists _, _. split; [exact Hfile|]. split.
  - apply Hstatus. vm_compute. eauto.
  - split; vm_compute; reflexivity.
Defined.

(** In mode "Compress Only" the working copy ends at the final path. *)
Lemma temp_files_fate_witness :
  ∃ output w',
    process_body Demo.E_gs "/out" 1.9 "Compress Only" "Standard (GS)"
                 "/in/a.pdf" "a.pdf" Demo.w0 = (Ok tt, w')
    ∧ fs w' !! "/out/a_processed.pdf" = Some output
    ∧ fs w' !! "/tmp/a_comp_temp.pdf" = None.
Proof.
  destruct (temp_files_fate Demo.E_gs "/out" 1.9 "Standard (GS)" "/in/a.pdf")
    as (Hpromote & _ & _).
  assert (compress_stage Demo.E_gs "Compress Only" "Standard (GS)" "/in/a.pdf"
            "a.pdf" "/tmp/a_comp_temp.pdf" Demo.w0
          = (Ok "/tmp/a_comp_temp.pdf",
             after (compress_stage Demo.E_gs "Compress Only" "Standard (GS)"
                      "/in/a.pdf" "a.pdf" "/tmp/a_comp_temp.pdf") Demo.w0))
    as Hstage.
  { vm_compute. reflexivity. }
  destruct (Hpromote Demo.w0 "/tmp/a_comp_temp.pdf" _ Hstage ltac:(done) eq_refl)
    as (output & w' & _ & Hbody & Hfinal & Hgone).
  by exists output, w'.
Defined.

(** The five pages of [Demo.doc], binarized. *)
Lemma binarization_pages_witness :
  ∃ w' new_pdf out,
    compress_binary_bw Demo.E "/in/a.pdf" "/tmp/bw.pdf" Demo.w0 = (Ok true, w')
    ∧ Forall2 (bw_page_of Demo.E) Demo.doc new_pdf
    ∧ pdf_write Demo.E new_pdf = Some out
    ∧ fs w' = <["/tmp/bw.pdf" := out]> (fs Demo.w0).
Proof.
  destruct (binarization_pages Demo.E "/in/a.pdf" "/tmp/bw.pdf" Demo.w0
              (Demo.file "abXcd") Demo.doc eq_refl eq_refl)
    as (_ & Hsound & _ & _).
  assert (compress_binary_bw Demo.E "/in/a.pdf" "/tmp/bw.pdf" Demo.w0
          = (Ok true, after (compress_binary_bw Demo.E "/in/a.pdf" "/tmp/bw.pdf")
                            Demo.w0)) as Hrun.
  { vm_compute. reflexivity. }
  destruct (Hsound _ Hrun) as (new_pdf & out & Hpages & Hout & Hfs).
  by eexists _, new_pdf, out.
Defined.

(** ** The further properties at work *)

(** Ghostscript doubles the input: the call reports success and the
    output file is there. *)
Lemma gs_success_means_output_witness :
  ∃ w' b,
    compress_standard_gs Demo.E_gs "/in/a.pdf" "/tmp/a_comp_temp.pdf" Demo.w0
    = (Ok true, w')
    ∧ fs w' !! "/tmp/a_comp_temp.pdf" = Some b ∧ b ≠ [].
Proof.
  eexists. 
  destruct (gs_success_means_output Demo.E_gs "/in/a.pdf" "/tmp/a_comp_temp.pdf"
              Demo.w0 _ ltac:(vm_compute; reflexivity)) as (b & Hb & Hne).
  exists b. split; [vm_compute; reflexivity|]. split; [exact Hb|exact Hne].
Defined.

(** No Ghostscript installed. *)
Lemma gs_unavailable_witness :
  ∃ w',
    compress_standard_gs Demo.E "/in/a.pdf" "/tmp/a_comp_temp.pdf" Demo.w0
    = (Ok false, w')
    ∧ fs w' = fs Demo.w0.
Proof.
  apply (gs_unavailable Demo.E "/in/a.pdf" "/tmp/a_comp_temp.pdf" Demo.w0).
  intros exe _. reflexivity.
Defined.

(** Ghostscript writes nothing, and the file of an earlier run is taken
    for its output. *)
Lemma gs_accepts_stale_output_witness :
  ∃ w',
    compress_standard_gs Scenes.E_silent "/in/a.pdf" "/tmp/a_comp_temp.pdf"
                         Scenes.w_stale = (Ok true, w')
    ∧ fs w' = fs Scenes.w_stale.
Proof.
  apply (gs_accepts_stale_output Scenes.E_silent "/in/a.pdf" "/tmp/a_comp_temp.pdf"
           Scenes.w_stale (Demo.file "old")); [reflexivity|reflexivity|done].
Defined.

(** The listed file that does not exist, to be split. *)
Lemma missing_input_is_an_error_witness :
  ∃ w',
    process_file Demo.E "/out" 1.9 "Split Only" "Standard (GS)"
                 "/in/missing.pdf" Demo.w0 = (Ok tt, w')
    ∧ fs w' = fs Demo.w0
    ∧ last (trace w') = Some (Status "missing.pdf" "Error").
Proof.
  apply (missing_input_is_an_error Demo.E "/out" 1.9 "Split Only" "Standard (GS)"
           "/in/missing.pdf" Demo.w0); reflexivity.
Defined.

(** The split of [Demo.doc] with a budget of two bytes. *)
Lemma demo_split :
  split_parts Demo.E "/in/a.pdf" "/out" "a" 2 Demo.w0
  = (Ok [Demo.first_part; Demo.heavy_part; Demo.last_part],
     after (split_parts Demo.E "/in/a.pdf" "/out" "a" 2) Demo.w0).
Proof. vm_compute. reflexivity. Qed.

(** The split leaves its source alone. *)
Lemma split_writes_only_its_files_witness :
  fs (after (split_pdf Demo.E "/in/a.pdf" "/out" "a" 2) Demo.w0) !! "/in/a.pdf"
  = Some (Demo.file "abXcd").
Proof.
  rewrite (split_writes_only_its_files Demo.E "/in/a.pdf" "/out" "a" 2 Demo.w0
             "/in/a.pdf"); [reflexivity|done|].
  intros i _. unfold out_path. simpl. discriminate.
Defined.

(** The three part files of [Demo.doc]. *)
Lemma split_part_files_witness :
  ∃ w',
    split_parts Demo.E "/in/a.pdf" "/out" "a" 2 Demo.w0
    = (Ok [Demo.first_part; Demo.heavy_part; Demo.last_part], w')
    ∧ fs w' !! "/out/a_part1.pdf" = Some (Demo.file "ab")
    ∧ fs w' !! "/out/a_part2.pdf" = Some (Demo.file "XXXXX")
    ∧ fs w' !! "/out/a_part3.pdf" = Some (Demo.file "cd").
Proof.
  eexists. split; [exact demo_split|].
  pose proof (split_part_files Demo.E "/in/a.pdf" "/out" "a" 2 Demo.w0 _ _
                eq_refl demo_split) as Hall.
  apply Forall_cons in Hall as [(b1 & Hf1 & Hb1) Hall].
  apply Forall_cons in Hall as [(b2 & Hf2 & Hb2) Hall].
  apply Forall_cons in Hall as [(b3 & Hf3 & Hb3) _].
  injection Hb1 as <-. injection Hb2 as <-. injection Hb3 as <-.
  split_and!; [exact Hf1|exact Hf2|exact Hf3].
Defined.

Lemma split_paths_distinct_witness :
  ∃ paths w',
    split_pdf Demo.E "/in/a.pdf" "/out" "a" 2 Demo.w0 = (Ok paths, w')
    ∧ length paths = 3%nat ∧ NoDup paths.
Proof.
  eexists _, _. split; [vm_compute; reflexivity|]. split; [reflexivity|].
  eapply (split_paths_distinct Demo.E "/in/a.pdf" "/out" "a" 2 Demo.w0).
  vm_compute. reflexivity.
Defined.

(** The first part was closed by the heavy page. *)
Lemma split_is_greedy_witness :
  ∃ page rest size,
    part_pages Demo.heavy_part = page :: rest
    ∧ trial_file_size Demo.E (part_pages Demo.first_part ++ [page]) = Some size
    ∧ 2 < size.
Proof.
  exact (split_is_greedy Demo.E "/in/a.pdf" "/out" "a" 2 Demo.w0 _ _ 0
           Demo.first_part Demo.heavy_part demo_split eq_refl eq_refl).
Defined.

(** With a budget of a hundred bytes [Demo.doc] is one part. *)
Lemma split_single_part_witness :
  ∃ part w',
    split_parts Demo.E "/in/a.pdf" "/out" "a" 100 Demo.w0 = (Ok [part], w')
    ∧ part_index part = 1%nat
    ∧ part_pages part = tagged Demo.doc.
Proof.
  assert (split_parts Demo.E "/in/a.pdf" "/out" "a" 100 Demo.w0
          = (Ok [mkPart 1 (tagged Demo.doc) "/out/a_part1.pdf"],
             after (split_parts Demo.E "/in/a.pdf" "/out" "a" 100) Demo.w0))
    as Hrun.
  { vm_compute. reflexivity. }
  assert (∀ n, (2 ≤ n ≤ length Demo.doc)%nat →
               passes_trial Demo.E 100 (segment Demo.doc 0 n)) as Hfit.
  { intros n Hn. destruct n as [|[|[|[|[|[|n]]]]]]; simpl in Hn; try lia;
      (eexists; split; [reflexivity|simpl; lia]). }
  destruct (split_single_part Demo.E "/in/a.pdf" "/out" "a" 100 Demo.w0 _
              (Demo.file "abXcd") Demo.doc _ eq_refl eq_refl
              ltac:(done) Hfit Hrun) as (part & Hparts & Hidx & Hpages).
  exists part. eexists. rewrite <- Hparts. split; [exact Hrun|]. by split.
Defined.

(** The small PDF layer reads back the runs of light pages. *)
Lemma plain_write xs : Forall Plain.light xs → Demo.write (Plain.page <$> xs) = Some xs.
Proof.
  unfold Demo.write. intros Hall. f_equal.
  induction Hall as [|x xs [Hx _] _ IH]; [done|].
  rewrite !fmap_cons. simpl. rewrite IH.
  by destruct x.
Qed.

Lemma plain_parse xs : Forall Plain.light xs → Demo.parse xs = Some (Plain.page <$> xs).
Proof. intros Hall. destruct Hall as [|x xs [_ Hx] _]; [done|]. by destruct x. Qed.

Lemma plain_run i j bs :
  pdf_write Demo.E ((segment Plain.doc i j).*2) = Some bs →
  pdf_parse Demo.E bs = Some ((segment Plain.doc i j).*2).
Proof.
  unfold segment. rewrite fmap_take, fmap_drop, tagged_snd.
  unfold Plain.doc. rewrite <- fmap_drop, <- fmap_take.
  assert (Forall Plain.light (take (j - i) (drop i (Demo.file "abcd")))) as Hl.
  { apply Forall_take, Forall_drop. by repeat constructor. }
  simpl pdf_write. simpl pdf_parse. rewrite plain_write by done.
  intros [= <-]. by apply plain_parse.
Qed.

(** Four light pages, split in two parts and read back. *)
Lemma split_round_trip_witness :
  ∃ parts w',
    split_parts Demo.E "/in/b.pdf" "/out" "b" 2 Plain.w0 = (Ok parts, w')
    ∧ length parts = 2%nat
    ∧ Forall (λ part, fitz_open Demo.E (part_path part) w'
                      = (Ok ((part_pages part).*2), w')) parts
    ∧ concat ((λ part, (part_pages part).*2) <$> parts) = Plain.doc.
Proof.
  eexists _, _. split; [vm_compute; reflexivity|]. split; [reflexivity|].
  apply (split_round_trip Demo.E "/in/b.pdf" "/out" "b" 2 Plain.w0 _
           (Demo.file "abcd") Plain.doc); [reflexivity..|exact plain_run|].
  vm_compute. reflexivity.
Defined.

(** A batch over [a.pdf] leaves the other files alone. *)
Lemma batch_touches_only_derived_files_witness :
  fs (after (run_files Demo.E "/out" 0.000002 "Compress + Split" "Standard (GS)"
               ["/in/a.pdf"]) Demo.w0) !! "/in/bad.pdf"
  = Some (Demo.file "!xy").
Proof.
  rewrite (batch_touches_only_derived_files Demo.E "/out" 0.000002
             "Compress + Split" "Standard (GS)" ["/in/a.pdf"] Demo.w0
             "/in/bad.pdf"); [reflexivity|].
  intros f ->%list_elem_of_singleton. split_and!; [done..|].
  intros i _. unfold out_path. simpl. discriminate.
Defined.

(** The two files of [Twins] chosen a second time. *)
Lemma select_pdfs_twice_witness :
  ∃ pdf_list,
    select_pdfs Twins.whole_kb Twins.files []
                (Demo.world [("/in/a.pdf", Demo.file "abXcd")] [])
    = (Ok pdf_list, Twins.w0)
    ∧ length (tree Twins.w0) = 2%nat
    ∧ select_pdfs Twins.whole_kb Twins.files pdf_list Twins.w0
      = (Ok pdf_list, Twins.w0).
Proof.
  assert (select_pdfs Twins.whole_kb Twins.files []
            (Demo.world [("/in/a.pdf", Demo.file "abXcd")] [])
          = (Ok Twins.files, Twins.w0)) as Hrun.
  { vm_compute. reflexivity. }
  exists Twins.files. split; [exact Hrun|]. split; [reflexivity|].
  exact (select_pdfs_twice Twins.whole_kb Twins.files [] Twins.files _ _ Hrun).
Defined.

(** The batch over the four listed files of [Demo.w0], to be split. *)
Lemma batch_ends_all_terminal_witness :
  ∃ msg,
    status_of (tree (after (run_files Demo.E "/out" 0.000002 "Split Only"
                              "Standard (GS)"
                              ["/in/missing.pdf"; "/in/a.pdf"; "/in/empty.pdf";
                               "/in/bad.pdf"]) Demo.w0)) "a.pdf" = Some msg
    ∧ (msg = "Error" ∨ msg = "Done (Split)").
Proof.
  apply (batch_ends_all_terminal Demo.E "/out" 0.000002 "Split Only"
           "Standard (GS)"
           ["/in/missing.pdf"; "/in/a.pdf"; "/in/empty.pdf"; "/in/bad.pdf"]
           Demo.w0 "/in/a.pdf"); [reflexivity|].
  apply list_elem_of_further, list_elem_of_here.
Defined.

(** The row of [/old/a.pdf] stays "Pending" through the batch that
    processes it. *)
Lemma shadowed_rows_never_change_witness :
  tree (after (run_files Demo.E "/out" 1.9 "Compress Only" "Standard (GS)"
                 Twins.files) Twins.w0) !! 1%nat
  = Some (mkRow "a.pdf" "0" "Pending").
Proof.
  rewrite (shadowed_rows_never_change Demo.E "/out" 1.9 "Compress Only"
             "Standard (GS)" Twins.files Twins.w0 1); [reflexivity|].
  exists 0%nat, (mkRow "a.pdf" "0" "Pending"), (mkRow "a.pdf" "0" "Pending").
  split_and!; [lia|reflexivity..].
Defined.

(** [a.pdf] compressed without Ghostscript and saved. *)
Lemma done_means_output_witness :
  ∃ src b,
    fs (after (process_file Demo.E "/out" 1.9 "Compress Only" "Standard (GS)"
                 "/in/a.pdf") Demo.w0) !! "/out/a_processed.pdf" = Some b
    ∧ ((src = "/in/a.pdf" ∧ fs Demo.w0 !! "/in/a.pdf" = Some b)
       ∨ (src = "/tmp/a_comp_temp.pdf" ∧ b ≠ []
          ∧ fs (after (process_file Demo.E "/out" 1.9 "Compress Only"
                         "Standard (GS)" "/in/a.pdf") Demo.w0)
               !! "/tmp/a_comp_temp.pdf" = None)).
Proof.
  assert (OsPath.str_contains "Split" "Compress Only" = false) as Hact
    by reflexivity.
  assert (last (trace (after (process_file Demo.E "/out" 1.9 "Compress Only"
                                "Standard (GS)" "/in/a.pdf") Demo.w0))
          ≠ Some (Status (OsPath.basename "/in/a.pdf") "Error")) as Hlast.
  { vm_compute. discriminate. }
  pose proof (done_means_output Demo.E "/out" 1.9 "Compress Only"
                "Standard (GS)" "/in/a.pdf" Demo.w0 Hlast)
    as (src & w1 & _ & Hout).
  rewrite Hact in Hout. destruct Hout as (b & _ & Hfinal & Hcase).
  exists src, b. split; [exact Hfinal|].
  destruct Hcase as [[Hsrc Hin]|(Hsrc & _ & Hne & Hgone)].
  - left. by split.
  - right. by split_and!.
Defined.

(** An infinite size limit. *)
Lemma unusable_size_fails_every_split_witness :
  last (trace (after (process_file Demo.E "/out" infinity "Split Only"
                        "Standard (GS)" "/in/a.pdf") Demo.w0))
  = Some (Status "a.pdf" "Error")
  ∧ fs (after (process_file Demo.E "/out" infinity "Split Only"
                 "Standard (GS)" "/in/a.pdf") Demo.w0) = fs Demo.w0.
Proof.
  destruct (unusable_size_fails_every_split Demo.E "/out" infinity "Split Only"
              "Standard (GS)" "/in/a.pdf" Demo.w0 OverflowError)
    as [Hlast _]; [reflexivity|vm_compute; reflexivity|].
  split; [exact Hlast|]. vm_compute. reflexivity.
Defined.

(** With a budget of zero every page of [Demo.doc] is a part. *)
Lemma split_page_per_part_witness :
  ∃ parts w',
    split_parts Demo.E "/in/a.pdf" "/out" "a" 0 Demo.w0 = (Ok parts, w')
    ∧ Forall (λ part, length (part_pages part) = 1%nat) parts
    ∧ length parts = 5%nat.
Proof.
  eexists _, _. split; [vm_compute; reflexivity|].
  eapply (split_page_per_part Demo.E "/in/a.pdf" "/out" "a" 0 Demo.w0 _
            (Demo.file "abXcd") Demo.doc); [reflexivity|reflexivity| |].
  - intros i j Hij (bs & Hbs & Hle).
    destruct i as [|[|[|[|i]]]]; destruct j as [|[|[|[|[|[|j]]]]]];
      simpl in Hij; try lia;
      vm_compute in Hbs; injection Hbs as <-; simpl in Hle; lia.
  - vm_compute. reflexivity.
Defined.
